(** * pill-doser: dosage statistics, deficit curve and sheet store

    A shallow embedding of the dosage tracker's client ([script.js]) and of
    the Apps Script endpoint that keeps the events in a spreadsheet, with the
    properties of the projection (statistics and curve), of the rate
    computation and of removal proved or refuted on the embedding.

    Conventions of the embedding.
    - A JavaScript number is a [number]: NaN, the two infinities, or a finite
      value.  Finite values are exact rationals ([Qc]); IEEE rounding, overflow
      and the sign of zero are not represented, so the properties stated on
      [number] are those that do not depend on them: they name the
      quantities by the expressions of the code.  The one sum whose
      properties depend on rounding, the total given, is embedded a second
      time on binary64 floats ([Binary64]).
    - A Luxon [DateTime] is either invalid or an instant in epoch
      milliseconds; an instant computed by adding or subtracting hours is
      invalid when it is beyond the 8.64e15 milliseconds a [Date] can hold
      (the offset of the zone, a few hours, is left out of that bound).
      All DateTimes the client compares live in the one configured zone, so
      a zone or locale never distinguishes two of them.
    - An event's [dosageTime] string is identified with the instant
      [luxon.DateTime.fromISO] parses it to: whole milliseconds, or invalid.
    - Functions that can throw return a [result]; functions that mutate the
      page or the globals thread a [World] and return an [Outcome].
    - A sheet is its rows from row 1 down, each reduced to its first two
      columns, and a cell keeps the value it is given; a request parameter
      is a string or is missing.
    - [localStorage] is the item saved under each key; the table of entries
      on the page is not represented. *)

From Stdlib Require Import ZArith QArith Qcanon List Bool Lia Lqa.
From Stdlib Require Import String Ascii Permutation Sorted.
From Stdlib Require Floats.
Import ListNotations.

Set Implicit Arguments.

(** ** JavaScript numbers *)

Module Num.
Local Open Scope Qc_scope.

Inductive number : Type :=
| NaN
| PInf
| NInf
| Fin (q : Qc).

Definition zero : number := Fin 0.
Definition of_Z (z : Z) : number := Fin (Q2Qc (inject_Z z)).

Definition isNaN (x : number) : bool :=
  match x with NaN => true | _ => false end.

(** Three-way comparison; [None] when either side is NaN, so that every
    relational operator is false there. *)
Definition cmp (x y : number) : option comparison :=
  match x, y with
  | NaN, _ | _, NaN => None
  | PInf, PInf | NInf, NInf => Some Eq
  | PInf, _ | _, NInf => Some Gt
  | NInf, _ | _, PInf => Some Lt
  | Fin a, Fin b => Some (a ?= b)
  end.

Definition lt (x y : number) : bool :=
  match cmp x y with Some Lt => true | _ => false end.
Definition gt (x y : number) : bool := lt y x.
Definition le (x y : number) : bool :=
  match cmp x y with Some Lt | Some Eq => true | _ => false end.
(** [x === y] on numbers. *)
Definition strict_eq (x y : number) : bool :=
  match cmp x y with Some Eq => true | _ => false end.

Definition neg (x : number) : number :=
  match x with
  | NaN => NaN | PInf => NInf | NInf => PInf | Fin a => Fin (- a)
  end.

Definition add (x y : number) : number :=
  match x, y with
  | NaN, _ | _, NaN => NaN
  | PInf, NInf | NInf, PInf => NaN
  | PInf, _ | _, PInf => PInf
  | NInf, _ | _, NInf => NInf
  | Fin a, Fin b => Fin (a + b)
  end.

Definition sub (x y : number) : number := add x (neg y).

(** Sign of a finite value, as a comparison with zero. *)
Definition sgn (a : Qc) : comparison := a ?= 0.

Definition inf_of (s : comparison) : number :=
  match s with Gt => PInf | Lt => NInf | Eq => NaN end.

Definition sign_of (x : number) : comparison :=
  match x with
  | NaN => Eq | PInf => Gt | NInf => Lt | Fin a => sgn a
  end.

Definition sign_mul (s t : comparison) : comparison :=
  match s, t with
  | Eq, _ | _, Eq => Eq
  | Gt, Gt | Lt, Lt => Gt
  | _, _ => Lt
  end.

Definition mul (x y : number) : number :=
  match x, y with
  | NaN, _ | _, NaN => NaN
  | Fin a, Fin b => Fin (a * b)
  | _, _ => inf_of (sign_mul (sign_of x) (sign_of y))
  end.

(** Division.  A finite non-zero value divided by zero is an infinity of the
    dividend's sign (the divisor is taken as +0), and 0/0 is NaN. *)
Definition div (x y : number) : number :=
  match x, y with
  | NaN, _ | _, NaN => NaN
  | Fin a, Fin b =>
      match sgn b with
      | Eq => inf_of (sgn a)
      | _ => Fin (a / b)
      end
  | Fin _, _ => Fin 0
  | _, Fin b =>
      match sgn b with
      | Eq => x
      | s => inf_of (sign_mul (sign_of x) s)
      end
  | _, _ => NaN
  end.

(** [Math.max(x, y)]: NaN as soon as one argument is. *)
Definition Math_max (x y : number) : number :=
  match cmp x y with
  | None => NaN
  | Some Lt => y
  | Some _ => x
  end.

(** [Math.abs(x)]. *)
Definition Math_abs (x : number) : number :=
  match x with
  | NaN => NaN
  | PInf | NInf => PInf
  | Fin a => match sgn a with Lt => Fin (- a) | _ => Fin a end
  end.

(** Truthiness of a number: everything but NaN and zero. *)
Definition truthy (x : number) : bool :=
  match x with
  | NaN => false
  | Fin a => match sgn a with Eq => false | _ => true end
  | _ => true
  end.

(** [x || y] on numbers. *)
Definition or_else (x y : number) : number := if truthy x then x else y.

(** Boolean equality of values (not [===]: NaN equals itself here). *)
Definition eqb (x y : number) : bool :=
  match x, y with
  | NaN, NaN | PInf, PInf | NInf, NInf => true
  | Fin a, Fin b => Qc_eq_bool a b
  | _, _ => false
  end.

End Num.
Export Num.

(** ** Exceptions *)

(** The value of a call that may throw. *)
Inductive result (A : Type) : Type :=
| Ret (a : A)
| Throw.
Arguments Throw {A}.

Definition bind {A B : Type} (r : result A) (k : A -> result B) : result B :=
  match r with
  | Ret a => k a
  | Throw => Throw
  end.

Notation "'let!' x ':=' r 'in' k" := (bind r (fun x => k))
  (at level 10, x name, r at level 100, k at level 200).

(** ** The part of Luxon the client uses *)

Module Luxon.
Local Open Scope Qc_scope.

Inductive DateTime : Type :=
| DT (ts : Qc)
| InvalidDT.

Definition msPerHour : Qc := Q2Qc (inject_Z 3600000).

Definition isValid (d : DateTime) : bool :=
  match d with DT _ => true | InvalidDT => false end.

(** [luxon.DateTime.fromISO(s)], on a string already reduced to the instant
    it denotes ([None]: a string that is not an ISO date). *)
Definition fromISO (s : option Z) : DateTime :=
  match s with
  | Some ms => DT (Q2Qc (inject_Z ms))
  | None => InvalidDT
  end.

(** [d.toMillis()] and [d.valueOf()]: NaN on an invalid DateTime. *)
Definition toMillis (d : DateTime) : number :=
  match d with DT t => Fin t | InvalidDT => NaN end.

(** [a.equals(b)]: both valid and the same instant. *)
Definition equals (a b : DateTime) : bool :=
  match a, b with
  | DT x, DT y => Qc_eq_bool x y
  | _, _ => false
  end.

(** [a > b] on DateTimes, which JavaScript decides on [valueOf]. *)
Definition after (a b : DateTime) : bool := Num.gt (toMillis a) (toMillis b).

(** The instants a JavaScript [Date] can hold: 8.64e15 milliseconds on
    either side of the epoch. *)
Definition maxMillis : Qc := Q2Qc (inject_Z 8640000000000000).

Definition inRange (t : Qc) : bool :=
  Num.le (Fin (- maxMillis)) (Fin t) && Num.le (Fin t) (Fin maxMillis).

(** The DateTime Luxon builds for a computed timestamp: invalid when the
    timestamp is out of that range. *)
Definition instant (t : Qc) : DateTime :=
  if inRange t then DT t else InvalidDT.

(** [d.plus({ hours: h })].  An invalid receiver is returned as it is.  An
    amount that is not a finite number (NaN or an infinity) is rejected
    with an InvalidArgumentError, as Luxon 3.7 does; releases before it
    rejected NaN only, and returned the receiver for an infinity (no
    property below depends on what an infinity gets).  Otherwise the hours
    are added as milliseconds, and the result is invalid when it falls out
    of range. *)
Definition plus_hours (d : DateTime) (h : number) : result DateTime :=
  match d with
  | InvalidDT => Ret InvalidDT
  | DT t =>
      match h with
      | NaN | PInf | NInf => Throw
      | Fin q => Ret (instant (t + q * msPerHour))
      end
  end.

(** [d.minus({ hours: h })]. *)
Definition minus_hours (d : DateTime) (h : number) : result DateTime :=
  plus_hours d (Num.neg h).

(** [d.minus({ milliseconds: n })] for a literal [n], on an instant that
    was parsed: the result is taken to be in range. *)
Definition minus_millis (d : DateTime) (n : Z) : DateTime :=
  match d with
  | InvalidDT => InvalidDT
  | DT t => DT (t - Q2Qc (inject_Z n))
  end.

(** [b.diff(a, 'hours').hours] for valid [a] and [b]. *)
Definition diff_hours (b a : Qc) : number := Fin ((b - a) / msPerHour).

Definition eqb (a b : DateTime) : bool :=
  match a, b with
  | DT x, DT y => Qc_eq_bool x y
  | InvalidDT, InvalidDT => true
  | _, _ => false
  end.

End Luxon.
Export Luxon.

(** ** Arrays *)

Section Arrays.
Variable A : Type.

(** [a[a.length - 1]], [None] standing for [undefined]. *)
Fixpoint last_elt (l : list A) : option A :=
  match l with
  | [] => None
  | [x] => Some x
  | _ :: l' => last_elt l'
  end.

(** [a.push(x)]. *)
Definition push (l : list A) (x : A) : list A := l ++ [x].

(** [a[a.length - 1] = x] on a non-empty array (on an empty one the
    assignment creates the property [-1] and no element). *)
Definition set_last (l : list A) (x : A) : list A :=
  match l with
  | [] => []
  | _ => removelast l ++ [x]
  end.

(** [a.sort(compare)] for a comparator returning a number: a stable sort,
    an element moving left past those that compare greater than it. *)
Variable compare : A -> A -> number.

Fixpoint insert_sorted (x : A) (l : list A) : list A :=
  match l with
  | [] => [x]
  | y :: l' =>
      if Num.gt (compare x y) Num.zero
      then y :: insert_sorted x l'
      else x :: l
  end.

Fixpoint sort (l : list A) : list A :=
  match l with
  | [] => []
  | x :: l' => insert_sorted x (sort l')
  end.

End Arrays.

(** ** The client: [script.js] *)

Module Client.
Local Open Scope Qc_scope.

(** An entry of [eventsData]: [{ dosageAmount, dosageTime }].  The amount is
    a number (the client stores [parseFloat] of what it read); the time is
    the ISO string, kept as the instant it parses to. *)
Record Event : Type := {
  dosageAmount : number;
  dosageTime : option Z
}.

(** [parseFloat] applied to a value that already is a number. *)
Definition parseFloat (x : number) : number := x.

(** What a page element shows. *)
Inductive Text : Type :=
| NA                                   (* the string 'N/A' *)
| Fixed (x : number) (digits : nat)    (* x.toFixed(digits) *)
| FixedHrs (x : number) (digits : nat) (* x.toFixed(digits) followed by ' hrs' *)
| Formatted (d : DateTime)             (* d.toFormat('hh:mm a') *)
| Literal (s : string).

(** The seven statistics elements, by element id. *)
Record Stats : Type := {
  el_needed : Text;
  el_totalGiven : Text;
  el_totalNeeded : Text;
  el_half : Text;
  el_half_time : Text;
  el_one : Text;
  el_one_time : Text
}.

(** The result of [calculatePlotData]: two parallel arrays. *)
Record PlotData : Type := {
  labels : list DateTime;
  neededDataPoints : list number
}.

(** The chart container: a message, a chart drawn from plot data, or a
    canvas nothing was drawn on. *)
Inductive Chart : Type :=
| Message (s : string)
| Plotted (d : PlotData)
| EmptyCanvas.

(** The globals and the page.  [clock] is the instant [DateTime.now()]
    returns and [zoneValid] tells whether the configured [timeZone] is a
    zone Luxon accepts; [storedRate] is the number saved under [RATE_KEY]. *)
Record World : Type := {
  currentRate : number;
  eventsData : list Event;
  stats : Stats;
  chart : Chart;
  rateText : Text;
  storedRate : number;
  clock : Z;
  zoneValid : bool
}.

(** A call that mutates the world: it returns, or throws part-way with the
    updates made so far in place. *)
Inductive Outcome : Type :=
| Done (w : World)
| Threw (w : World).

Definition world_of (o : Outcome) : World :=
  match o with Done w | Threw w => w end.

Definition and_then (o : Outcome) (k : World -> Outcome) : Outcome :=
  match o with
  | Done w => k w
  | Threw w => Threw w
  end.

Definition set_currentRate (r : number) (w : World) : World :=
  {| currentRate := r; eventsData := eventsData w; stats := stats w;
     chart := chart w; rateText := rateText w; storedRate := storedRate w;
     clock := clock w; zoneValid := zoneValid w |}.

Definition set_eventsData (l : list Event) (w : World) : World :=
  {| currentRate := currentRate w; eventsData := l; stats := stats w;
     chart := chart w; rateText := rateText w; storedRate := storedRate w;
     clock := clock w; zoneValid := zoneValid w |}.

Definition set_stats (s : Stats) (w : World) : World :=
  {| currentRate := currentRate w; eventsData := eventsData w; stats := s;
     chart := chart w; rateText := rateText w; storedRate := storedRate w;
     clock := clock w; zoneValid := zoneValid w |}.

Definition set_chart (c : Chart) (w : World) : World :=
  {| currentRate := currentRate w; eventsData := eventsData w; stats := stats w;
     chart := c; rateText := rateText w; storedRate := storedRate w;
     clock := clock w; zoneValid := zoneValid w |}.

Definition set_rateText (t : Text) (w : World) : World :=
  {| currentRate := currentRate w; eventsData := eventsData w; stats := stats w;
     chart := chart w; rateText := t; storedRate := storedRate w;
     clock := clock w; zoneValid := zoneValid w |}.

Definition set_storedRate (r : number) (w : World) : World :=
  {| currentRate := currentRate w; eventsData := eventsData w; stats := stats w;
     chart := chart w; rateText := rateText w; storedRate := r;
     clock := clock w; zoneValid := zoneValid w |}.

(** [d.setZone(timeZone)]: the same instant, or invalid when the zone is. *)
Definition setZone (w : World) (d : DateTime) : DateTime :=
  if zoneValid w then d else InvalidDT.

(** [getLocalNow()]. *)
Definition getLocalNow (w : World) : DateTime :=
  setZone w (fromISO (Some (clock w))).

(** [formatTimeOffset(hoursOffset)]. *)
Definition formatTimeOffset (w : World) (hoursOffset : number) : result Text :=
  let! dtWithOffset := plus_hours (getLocalNow w) hoursOffset in
  Ret (Formatted dtWithOffset).

(** [calculateHoursBetween], on DateTime arguments. *)
Definition calculateHoursBetween (dateTime1Input dateTime2Input : DateTime) : number :=
  match dateTime1Input, dateTime2Input with
  | DT t1, DT t2 => Math_abs (diff_hours t2 t1)
  | _, _ => Num.zero
  end.

(** [setStat(id, value)], one function per element id. *)
Definition setStat_needed (v : Text) (s : Stats) : Stats :=
  {| el_needed := v; el_totalGiven := el_totalGiven s;
     el_totalNeeded := el_totalNeeded s; el_half := el_half s;
     el_half_time := el_half_time s; el_one := el_one s;
     el_one_time := el_one_time s |}.
Definition setStat_totalGiven (v : Text) (s : Stats) : Stats :=
  {| el_needed := el_needed s; el_totalGiven := v;
     el_totalNeeded := el_totalNeeded s; el_half := el_half s;
     el_half_time := el_half_time s; el_one := el_one s;
     el_one_time := el_one_time s |}.
Definition setStat_totalNeeded (v : Text) (s : Stats) : Stats :=
  {| el_needed := el_needed s; el_totalGiven := el_totalGiven s;
     el_totalNeeded := v; el_half := el_half s;
     el_half_time := el_half_time s; el_one := el_one s;
     el_one_time := el_one_time s |}.
Definition setStat_half (v : Text) (s : Stats) : Stats :=
  {| el_needed := el_needed s; el_totalGiven := el_totalGiven s;
     el_totalNeeded := el_totalNeeded s; el_half := v;
     el_half_time := el_half_time s; el_one := el_one s;
     el_one_time := el_one_time s |}.
Definition setStat_half_time (v : Text) (s : Stats) : Stats :=
  {| el_needed := el_needed s; el_totalGiven := el_totalGiven s;
     el_totalNeeded := el_totalNeeded s; el_half := el_half s;
     el_half_time := v; el_one := el_one s;
     el_one_time := el_one_time s |}.
Definition setStat_one (v : Text) (s : Stats) : Stats :=
  {| el_needed := el_needed s; el_totalGiven := el_totalGiven s;
     el_totalNeeded := el_totalNeeded s; el_half := el_half s;
     el_half_time := el_half_time s; el_one := v;
     el_one_time := el_one_time s |}.
Definition setStat_one_time (v : Text) (s : Stats) : Stats :=
  {| el_needed := el_needed s; el_totalGiven := el_totalGiven s;
     el_totalNeeded := el_totalNeeded s; el_half := el_half s;
     el_half_time := el_half_time s; el_one := el_one s;
     el_one_time := v |}.

(** Every statistics element set to 'N/A'. *)
Definition allNA : Stats :=
  {| el_needed := NA; el_totalGiven := NA; el_totalNeeded := NA;
     el_half := NA; el_half_time := NA; el_one := NA; el_one_time := NA |}.

Definition half_unit : number := Fin (Q2Qc (1 # 2)).
Definition full_unit : number := Fin 1.

(** [events.reduce((sum, e) => sum + (parseFloat(e.dosageAmount) || 0), 0)]. *)
Definition totalGiven (events : list Event) : number :=
  fold_left
    (fun sum e => Num.add sum (Num.or_else (parseFloat (dosageAmount e)) Num.zero))
    events Num.zero.

(** [updateStatisticsDisplay(events)]. *)
Definition updateStatisticsDisplay (events : list Event) (w : World) : Outcome :=
  if (List.length events =? 0)%nat && Num.strict_eq (currentRate w) Num.zero
  then Done (set_stats allNA w)
  else
    let totalGiven := totalGiven events in
    match events with
    | [] => Done w
    | e0 :: _ =>
        let firstEventDT := fromISO (dosageTime e0) in
        if negb (isValid firstEventDT) then Done w
        else
          let firstEventDosageAmount := parseFloat (dosageAmount e0) in
          let initialDeficitHours :=
            Num.div firstEventDosageAmount (currentRate w) in
          match minus_hours firstEventDT initialDeficitHours with
          | Throw => Threw w
          | Ret projectedStartTimeDT =>
              let nowDT := getLocalNow w in
              let hoursElapsed :=
                calculateHoursBetween projectedStartTimeDT firstEventDT in
              let hoursElapsed :=
                if isValid firstEventDT
                then Num.add hoursElapsed (calculateHoursBetween firstEventDT nowDT)
                else hoursElapsed in
              let totalNeededIdeal := Num.mul (currentRate w) hoursElapsed in
              let currentNeeded :=
                Math_max Num.zero (Num.sub totalNeededIdeal totalGiven) in
              let s := setStat_needed (Fixed currentNeeded 1) (stats w) in
              let s := setStat_totalGiven (Fixed totalGiven 1) s in
              let s := setStat_totalNeeded (Fixed totalNeededIdeal 2) s in
              if Num.gt (currentRate w) Num.zero
              then
                let halfDosageTimeOffsetHours :=
                  Num.div (Num.sub half_unit currentNeeded) (currentRate w) in
                let oneDosageTimeOffsetHours :=
                  Num.div (Num.sub full_unit currentNeeded) (currentRate w) in
                let s := setStat_half (FixedHrs halfDosageTimeOffsetHours 1) s in
                match formatTimeOffset w halfDosageTimeOffsetHours with
                | Throw => Threw (set_stats s w)
                | Ret t =>
                    let s := setStat_half_time t s in
                    let s := setStat_one (FixedHrs oneDosageTimeOffsetHours 1) s in
                    match formatTimeOffset w oneDosageTimeOffsetHours with
                    | Throw => Threw (set_stats s w)
                    | Ret t => Done (set_stats (setStat_one_time t s) w)
                    end
                end
              else
                let s := setStat_half NA s in
                let s := setStat_half_time NA s in
                let s := setStat_one NA s in
                Done (set_stats (setStat_one_time NA s) w)
          end
    end.

(** An event that passed the checks of [calculatePlotData]:
    [{ ...event, eventTimeDT, dosageAmount }]. *)
Record PlotEvent : Type := {
  eventTimeDT : DateTime;
  parsedAmount : number
}.

(** The callback of [.map] in [calculatePlotData]; [None] is [null]. *)
Definition checkEvent (w : World) (event : Event) : option PlotEvent :=
  let eventTimeDT := setZone w (fromISO (dosageTime event)) in
  let dosageAmount := parseFloat (dosageAmount event) in
  if negb (isValid eventTimeDT) || Num.isNaN dosageAmount
     || Num.lt dosageAmount Num.zero
  then None
  else Some {| eventTimeDT := eventTimeDT; parsedAmount := dosageAmount |}.

(** [.filter((event) => event !== null)]. *)
Fixpoint dropNull (A : Type) (l : list (option A)) : list A :=
  match l with
  | [] => []
  | Some x :: l' => x :: dropNull l'
  | None :: l' => dropNull l'
  end.

(** The comparator [(a, b) => a.eventTimeDT.toMillis() - b.eventTimeDT.toMillis()]. *)
Definition byMillis (a b : PlotEvent) : number :=
  Num.sub (toMillis (eventTimeDT a)) (toMillis (eventTimeDT b)).

Definition sortedEvents (w : World) (events : list Event) : list PlotEvent :=
  sort byMillis (dropNull (map (checkEvent w) events)).

(** The variables the [forEach] of [calculatePlotData] updates. *)
Record Walk : Type := {
  wk_labels : list DateTime;
  wk_points : list number;
  cumulativeDosageTaken : number
}.

Definition lastIs (d : DateTime) (l : list DateTime) : bool :=
  match last_elt l with
  | Some x => equals d x
  | None => false
  end.

(** The body of [sortedEvents.forEach]. *)
Definition plotStep (rate : number) (projectedStartTimeDT : DateTime)
    (st : Walk) (event : PlotEvent) : Walk :=
  let eventTimeDT := eventTimeDT event in
  let dosageAmount := parsedAmount event in
  let hoursFromProjectedStart :=
    calculateHoursBetween projectedStartTimeDT eventTimeDT in
  let idealTotalIntakeByEventTime := Num.mul rate hoursFromProjectedStart in
  let nonEmpty := (0 <? List.length (wk_labels st))%nat in
  let st :=
    if nonEmpty && negb (lastIs eventTimeDT (wk_labels st))
    then {| wk_labels := push (wk_labels st) (minus_millis eventTimeDT 1);
            wk_points := push (wk_points st)
              (Num.sub idealTotalIntakeByEventTime (cumulativeDosageTaken st));
            cumulativeDosageTaken := cumulativeDosageTaken st |}
    else if nonEmpty && lastIs eventTimeDT (wk_labels st)
    then {| wk_labels := wk_labels st;
            wk_points := set_last (wk_points st)
              (Num.sub idealTotalIntakeByEventTime (cumulativeDosageTaken st));
            cumulativeDosageTaken := cumulativeDosageTaken st |}
    else st in
  let taken := Num.add (cumulativeDosageTaken st) dosageAmount in
  {| wk_labels := push (wk_labels st) eventTimeDT;
     wk_points := push (wk_points st) (Num.sub idealTotalIntakeByEventTime taken);
     cumulativeDosageTaken := taken |}.

(** The two points pushed before the loop: the projected start with need 0
    and the instant one millisecond before the first dose. *)
Definition plotStart (rate : number) (projectedStartTimeDT firstEventTimeDT : DateTime)
    : Walk :=
  let timeBeforeFirstDoseDT := minus_millis firstEventTimeDT 1 in
  let hoursToFirstDoseFromProjectedStart :=
    calculateHoursBetween projectedStartTimeDT firstEventTimeDT in
  let idealIntakeBeforeFirstDose :=
    Num.mul rate hoursToFirstDoseFromProjectedStart in
  {| wk_labels := push (push [] projectedStartTimeDT) timeBeforeFirstDoseDT;
     wk_points := push (push [] Num.zero) idealIntakeBeforeFirstDose;
     cumulativeDosageTaken := Num.zero |}.

(** The end of [calculatePlotData]: the point at the current time. *)
Definition plotNow (rate : number) (projectedStartTimeDT nowDT : DateTime)
    (st : Walk) : PlotData :=
  if negb (isValid nowDT)
  then {| labels := wk_labels st; neededDataPoints := wk_points st |}
  else
    let hoursFromProjectedStartToNow :=
      calculateHoursBetween projectedStartTimeDT nowDT in
    let idealTotalIntakeByNow := Num.mul rate hoursFromProjectedStartToNow in
    let lastLabel := last_elt (wk_labels st) in
    if (List.length (wk_labels st) =? 0)%nat
       || match lastLabel with Some l => after nowDT l | None => false end
    then {| labels := push (wk_labels st) nowDT;
            neededDataPoints := push (wk_points st)
              (Num.sub idealTotalIntakeByNow (cumulativeDosageTaken st)) |}
    else if (0 <? List.length (wk_labels st))%nat && lastIs nowDT (wk_labels st)
    then {| labels := wk_labels st;
            neededDataPoints := set_last (wk_points st)
              (Num.sub idealTotalIntakeByNow (cumulativeDosageTaken st)) |}
    else {| labels := wk_labels st; neededDataPoints := wk_points st |}.

(** The instant the ideal line starts from: the first dose moved back by the
    time that dose lasts at the current rate. *)
Definition projectedStart (rate : number) (first : PlotEvent) : result DateTime :=
  let initialDeficitHours := Num.div (parsedAmount first) rate in
  minus_hours (eventTimeDT first) initialDeficitHours.

(** [calculatePlotData(events)]. *)
Definition calculatePlotData (events : list Event) (w : World) : result PlotData :=
  let sortedEvents := sortedEvents w events in
  match sortedEvents with
  | [] => Ret {| labels := []; neededDataPoints := [] |}
  | first :: _ =>
      let firstEventTimeDT := eventTimeDT first in
      let! projectedStartTimeDT := projectedStart (currentRate w) first in
      let st := plotStart (currentRate w) projectedStartTimeDT firstEventTimeDT in
      let st := fold_left (plotStep (currentRate w) projectedStartTimeDT)
                  sortedEvents st in
      let nowDT := setZone w (getLocalNow w) in
      Ret (plotNow (currentRate w) projectedStartTimeDT nowDT st)
  end.

(** [plotDosageGraph(events)], with the container present and both
    libraries loaded.  The container is cleared and given a canvas before
    [calculatePlotData] runs, so a throw leaves the empty canvas. *)
Definition plotDosageGraph (events : list Event) (w : World) : Outcome :=
  if (List.length events =? 0)%nat || Num.le (currentRate w) Num.zero
  then Done (set_chart
    (Message "No data to display or rate is zero. Enter data and set a rate.") w)
  else
    match calculatePlotData events w with
    | Throw => Threw (set_chart EmptyCanvas w)
    | Ret d =>
        if (List.length (labels d) =? 0)%nat
           && (List.length (neededDataPoints d) =? 0)%nat
        then Done (set_chart
          (Message "Not enough data to plot the graph after processing.") w)
        else Done (set_chart (Plotted d) w)
    end.

(** [updateRateDisplay()]; [pills] and [hours] are the two
    [parseFloat(element.value)] it starts with, NaN for an empty or
    non-numeric field. *)
Definition updateRateDisplay (pills hours : number) (w : World) : Outcome :=
  let w :=
    if negb (Num.isNaN pills) && negb (Num.isNaN hours)
       && negb (Num.strict_eq hours Num.zero)
    then
      let rate := Num.div pills hours in
      set_rateText (Fixed rate 3) (set_storedRate rate (set_currentRate rate w))
    else
      set_rateText NA (set_storedRate Num.zero (set_currentRate Num.zero w)) in
  if (0 <? List.length (eventsData w))%nat || Num.gt (currentRate w) Num.zero
  then
    and_then (updateStatisticsDisplay (eventsData w) w)
      (fun w => plotDosageGraph (eventsData w) w)
  else Done w.

(** The reply of the sheet endpoint to a 'remove' request, as far as the
    client reads it. *)
Record Reply : Type := {
  success : bool;
  removed : bool
}.

(** [removeDosageEntryHandler(buttonElement)].  [confirmed] is the answer to
    the confirmation dialog; [rawTimeISO] is the [data-raw-time] of the
    clicked row, [None] when the row or the attribute is missing; [reply] is
    what [removeEventFromSheet] resolves to.  The table rows themselves are
    not part of the world.  An exception of the two refresh calls is caught
    by the handler, so it always returns. *)
Definition removeDosageEntryHandler (confirmed : bool)
    (rawTimeISO : option (option Z)) (reply : Reply) (w : World) : World :=
  if negb confirmed then w
  else
    match rawTimeISO with
    | None => w
    | Some iso =>
        let dosageTimeToRemoveDT := setZone w (fromISO iso) in
        if negb (isValid dosageTimeToRemoveDT) then w
        else if success reply && removed reply
        then
          let w := set_eventsData
            (filter
               (fun event =>
                  negb (Num.strict_eq
                          (toMillis (fromISO (dosageTime event)))
                          (toMillis dosageTimeToRemoveDT)))
               (eventsData w)) w in
          world_of
            (and_then (updateStatisticsDisplay (eventsData w) w)
               (fun w => plotDosageGraph (eventsData w) w))
        else w
    end.

End Client.

(** ** The sheet endpoint: the Apps Script web app *)

Module SheetApp.
Local Open Scope string_scope.
Local Open Scope nat_scope.

Definition SHEET_NAME : string := "Sheet1".
Definition DATE_HEADER : string := "Date".
Definition AMOUNT_HEADER : string := "Amount".

Definition dquote : string := String (ascii_of_nat 34) EmptyString.

(** What [getValue] returns for a cell. *)
Inductive Value : Type :=
| VString (s : string)
| VNumber (x : number)
| VDate (ms : Z)
| VEmpty.

(** A row of the sheet, reduced to its first two columns, and a sheet as
    its rows from row 1 down. *)
Definition Row : Type := (Value * Value)%type.
Definition Sheet : Type := list Row.

(** The spreadsheet: the sheet called [SHEET_NAME], if there is one. *)
Definition Spreadsheet : Type := option Sheet.

Definition isBlank (v : Value) : bool :=
  match v with
  | VEmpty => true
  | VString s => if string_dec s "" then true else false
  | _ => false
  end.

Definition hasContent (r : Row) : bool :=
  negb (isBlank (fst r)) || negb (isBlank (snd r)).

(** [sheet.getLastRow()]: the position of the last row that has content. *)
Fixpoint getLastRow (sheet : Sheet) : nat :=
  match sheet with
  | [] => 0
  | r :: rest =>
      match getLastRow rest with
      | 0 => if hasContent r then 1 else 0
      | S n => S (S n)
      end
  end.

(** Whitespace that [String.prototype.trim] removes, among the code units
    an [ascii] can hold. *)
Definition isWhiteSpace (c : ascii) : bool :=
  match nat_of_ascii c with
  | 9 | 10 | 11 | 12 | 13 | 32 | 160 => true
  | _ => false
  end.

Fixpoint trimStart (s : string) : string :=
  match s with
  | String c s' => if isWhiteSpace c then trimStart s' else s
  | EmptyString => EmptyString
  end.

(** Drops the trailing whitespace: a character is kept when it is not
    whitespace or when something is kept after it. *)
Fixpoint trimEnd (s : string) : string :=
  match s with
  | EmptyString => EmptyString
  | String c s' =>
      match trimEnd s' with
      | EmptyString => if isWhiteSpace c then EmptyString else String c EmptyString
      | t => String c t
      end
  end.

Definition trim (s : string) : string := trimEnd (trimStart s).

(** *** The two regular expressions that validate a date parameter *)

Definition isDigit (c : ascii) : bool :=
  (48 <=? nat_of_ascii c)%nat && (nat_of_ascii c <=? 57)%nat.

(** [\d{n}] at the start of [s]: the rest of the string after it. *)
Fixpoint digits (n : nat) (s : string) : option string :=
  match n with
  | 0 => Some s
  | S n' =>
      match s with
      | String c s' => if isDigit c then digits n' s' else None
      | EmptyString => None
      end
  end.

(** A literal character at the start of [s]. *)
Definition lit (c : ascii) (s : string) : option string :=
  match s with
  | String c' s' => if Ascii.eqb c c' then Some s' else None
  | EmptyString => None
  end.

Definition andThen (r : option string) (k : string -> option string) : option string :=
  match r with
  | Some s => k s
  | None => None
  end.

Definition atEnd (s : string) : bool :=
  match s with EmptyString => true | _ => false end.

Definition matchesEnd (r : option string) : bool :=
  match r with Some s => atEnd s | None => false end.

(** [\d{4}-\d{2}-\d{2}] at the start of [s]. *)
Definition datePart (s : string) : option string :=
  andThen (digits 4 s) (fun s =>
  andThen (lit "-" s) (fun s =>
  andThen (digits 2 s) (fun s =>
  andThen (lit "-" s) (fun s => digits 2 s)))).

(** [\d{2}:\d{2}:\d{2}] at the start of [s]. *)
Definition timePart (s : string) : option string :=
  andThen (digits 2 s) (fun s =>
  andThen (lit ":" s) (fun s =>
  andThen (digits 2 s) (fun s =>
  andThen (lit ":" s) (fun s => digits 2 s)))).

(** [(Z|([+-]\d{2}(:\d{2})?))?$]. *)
Definition zoneToEnd (s : string) : bool :=
  atEnd s
  || matchesEnd (lit "Z" s)
  || (let signed :=
        match lit "+" s with
        | Some r => Some r
        | None => lit "-" s
        end in
      match andThen signed (digits 2) with
      | Some r => atEnd r || matchesEnd (andThen (lit ":" r) (digits 2))
      | None => false
      end).

(** [(\.\d{1,3})?] followed by the zone part and the end. *)
Definition fractionToEnd (s : string) : bool :=
  zoneToEnd s
  || match lit "." s with
     | Some r =>
         match digits 3 r with Some t => zoneToEnd t | None => false end
         || match digits 2 r with Some t => zoneToEnd t | None => false end
         || match digits 1 r with Some t => zoneToEnd t | None => false end
     | None => false
     end.

(** [isoDateTimeRegex.test(s)]. *)
Definition isoDateTimeRegex (s : string) : bool :=
  match andThen (andThen (datePart s) (lit "T")) timePart with
  | Some r => fractionToEnd r
  | None => false
  end.

(** [isoDateOnlyRegex.test(s)]. *)
Definition isoDateOnlyRegex (s : string) : bool := matchesEnd (datePart s).

(** *** The handlers *)

Definition headerRow : Row := (VString DATE_HEADER, VString AMOUNT_HEADER).

(** [v !== h] for a header string [h]. *)
Definition differsFrom (v : Value) (h : string) : bool :=
  match v with
  | VString s => if string_dec s h then false else true
  | _ => true
  end.

(** [sheet.getRange(1, 1, 1, 2).setValues([[DATE_HEADER, AMOUNT_HEADER]])]. *)
Definition setHeaders (sheet : Sheet) : Sheet :=
  match sheet with
  | [] => [headerRow]
  | _ :: rest => headerRow :: rest
  end.

(** [_internalEnsureHeaders(sheet)], on a sheet of at least two columns:
    the sheet afterwards (the returned message is not used by removal). *)
Definition _internalEnsureHeaders (sheet : Sheet) : Sheet :=
  if (getLastRow sheet =? 0)%nat then setHeaders sheet
  else
    let currentHeader1 := match sheet with r :: _ => fst r | [] => VEmpty end in
    let currentHeader2 := match sheet with r :: _ => snd r | [] => VEmpty end in
    if differsFrom currentHeader1 DATE_HEADER
       || differsFrom currentHeader2 AMOUNT_HEADER
    then setHeaders (((VEmpty, VEmpty) : Row) :: sheet)
    else sheet.

(** The test of the loop body: the cell is a string that, trimmed, is the
    target. *)
Definition cellMatches (cellValue : Value) (targetIsoString : string) : bool :=
  match cellValue with
  | VString s => if string_dec (trim s) targetIsoString then true else false
  | _ => false
  end.

(** The loop [for (let i = dateColumnValues.length - 1; i >= 1; i--)], from
    index [i] down: the index whose row is deleted, if any. *)
Fixpoint scanFrom (i : nat) (dateColumnValues : list Value)
    (targetIsoString : string) : option nat :=
  match i with
  | 0 => None
  | S j =>
      if cellMatches (nth i dateColumnValues VEmpty) targetIsoString
      then Some i
      else scanFrom j dateColumnValues targetIsoString
  end.

(** [sheet.getRange(1, 1, sheet.getLastRow(), 1).getValues()]: the first
    column from row 1 through the last row. *)
Definition dateColumn (sheet : Sheet) : list Value :=
  map fst (firstn (getLastRow sheet) sheet).

(** [sheet.deleteRow(n)], rows counted from 1. *)
Definition deleteRow (n : nat) (sheet : Sheet) : Sheet :=
  (firstn (n - 1) sheet ++ skipn n sheet)%list.

(** The JSON object a handler returns. *)
Inductive Response : Type :=
| Failure (error : string)
| Success (removed : bool) (message : string).

(** [handleRemoveData(params)], with [params.date] given as [None] when it
    is missing or not a string.  Returns the response and the spreadsheet
    afterwards. *)
Definition handleRemoveData (dateToRemoveParam : option string) (ss : Spreadsheet)
    : Response * Spreadsheet :=
  match dateToRemoveParam with
  | None =>
      (Failure "Missing or invalid 'date' parameter for remove action. Expected an ISO string.", ss)
  | Some param =>
      if string_dec (trim param) ""
      then (Failure "Missing or invalid 'date' parameter for remove action. Expected an ISO string.", ss)
      else
        let targetIsoString := trim param in
        if negb (isoDateTimeRegex targetIsoString)
           && negb (isoDateOnlyRegex targetIsoString)
        then (Failure ("Invalid 'date' format for removal: '" ++ targetIsoString
                       ++ "'. Expected a valid ISO 8601 string."), ss)
        else
          match ss with
          | None =>
              (Failure ("Sheet " ++ dquote ++ SHEET_NAME ++ dquote ++ " not found."), ss)
          | Some sheet =>
              if (getLastRow sheet <=? 1)%nat
              then (Success false "No data to remove.", ss)
              else
                let sheet := _internalEnsureHeaders sheet in
                let dateColumnValues := dateColumn sheet in
                match scanFrom (List.length dateColumnValues - 1)
                        dateColumnValues targetIsoString with
                | Some i =>
                    (Success true ("Data for ISO date '" ++ targetIsoString
                                   ++ "' removed."),
                     Some (deleteRow (i + 1) sheet))
                | None =>
                    (Success false ("No data found for ISO date '"
                                    ++ targetIsoString ++ "'."),
                     Some sheet)
                end
          end
  end.

(** *** [parseFloat] on a string *)

Definition digitValue (c : ascii) : Z := Z.of_nat (nat_of_ascii c - 48).

(** The longest run of decimal digits at the start of [s], read after the
    digits that gave [acc]: the number written, how many digits were read
    and the rest of the string. *)
Fixpoint decimalDigits (s : string) (acc : Z) (count : nat) : Z * nat * string :=
  match s with
  | String c s' =>
      if isDigit c
      then decimalDigits s' (10 * acc + digitValue c)%Z (S count)
      else (acc, count, s)
  | EmptyString => (acc, count, s)
  end.

(** The exponent part at the start of [s], if there is a complete one: [e]
    or [E], an optional sign and at least one digit.  Anything else is not
    part of the number, and the exponent is 0. *)
Definition exponentPart (s : string) : Z :=
  let afterE :=
    match lit "e" s with
    | Some r => Some r
    | None => lit "E" s
    end in
  match afterE with
  | None => 0%Z
  | Some r =>
      let signed :=
        match lit "-" r with
        | Some r' => (true, r')
        | None => match lit "+" r with Some r' => (false, r') | None => (false, r) end
        end in
      let '(e, n, _) := decimalDigits (snd signed) 0%Z 0 in
      if (n =? 0)%nat then 0%Z else if fst signed then (- e)%Z else e
  end.

(** The value of the mantissa [m] scaled by ten to the power [e]. *)
Definition decimalValue (m e : Z) : number :=
  Fin (Q2Qc (inject_Z m * Qpower (inject_Z 10) e)).

(** The longest prefix of [s] that is an unsigned decimal literal:
    [Infinity], or digits with an optional fraction and exponent, at least
    one digit standing before or after the point. *)
Definition unsignedDecimalLiteral (s : string) : number :=
  if String.prefix "Infinity" s then PInf
  else
    let '(i, ni, rest) := decimalDigits s 0%Z 0 in
    match lit "." rest with
    | Some r =>
        let '(m, nf, rest') := decimalDigits r i 0 in
        if (ni + nf =? 0)%nat then NaN
        else decimalValue m (exponentPart rest' - Z.of_nat nf)
    | None =>
        if (ni =? 0)%nat then NaN else decimalValue i (exponentPart rest)
    end.

(** [parseFloat(s)]: leading whitespace is skipped, then the longest prefix
    that is a decimal literal is read; NaN when there is none. *)
Definition parseFloat (s : string) : number :=
  let s := trimStart s in
  match lit "-" s with
  | Some r => Num.neg (unsignedDecimalLiteral r)
  | None =>
      match lit "+" s with
      | Some r => unsignedDecimalLiteral r
      | None => unsignedDecimalLiteral s
      end
  end.

(** *** Headers, adding and reading *)

(** The message of the error [_getSheet] throws. *)
Definition sheetNotFound : string :=
  "Sheet " ++ dquote ++ SHEET_NAME ++ dquote ++ " not found.".

(** What [_internalEnsureHeaders(sheet)] returns: [changed] and [message]. *)
Definition ensureHeadersResult (sheet : Sheet) : bool * string :=
  if (getLastRow sheet =? 0)%nat then (true, "Headers added to empty sheet.")
  else
    let currentHeader1 := match sheet with r :: _ => fst r | [] => VEmpty end in
    let currentHeader2 := match sheet with r :: _ => snd r | [] => VEmpty end in
    if differsFrom currentHeader1 DATE_HEADER
       || differsFrom currentHeader2 AMOUNT_HEADER
    then (true, "Headers (re-)inserted at the first row.")
    else (false, "Headers already exist and are correct.").

Inductive HeadersResponse : Type :=
| HeadersFailure (error : string)
| HeadersSuccess (message : string) (headersChanged : bool).

(** [handleEnsureHeaders()]. *)
Definition handleEnsureHeaders (ss : Spreadsheet) : HeadersResponse * Spreadsheet :=
  match ss with
  | None => (HeadersFailure sheetNotFound, ss)
  | Some sheet =>
      let result := ensureHeadersResult sheet in
      (HeadersSuccess (snd result) (fst result), Some (_internalEnsureHeaders sheet))
  end.

(** [sheet.appendRow(row)]: the values go, as they are passed, into the row
    below the last row that has content. *)
Definition appendRow (row : Row) (sheet : Sheet) : Sheet :=
  (firstn (getLastRow sheet) sheet ++ row :: skipn (S (getLastRow sheet)) sheet)%list.

Inductive AddResponse : Type :=
| AddFailure (error : string)
| AddSuccess (message : string).

(** [handleAddData(params)], with [params.date] and [params.floatValue]
    given as [None] when missing; a request parameter that is present is a
    string. *)
Definition handleAddData (dateStr floatValueStr : option string) (ss : Spreadsheet)
    : AddResponse * Spreadsheet :=
  match dateStr with
  | None =>
      (AddFailure "Missing or invalid 'date' parameter. Expected a Luxon ISO string.", ss)
  | Some dateStr =>
      if string_dec (trim dateStr) ""
      then (AddFailure "Missing or invalid 'date' parameter. Expected a Luxon ISO string.", ss)
      else
        match floatValueStr with
        | None => (AddFailure "Missing or empty 'floatValue' parameter.", ss)
        | Some floatValueStr =>
            if string_dec (trim floatValueStr) ""
            then (AddFailure "Missing or empty 'floatValue' parameter.", ss)
            else if negb (isoDateTimeRegex dateStr) && negb (isoDateOnlyRegex dateStr)
            then (AddFailure ("Invalid 'date' format: '" ++ dateStr
                    ++ "'. Expected a valid ISO 8601 string (e.g., YYYY-MM-DD or YYYY-MM-DDTHH:mm:ssZ)."),
                  ss)
            else
              let floatValue := parseFloat floatValueStr in
              if Num.isNaN floatValue
              then (AddFailure ("Invalid floatValue: '" ++ floatValueStr
                                ++ "'. Must be a number."), ss)
              else
                match ss with
                | None => (AddFailure sheetNotFound, ss)
                | Some sheet =>
                    let sheet := _internalEnsureHeaders sheet in
                    (AddSuccess "Data added successfully with ISO date string.",
                     Some (appendRow (VString (trim dateStr), VNumber floatValue) sheet))
                end
        end
  end.

(** An element of the [data] array of a 'get' response: [{ date, value }],
    [None] standing for [null]. *)
Record DataItem : Type := {
  itemDate : Value;
  itemValue : option number
}.

(** [row[1] !== null && String(row[1]).trim() !== '' ?
    parseFloat(String(row[1])) : null].  A number written out and parsed
    again is that number, and a date written out starts with the name of a
    day. *)
Definition cellNumber (v : Value) : option number :=
  match v with
  | VString s => if string_dec (trim s) "" then None else Some (parseFloat s)
  | VNumber x => Some x
  | VDate _ => Some NaN
  | VEmpty => None
  end.

(** The callback of [rawValues.map]. *)
Definition toItem (row : Row) : DataItem :=
  {| itemDate := fst row; itemValue := cellNumber (snd row) |}.

Inductive GetResponse : Type :=
| GetFailure (error : string)
| GetSuccess (data : list DataItem).

(** [handleGetData()]. *)
Definition handleGetData (ss : Spreadsheet) : GetResponse * Spreadsheet :=
  match ss with
  | None => (GetFailure sheetNotFound, ss)
  | Some sheet =>
      if (getLastRow sheet <=? 1)%nat
      then
        (GetSuccess [],
         Some (if (getLastRow sheet =? 1)%nat
               then _internalEnsureHeaders sheet else sheet))
      else
        let sheet := _internalEnsureHeaders sheet in
        let rawValues := firstn (getLastRow sheet - 1) (skipn 1 sheet) in
        (GetSuccess (map toItem rawValues), Some sheet)
  end.

(** *** The entry points *)

(** [e.parameter], as far as the handlers read it. *)
Record Parameters : Type := {
  action : option string;
  date : option string;
  floatValue : option string
}.

(** The object an entry point passes to [_createJsonResponse]. *)
Inductive Result : Type :=
| GetResult (r : GetResponse)
| HeadersResult (r : HeadersResponse)
| AddResult (r : AddResponse)
| RemoveResult (r : Response)
| InvalidAction (error : string).

(** [`${action}`] for an action that may be missing. *)
Definition actionText (a : option string) : string :=
  match a with Some s => s | None => "undefined" end.

(** [case name:] of the [switch (action)]. *)
Definition actionIs (a : option string) (name : string) : bool :=
  match a with
  | Some s => if string_dec s name then true else false
  | None => false
  end.

(** [doGet(e)]. *)
Definition doGet (e : Parameters) (ss : Spreadsheet) : Result * Spreadsheet :=
  if actionIs (action e) "get"
  then let '(r, ss) := handleGetData ss in (GetResult r, ss)
  else if actionIs (action e) "ensureHeaders"
  then let '(r, ss) := handleEnsureHeaders ss in (HeadersResult r, ss)
  else (InvalidAction ("Invalid action '" ++ actionText (action e)
                       ++ "' for GET request."), ss).

(** [doPost(e)]. *)
Definition doPost (e : Parameters) (ss : Spreadsheet) : Result * Spreadsheet :=
  if actionIs (action e) "add"
  then let '(r, ss) := handleAddData (date e) (floatValue e) ss in (AddResult r, ss)
  else if actionIs (action e) "remove"
  then let '(r, ss) := handleRemoveData (date e) ss in (RemoveResult r, ss)
  else (InvalidAction ("Invalid action '" ++ actionText (action e)
                       ++ "' for POST request."), ss).

(** The web app runtime: a GET request runs [doGet] and a POST request
    runs [doPost]. *)
Inductive Method : Type := GET | POST.

Definition serve (m : Method) (e : Parameters) (ss : Spreadsheet)
    : Result * Spreadsheet :=
  match m with
  | GET => doGet e ss
  | POST => doPost e ss
  end.

End SheetApp.

(** ** The client: adding entries and loading them *)

Module Handlers.
Import Client.

(** [d.toISO()], as the instant the string denotes: the millisecond of
    the DateTime, a fraction of a millisecond dropped; [None] is the [null]
    of an invalid DateTime. *)
Definition toISO (d : DateTime) : option Z :=
  match d with
  | DT t => Some (Z.quot (Qnum (this t)) (Zpos (Qden (this t))))
  | InvalidDT => None
  end.

(** The comparator of [eventsData.sort]:
    [fromISO(a.dosageTime).toMillis() - fromISO(b.dosageTime).toMillis()]. *)
Definition byTime (a b : Event) : number :=
  Num.sub (toMillis (fromISO (dosageTime a))) (toMillis (fromISO (dosageTime b))).

(** [currentRate = parseFloat(loadFromLocalStorage(RATE_KEY)) || 0], on the
    number saved under [RATE_KEY]; NaN stands for a key never saved. *)
Definition initialRate (saved : number) : number :=
  Num.or_else (parseFloat saved) Num.zero.

(** The argument of [addNewEventHandler]: nothing, a number or a string. *)
Inductive QuickAmount : Type :=
| NoAmount
| AmountNumber (x : number)
| AmountText (s : string).

(** Truthiness of the argument. *)
Definition quickGiven (q : QuickAmount) : bool :=
  match q with
  | NoAmount => false
  | AmountNumber x => Num.truthy x
  | AmountText s => negb (SheetApp.atEnd s)
  end.

(** [parseFloat(quickAmount)]. *)
Definition quickParsed (q : QuickAmount) : number :=
  match q with
  | NoAmount => NaN
  | AmountNumber x => parseFloat x
  | AmountText s => SheetApp.parseFloat s
  end.

(** What [addNewEventHandler] leaves: the request sent to the sheet, if one
    was sent, the world, and the value of the amount field. *)
Record Added : Type := {
  sent : option (DateTime * number);
  after_add : World;
  amountField : string
}.

(** Whether a call of the two refresh functions returned. *)
Definition completed (o : Outcome) : bool :=
  match o with Done _ => true | Threw _ => false end.

(** [addNewEventHandler(quickAmount)], with both input fields present.
    [amountValue] is the value of the amount field; [timeValue] is the
    value of the time field, [None] when it is empty and otherwise the
    instant [fromISO] parses it to; [resultSuccess] is the [success] of
    what [addEventToSheet] resolves to.  The table rows are not part of
    the world.  An exception of the two refresh calls is caught by the
    handler, and skips the clearing of the amount field that follows
    them. *)
Definition addNewEventHandler (quickAmount : QuickAmount) (amountValue : string)
    (timeValue : option (option Z)) (resultSuccess : bool) (w : World) : Added :=
  let chosen : option (number * DateTime) :=
    if quickGiven quickAmount && negb (Num.isNaN (quickParsed quickAmount))
    then Some (quickParsed quickAmount, getLocalNow w)
    else
      match timeValue with
      | None => None
      | Some iso => Some (SheetApp.parseFloat amountValue, setZone w (fromISO iso))
      end in
  match chosen with
  | None => {| sent := None; after_add := w; amountField := amountValue |}
  | Some (amount, eventTimeDT) =>
      if Num.isNaN amount || Num.le amount Num.zero
      then {| sent := None; after_add := w; amountField := amountValue |}
      else if negb (isValid eventTimeDT)
      then {| sent := None; after_add := w; amountField := amountValue |}
      else if resultSuccess
      then
        let newEvent :=
          {| dosageAmount := amount; dosageTime := toISO eventTimeDT |} in
        let w := set_eventsData
                   (sort byTime (push (eventsData w) newEvent)) w in
        let refreshed :=
          and_then (updateStatisticsDisplay (eventsData w) w)
            (fun w => plotDosageGraph (eventsData w) w) in
        {| sent := Some (eventTimeDT, amount);
           after_add := world_of refreshed;
           amountField :=
             if completed refreshed && negb (quickGiven quickAmount)
             then EmptyString
             else amountValue |}
      else
        {| sent := Some (eventTimeDT, amount); after_add := w;
           amountField := amountValue |}
  end.

(** The [value] of an entry the sheet returned: missing, [null] or a
    number. *)
Inductive SheetValue : Type :=
| Absent
| Null
| Number (x : number).

(** An entry of the [data] the sheet returned.  [date] is the instant
    [fromISO(e.date)] parses to, [None] also standing for an entry that is
    null or has no [date]. *)
Record SheetEvent : Type := {
  date : option Z;
  value : SheetValue
}.

(** [getEventsFromSheet()], on the [success] and [data] of the reply. *)
Definition getEventsFromSheet (success : bool) (data : list SheetEvent)
    : list SheetEvent :=
  if success then data else [].

(** The callback of [.filter] in [initializeApp]. *)
Definition hasDateAndValue (e : SheetEvent) : bool :=
  match value e with
  | Absent => false
  | _ => isValid (fromISO (date e))
  end.

(** The callback of [.map] in [initializeApp]; [parseFloat(null)] is NaN. *)
Definition toEvent (e : SheetEvent) : Event :=
  {| dosageAmount :=
       match value e with Number x => parseFloat x | _ => NaN end;
     dosageTime := toISO (fromISO (date e)) |}.

(** [sheetEvents.filter(...).map(...).sort(...)]. *)
Definition loadedEvents (sheetEvents : list SheetEvent) : list Event :=
  sort byTime (map toEvent (filter hasDateAndValue sheetEvents)).

(** [initializeApp()].  [pills] and [hours] are what [updateRateDisplay]
    parses from the two fields once [initInputField] has filled them;
    [success] and [data] are the reply to the 'get' request. *)
Definition initializeApp (pills hours : number) (success : bool)
    (data : list SheetEvent) (w : World) : Outcome :=
  and_then (updateRateDisplay pills hours w) (fun w =>
    let sheetEvents := getEventsFromSheet success data in
    let w :=
      if (0 <? List.length sheetEvents)%nat
      then set_eventsData (loadedEvents sheetEvents) w
      else w in
    and_then (updateStatisticsDisplay (eventsData w) w)
      (fun w => plotDosageGraph (eventsData w) w)).

(** The method [fetchFromSheet(action, params)] sends the request with. *)
Definition fetchMethod (action : string) : SheetApp.Method :=
  if string_dec action "get" then SheetApp.GET else SheetApp.POST.

(** The three requests the client sends. *)
Definition getRequest : SheetApp.Parameters :=
  {| SheetApp.action := Some "get"%string; SheetApp.date := None;
     SheetApp.floatValue := None |}.

Definition addRequest (date floatValue : string) : SheetApp.Parameters :=
  {| SheetApp.action := Some "add"%string; SheetApp.date := Some date;
     SheetApp.floatValue := Some floatValue |}.

Definition removeRequest (date : string) : SheetApp.Parameters :=
  {| SheetApp.action := Some "remove"%string; SheetApp.date := Some date;
     SheetApp.floatValue := None |}.

End Handlers.

(** ** The client: the two input fields and what is saved of them *)

Module Forms.
Import Client.
Local Open Scope string_scope.

(** [localStorage]: the item saved under each key, if there is one. *)
Definition Storage : Type := string -> option string.

Definition saveToLocalStorage (key value : string) (st : Storage) : Storage :=
  fun k => if String.eqb k key then Some value else st k.

Definition loadFromLocalStorage (key : string) (st : Storage) : option string :=
  st key.

Definition PILLS_KEY : string := "pills".
Definition HOUR_KEY : string := "hour".
(** [DEFAULT_PILLS.toString()] and [DEFAULT_HOUR.toString()]. *)
Definition DEFAULT_PILLS : string := "1".
Definition DEFAULT_HOUR : string := "8".

(** The two input fields, the storage and the rest of the page. *)
Record Form : Type := {
  pillsValue : string;
  hourValue : string;
  storage : Storage;
  page : World
}.

(** The two keys that name an input field. *)
Inductive InputKey : Type := Pills | Hour.

Definition keyOf (k : InputKey) : string :=
  match k with Pills => PILLS_KEY | Hour => HOUR_KEY end.

(** [$(key).value]. *)
Definition valueOf (k : InputKey) (f : Form) : string :=
  match k with Pills => pillsValue f | Hour => hourValue f end.

(** [$(key).value = v]. *)
Definition setValue (k : InputKey) (v : string) (f : Form) : Form :=
  match k with
  | Pills => {| pillsValue := v; hourValue := hourValue f;
                storage := storage f; page := page f |}
  | Hour => {| pillsValue := pillsValue f; hourValue := v;
               storage := storage f; page := page f |}
  end.

Definition set_storage (st : Storage) (f : Form) : Form :=
  {| pillsValue := pillsValue f; hourValue := hourValue f;
     storage := st; page := page f |}.

Definition set_page (w : World) (f : Form) : Form :=
  {| pillsValue := pillsValue f; hourValue := hourValue f;
     storage := storage f; page := w |}.

(** [initInputField(element, storageKey, defaultValue)] for the field of
    a key, the default already written out. *)
Definition initInputField (k : InputKey) (defaultValue : string) (f : Form) : Form :=
  let savedValue := loadFromLocalStorage (keyOf k) (storage f) in
  let f :=
    setValue k (match savedValue with Some v => v | None => defaultValue end) f in
  match savedValue with
  | None => set_storage (saveToLocalStorage (keyOf k) defaultValue (storage f)) f
  | Some _ => f
  end.

(** [updateRateDisplay()], reading the two fields. *)
Definition updateRateFromFields (f : Form) : Outcome :=
  updateRateDisplay (SheetApp.parseFloat (pillsValue f))
    (SheetApp.parseFloat (hourValue f)) (page f).

(** [handleInputChange(storageKey)] as the two listeners call it.  An
    exception of the refresh calls leaves the listener with what was
    written until then. *)
Definition handleInputChange (k : InputKey) (f : Form) : Form :=
  let f := set_storage (saveToLocalStorage (keyOf k) (valueOf k f) (storage f)) f in
  set_page (world_of (updateRateFromFields f)) f.

End Forms.

(** ** The total given, on binary64 numbers *)

(** Line 255 of [script.js] once more, with the amounts as the IEEE 754
    binary64 numbers JavaScript computes with, for the properties of the
    sum that depend on rounding. *)
Module Binary64.
Import Floats.
Local Open Scope float_scope.

(** An entry of [eventsData], its amount a binary64 number. *)
Record Event : Type := {
  dosageAmount : float;
  dosageTime : option Z
}.

(** [parseFloat] applied to a value that already is a number. *)
Definition parseFloat (x : float) : float := x.

(** Truthiness of a number: everything but NaN, 0 and -0. *)
Definition truthy (x : float) : bool := negb (is_nan x || is_zero x).

(** [x || y] on numbers. *)
Definition or_else (x y : float) : float := if truthy x then x else y.

(** [events.reduce((sum, e) => sum + (parseFloat(e.dosageAmount) || 0), 0)]. *)
Definition totalGiven (events : list Event) : float :=
  fold_left (fun sum e => sum + or_else (parseFloat (dosageAmount e)) 0)
    events 0.

(** An amount is parseable when [parseFloat] of it is not NaN. *)
Definition parseable (e : Event) : bool :=
  negb (is_nan (parseFloat (dosageAmount e))).

(** The sum of a list of numbers, added from the left starting at 0. *)
Definition sumInOrder (l : list float) : float := fold_left PrimFloat.add l 0.

(** Two numbers a JavaScript program reads as the same value: equal by
    [===] (which holds of 0 and -0), or both NaN. *)
Definition same (x y : float) : bool := (x =? y) || (is_nan x && is_nan y).

(** Two values of the IEEE specification that are the same number: equal,
    or two zeros. *)
Definition alike (a b : spec_float) : Prop :=
  a = b \/ exists s s', a = S754_zero s /\ b = S754_zero s'.

(** The doubles nearest to 0.1, 0.2 and 0.3. *)
Definition tenth : float := 0x1.999999999999ap-4.
Definition fifth : float := 0x1.999999999999ap-3.
Definition threeTenths : float := 0x1.3333333333333p-2.

(** An entry of the given amount. *)
Definition amount (x : float) : Event :=
  {| dosageAmount := x; dosageTime := None |}.

End Binary64.

(** ** Vocabulary of the properties *)

Module Terms.
Import Client.

(** The instant [z] milliseconds after the epoch. *)
Definition at_ms (z : Z) : DateTime := fromISO (Some z).

(** A dose of the timeline: its instant is a whole number of milliseconds
    and its amount is a number that is not below zero. *)
Definition wellFormed (e : PlotEvent) : Prop :=
  (exists t : Z, eventTimeDT e = at_ms t)
  /\ Num.isNaN (parsedAmount e) = false
  /\ Num.lt (parsedAmount e) Num.zero = false.

(** One dose is not after another. *)
Definition notAfter (a b : PlotEvent) : Prop :=
  Num.le (toMillis (eventTimeDT a)) (toMillis (eventTimeDT b)) = true.

(** What one event adds to the total: [parseFloat(e.dosageAmount) || 0]. *)
Definition contribution (e : Event) : number :=
  Num.or_else (parseFloat (dosageAmount e)) Num.zero.

(** An amount is parseable when [parseFloat] of it is not NaN. *)
Definition parseable (e : Event) : bool :=
  negb (Num.isNaN (parseFloat (dosageAmount e))).

(** The ideal intake the curve uses at instant [t]:
    [currentRate * calculateHoursBetween(projectedStartTimeDT, t)]. *)
Definition idealTotalIntake (rate : number) (projectedStartTimeDT t : DateTime)
    : number :=
  Num.mul rate (calculateHoursBetween projectedStartTimeDT t).

(** The ideal intake as the specification words it, anchored at the first
    event: [rate * hoursBetween(t0, t)]. *)
Definition spec_idealCumulative (rate : number) (t0 t : Z) : number :=
  Num.mul rate (calculateHoursBetween (fromISO (Some t0)) (fromISO (Some t))).

(** The amount taken through a list of doses, summed as the loop does. *)
Definition takenThrough (l : list PlotEvent) : number :=
  fold_left (fun taken e => Num.add taken (parsedAmount e)) l Num.zero.

(** The curve as a list of vertices (time, need). *)
Definition vertices (d : PlotData) : list (DateTime * number) :=
  combine (labels d) (neededDataPoints d).

(** The state of the loop after a dose was recorded: the two arrays have
    one length and end with the instant of that dose and the need at it. *)
Definition settled (rate : number) (projectedStartTimeDT : DateTime)
    (st : Walk) : Prop :=
  List.length (wk_labels st) = List.length (wk_points st)
  /\ exists l,
       last_elt (wk_labels st) = Some l
       /\ last_elt (wk_points st) =
            Some (Num.sub (idealTotalIntake rate projectedStartTimeDT l)
                    (cumulativeDosageTaken st)).

(** The loop of [calculatePlotData] over a list of doses. *)
Definition walk (rate : number) (projectedStartTimeDT : DateTime)
    (l : list PlotEvent) (st : Walk) : Walk :=
  fold_left (plotStep rate projectedStartTimeDT) l st.

(** A vertex of the curve on the ideal line that starts at
    [projectedStartTimeDT]: it is drawn at the instant [t] of a dose of the
    timeline or of the current time, or one millisecond before it, and its
    need is the ideal intake at [t] less what the first [k] doses of the
    timeline add up to. *)
Definition onIdealLine (rate : number) (projectedStartTimeDT nowDT : DateTime)
    (timeline : list PlotEvent) (v : DateTime * number) : Prop :=
  exists (t : DateTime) (k : nat),
    (t = nowDT \/ exists e, In e timeline /\ t = eventTimeDT e)
    /\ (fst v = t \/ fst v = minus_millis t 1)
    /\ snd v =
       Num.sub (idealTotalIntake rate projectedStartTimeDT t)
         (takenThrough (firstn k timeline)).

(** Successive instants never go back. *)
Fixpoint chronological (l : list DateTime) : bool :=
  match l with
  | a :: (b :: _) as rest => Num.le (toMillis a) (toMillis b) && chronological rest
  | _ => true
  end.

(** The state of the loop while the labels start with [start] and
    [second], and from [second] on are in order and end at the whole
    millisecond [t]. *)
Definition inOrderFrom (start second : DateTime) (st : Walk) (t : Z) : Prop :=
  exists more,
    wk_labels st = start :: second :: more
    /\ chronological (second :: more) = true
    /\ last_elt (second :: more) = Some (at_ms t).

Definition text_eqb (t t' : Text) : bool :=
  match t, t' with
  | NA, NA => true
  | Fixed x d, Fixed y d' | FixedHrs x d, FixedHrs y d' =>
      Num.eqb x y && (d =? d')%nat
  | Formatted a, Formatted b => Luxon.eqb a b
  | Literal a, Literal b => String.eqb a b
  | _, _ => false
  end.

Definition plotData_eqb (d d' : PlotData) : bool :=
  (List.length (labels d) =? List.length (labels d'))%nat
  && forallb (fun p => Luxon.eqb (fst p) (snd p)) (combine (labels d) (labels d'))
  && (List.length (neededDataPoints d) =? List.length (neededDataPoints d'))%nat
  && forallb (fun p => Num.eqb (fst p) (snd p))
       (combine (neededDataPoints d) (neededDataPoints d')).

(** The instant of an entry of [eventsData] in milliseconds, NaN when its
    time does not parse. *)
Definition timeOf (e : Event) : number := toMillis (fromISO (dosageTime e)).

(** An entry whose time parses. *)
Definition timed (e : Event) : Prop := exists t : Z, dosageTime e = Some t.

(** One entry is not later than another. *)
Definition notLater (a b : Event) : Prop := Num.le (timeOf a) (timeOf b) = true.

(** The list of entries as the handlers keep it: every time parses and the
    entries are in ascending order of time. *)
Definition inTimeOrder (l : list Event) : Prop :=
  Forall timed l /\ StronglySorted notLater l.

(** A string without a whitespace character. *)
Fixpoint noWhiteSpace (s : string) : bool :=
  match s with
  | String c s' => negb (SheetApp.isWhiteSpace c) && noWhiteSpace s'
  | EmptyString => true
  end.

(** A date and an amount, both given as text, that the add handler lets
    through: the date matches one of the two patterns and the amount
    parses to a number. *)
Definition acceptable (dateStr floatValueStr : string) : bool :=
  (SheetApp.isoDateTimeRegex dateStr || SheetApp.isoDateOnlyRegex dateStr)
  && negb (Num.isNaN (SheetApp.parseFloat floatValueStr)).

(** A sheet without a blank row below its last row with content. *)
Definition compact (sheet : SheetApp.Sheet) : Prop :=
  SheetApp.getLastRow sheet = List.length sheet.

(** An entry recorded at the instant [t]. *)
Definition atInstant (t : Z) (e : Event) : bool :=
  Num.strict_eq (timeOf e) (toMillis (at_ms t)).

(** An entry that passes the checks of [calculatePlotData]. *)
Definition passes (w : World) (e : Event) : bool :=
  match checkEvent w e with Some _ => true | None => false end.

(** An entry as a dose of the curve, when it passes the checks. *)
Definition asDose (e : Event) : PlotEvent :=
  {| eventTimeDT := fromISO (dosageTime e); parsedAmount := dosageAmount e |}.

End Terms.

(** ** Worlds used in examples *)

Module Examples.
Import Client.
Local Open Scope Qc_scope.

(** A page with nothing loaded: no events, rate 0, every statistic 'N/A'. *)
Definition freshPage (now : Z) : World :=
  {| currentRate := Num.zero; eventsData := []; stats := allNA;
     chart := EmptyCanvas; rateText := NA; storedRate := Num.zero;
     clock := now; zoneValid := true |}.

(** The page at instant [now] with a rate and a list of events in place. *)
Definition page (rate : number) (events : list Event) (now : Z) : World :=
  set_eventsData events (set_currentRate rate (freshPage now)).

Definition dose (amount : Z) (atMillis : Z) : Event :=
  {| dosageAmount := Num.of_Z amount; dosageTime := Some atMillis |}.

Definition hour : Z := 3600000.


(** Two half units taken at the same instant, at one unit per hour, read
    two hours later. *)
Definition halves : list Event :=
  [{| dosageAmount := half_unit; dosageTime := Some 0%Z |};
   {| dosageAmount := half_unit; dosageTime := Some 0%Z |}].
Definition halvesPage : World := page (Num.of_Z 1) halves (2 * hour).

(** One unit every eight hours, the default configuration. *)
Definition oneEveryEight : number := Num.div (Num.of_Z 1) (Num.of_Z 8).

(** The page after one unit was recorded at instant 0 and the statistics
    were refreshed sixteen hours later, at one unit per eight hours. *)
Definition afterOneDose : World :=
  world_of
    (updateStatisticsDisplay [dose 1 0]
       (page oneEveryEight [dose 1 0] (16 * hour))).

(** The same page once that only entry has been removed again. *)
Definition afterRemoval : World :=
  removeDosageEntryHandler true (Some (Some 0%Z))
    {| success := true; removed := true |} afterOneDose.

(** A sheet with four entries on two dates, each date entered twice. *)
Definition mayFirst : string := "2024-05-01T10:00:00.000-04:00".
Definition maySecond : string := "2024-05-02T10:00:00.000-04:00".

Definition entry (date : string) (amount : Z) : SheetApp.Row :=
  (SheetApp.VString date, SheetApp.VNumber (Num.of_Z amount)).

Definition fourEntries : list SheetApp.Row :=
  [entry mayFirst 1; entry maySecond 2; entry mayFirst 3; entry maySecond 4].

(** The amount of a request for one and a half units. *)
Definition oneAndHalf : string := "1.5".

(** A reply of the sheet with three entries: one unit an hour after
    instant 0, an entry whose date does not parse, and an entry at instant
    0 whose amount cell was blank. *)
Definition threeSent : list Handlers.SheetEvent :=
  [{| Handlers.date := Some hour; Handlers.value := Handlers.Number (Num.of_Z 1) |};
   {| Handlers.date := None; Handlers.value := Handlers.Number (Num.of_Z 2) |};
   {| Handlers.date := Some 0%Z; Handlers.value := Handlers.Null |}].

(** One unit at instant 0 and one unit an hour later, at one unit per
    eight hours, read sixteen hours after instant 0. *)
Definition twoDoses : list Event := [dose 1 0; dose 1 hour].
Definition twoDosesPage : World := page oneEveryEight twoDoses (16 * hour).

(** One unit at instant 0 at one unit per eight hours, read sixteen hours
    later, and the curve computed for it. *)
Definition oneDosePage : World := page oneEveryEight [dose 1 0] (16 * hour).
Definition oneDoseCurve : PlotData :=
  {| labels :=
       [fromISO (Some (-8 * hour)%Z); fromISO (Some (-1)%Z);
        fromISO (Some (-1)%Z); fromISO (Some 0%Z); fromISO (Some (16 * hour)%Z)];
     neededDataPoints :=
       [Num.of_Z 0; Num.of_Z 1; Num.of_Z 1; Num.of_Z 0; Num.of_Z 2] |}.

End Examples.

(** * Properties *)

(** ** Exact rationals: transfer between [Qc] and [Q] *)

Module QcFacts.
Local Open Scope Qc_scope.

Lemma this_plus (x y : Qc) : (this (x + y) == this x + this y)%Q.
Proof. unfold Qcplus, Q2Qc, this. apply Qred_correct. Qed.

Lemma this_opp (x : Qc) : (this (- x) == - this x)%Q.
Proof. unfold Qcopp, Q2Qc, this. apply Qred_correct. Qed.

Lemma this_minus (x y : Qc) : (this (x - y) == this x - this y)%Q.
Proof. unfold Qcminus. rewrite this_plus, this_opp. reflexivity. Qed.

Lemma this_mult (x y : Qc) : (this (x * y) == this x * this y)%Q.
Proof. unfold Qcmult, Q2Qc, this. apply Qred_correct. Qed.

Lemma this_Q2Qc (q : Q) : (this (Q2Qc q) == q)%Q.
Proof. unfold Q2Qc, this. apply Qred_correct. Qed.

Lemma this_inv (x : Qc) : (this (/ x) == / this x)%Q.
Proof. unfold Qcinv, Q2Qc, this. apply Qred_correct. Qed.

Lemma this_div (x y : Qc) : (this (x / y) == this x / this y)%Q.
Proof. unfold Qcdiv. rewrite this_mult, this_inv. reflexivity. Qed.

Lemma div_nonneg (p h : Qc) : 0 <= p -> 0 < h -> 0 <= p / h.
Proof.
  unfold Qcle, Qclt. intros Hp Hh. rewrite this_div.
  apply Qmult_le_0_compat; [exact Hp |].
  apply Qlt_le_weak, Qinv_lt_0_compat. exact Hh.
Qed.

Lemma compare_lt (x y : Qc) : (x ?= y) = Lt <-> x < y.
Proof. unfold Qccompare, Qclt. symmetry. apply Qlt_alt. Qed.

Lemma compare_gt (x y : Qc) : (x ?= y) = Gt <-> y < x.
Proof. unfold Qccompare, Qclt. symmetry. apply Qgt_alt. Qed.

Lemma compare_eq (x y : Qc) : (x ?= y) = Eq <-> x = y.
Proof.
  unfold Qccompare. rewrite <- Qeq_alt. split.
  - apply Qc_is_canon.
  - intros ->. reflexivity.
Qed.

End QcFacts.

(** ** Arithmetic of [number] *)

Module NumFacts.
Local Open Scope Qc_scope.

Lemma number_eqb_eq (x y : number) : Num.eqb x y = true -> x = y.
Proof.
  destruct x, y; simpl; try discriminate; try reflexivity.
  intros H. f_equal. now apply Qc_eq_bool_correct.
Qed.

(** [x || 0] replaces NaN by 0 and changes no other value. *)
Lemma or_else_zero (x : number) :
  Num.or_else x Num.zero = if Num.isNaN x then Num.zero else x.
Proof.
  destruct x; try reflexivity.
  unfold Num.or_else, Num.truthy, Num.sgn. simpl.
  destruct (q ?= 0) eqn:E; try reflexivity.
  apply QcFacts.compare_eq in E. subst. reflexivity.
Qed.


End NumFacts.

Module LuxonFacts.

Lemma datetime_eqb_eq (a b : DateTime) : Luxon.eqb a b = true -> a = b.
Proof.
  destruct a, b; simpl; try discriminate; try reflexivity.
  intros H. f_equal. now apply Qc_eq_bool_correct.
Qed.

End LuxonFacts.

(** ** Deciding that two curves are equal *)

Module PlotFacts.
Import Client Terms.

Lemma forallb_combine_eq (A : Type) (eqb : A -> A -> bool) (l l' : list A) :
  (forall a b, eqb a b = true -> a = b) ->
  (List.length l =? List.length l')%nat = true ->
  forallb (fun p => eqb (fst p) (snd p)) (combine l l') = true ->
  l = l'.
Proof.
  intros Hsound. revert l'.
  induction l as [| a l IH]; intros [| b l'] HL Hall;
    simpl in *; try discriminate; [reflexivity |].
  apply andb_true_iff in Hall. destruct Hall as [Hab Hall].
  f_equal; [now apply Hsound | now apply IH].
Qed.

Lemma plotData_eqb_eq (d d' : PlotData) : plotData_eqb d d' = true -> d = d'.
Proof.
  unfold plotData_eqb. intros H.
  repeat (apply andb_true_iff in H; destruct H as [H ?]).
  destruct d as [l p], d' as [l' p']. simpl in *. f_equal.
  - apply (forallb_combine_eq Luxon.eqb); auto using LuxonFacts.datetime_eqb_eq.
  - apply (forallb_combine_eq Num.eqb); auto using NumFacts.number_eqb_eq.
Qed.

(** [calculatePlotData] on a timeline that is not empty and whose projected
    start can be computed: the walk over the doses, then the point at the
    current time. *)
Lemma calculatePlotData_unfold (events : list Event) (w : World)
    (first : PlotEvent) (rest : list PlotEvent) (P : DateTime) :
  sortedEvents w events = first :: rest ->
  projectedStart (currentRate w) first = Ret P ->
  zoneValid w = true ->
  calculatePlotData events w =
  Ret (plotNow (currentRate w) P (at_ms (clock w))
         (walk (currentRate w) P (first :: rest)
            (plotStart (currentRate w) P (eventTimeDT first)))).
Proof.
  intros Hs Hp Hz. unfold calculatePlotData. rewrite Hs. cbv zeta.
  rewrite Hp. simpl bind. unfold getLocalNow, setZone. rewrite Hz.
  reflexivity.
Qed.

Lemma text_eqb_eq (t t' : Text) : text_eqb t t' = true -> t = t'.
Proof.
  destruct t, t'; simpl; try discriminate; try reflexivity; intros H.
  - apply andb_true_iff in H. destruct H as [Hx Hd].
    apply NumFacts.number_eqb_eq in Hx. apply Nat.eqb_eq in Hd. now subst.
  - apply andb_true_iff in H. destruct H as [Hx Hd].
    apply NumFacts.number_eqb_eq in Hx. apply Nat.eqb_eq in Hd. now subst.
  - apply LuxonFacts.datetime_eqb_eq in H. now subst.
  - apply String.eqb_eq in H. now subst.
Qed.

(** A computed curve is the one written out. *)
Lemma plot_is (r : result PlotData) (d : PlotData) :
  match r with Ret d' => plotData_eqb d' d | Throw => false end = true ->
  r = Ret d.
Proof.
  destruct r as [d' |]; [| discriminate].
  intros H. f_equal. now apply plotData_eqb_eq.
Qed.

End PlotFacts.

(** ** What the refresh calls leave alone *)

Module Frame.
Import Client.

Lemma stats_rate (events : list Event) (w : World) :
  currentRate (world_of (updateStatisticsDisplay events w)) = currentRate w.
Proof.
  unfold updateStatisticsDisplay.
  repeat match goal with
  | |- context [if ?b then _ else _] => destruct b
  | |- context [match ?x with _ => _ end] => destruct x
  end; reflexivity.
Qed.

Lemma stats_events (events : list Event) (w : World) :
  eventsData (world_of (updateStatisticsDisplay events w)) = eventsData w.
Proof.
  unfold updateStatisticsDisplay.
  repeat match goal with
  | |- context [if ?b then _ else _] => destruct b
  | |- context [match ?x with _ => _ end] => destruct x
  end; reflexivity.
Qed.

Lemma plot_rate (events : list Event) (w : World) :
  currentRate (world_of (plotDosageGraph events w)) = currentRate w.
Proof.
  unfold plotDosageGraph.
  repeat match goal with
  | |- context [if ?b then _ else _] => destruct b
  | |- context [match ?x with _ => _ end] => destruct x
  end; reflexivity.
Qed.

Lemma plot_events (events : list Event) (w : World) :
  eventsData (world_of (plotDosageGraph events w)) = eventsData w.
Proof.
  unfold plotDosageGraph.
  repeat match goal with
  | |- context [if ?b then _ else _] => destruct b
  | |- context [match ?x with _ => _ end] => destruct x
  end; reflexivity.
Qed.

(** Refreshing the statistics and then the chart changes neither the rate
    nor the event list, whether or not one of the two throws. *)
Lemma refresh_rate (w : World) :
  currentRate
    (world_of (and_then (updateStatisticsDisplay (eventsData w) w)
                 (fun w => plotDosageGraph (eventsData w) w)))
  = currentRate w.
Proof.
  pose proof (stats_rate (eventsData w) w) as H.
  destruct (updateStatisticsDisplay (eventsData w) w) as [w1 | w1]; simpl in *.
  - rewrite plot_rate. exact H.
  - exact H.
Qed.

Lemma refresh_events (w : World) :
  eventsData
    (world_of (and_then (updateStatisticsDisplay (eventsData w) w)
                 (fun w => plotDosageGraph (eventsData w) w)))
  = eventsData w.
Proof.
  pose proof (stats_events (eventsData w) w) as H.
  destruct (updateStatisticsDisplay (eventsData w) w) as [w1 | w1]; simpl in *.
  - rewrite plot_events. exact H.
  - exact H.
Qed.

End Frame.

(** ** The rate (C6) *)

Module Rate.
Import Client Examples.
Local Open Scope Qc_scope.

(** The rate [updateRateDisplay] leaves in [currentRate]. *)
Lemma rate_after (pills hours : number) (w : World) :
  currentRate (world_of (updateRateDisplay pills hours w)) =
  if negb (Num.isNaN pills) && negb (Num.isNaN hours)
     && negb (Num.strict_eq hours Num.zero)
  then Num.div pills hours
  else Num.zero.
Proof.
  unfold updateRateDisplay.
  destruct (negb (Num.isNaN pills) && negb (Num.isNaN hours)
            && negb (Num.strict_eq hours Num.zero));
    cbv zeta;
    (destruct (_ || _); [rewrite Frame.refresh_rate |]; reflexivity).
Qed.

(** A quotient of a finite non-negative value by a finite positive one is
    finite and not below zero. *)
Lemma quotient_not_negative (p h : Qc) :
  0 <= p -> 0 < h -> Num.le Num.zero (Num.div (Fin p) (Fin h)) = true.
Proof.
  intros Hp Hh. unfold Num.div, Num.sgn.
  destruct (h ?= 0) eqn:E.
  - apply QcFacts.compare_eq in E. subst. exfalso. unfold Qclt in Hh. lra.
  - apply -> QcFacts.compare_lt in E. exfalso. unfold Qclt in *. lra.
  - unfold Num.le, Num.zero, Num.cmp.
    pose proof (QcFacts.div_nonneg Hp Hh) as H.
    destruct (0 ?= p / h) eqn:E'; try reflexivity.
    apply -> QcFacts.compare_gt in E'. exfalso.
    unfold Qcle, Qclt in *. lra.
Qed.

(** C6, the claim as stated, fails: with -1 pill every 2 hours the rate
    left behind is below zero. *)
Lemma C6_negative_rate_counterexample :
  Num.lt
    (currentRate
       (world_of (updateRateDisplay (Num.of_Z (-1)) (Num.of_Z 2) (freshPage 0))))
    Num.zero = true.
Proof. rewrite rate_after. vm_compute. reflexivity. Qed.

(** C6, amended: after every recomputation the rate is 0 when either input
    is NaN (absent or non-numeric) or the hours are 0, and is pills / hours
    otherwise; it is not below zero when the pills are a finite value that
    is at least 0 and the hours a finite value above 0.  No sign is
    checked: the rate of a negative input is negative. *)
Theorem C6_rate_after_recomputation (pills hours : number) (w : World) :
  let rate := currentRate (world_of (updateRateDisplay pills hours w)) in
  (Num.isNaN pills || Num.isNaN hours || Num.strict_eq hours Num.zero = true ->
   rate = Num.zero) /\
  (Num.isNaN pills || Num.isNaN hours || Num.strict_eq hours Num.zero = false ->
   rate = Num.div pills hours) /\
  (forall p h : Qc, pills = Fin p -> hours = Fin h -> 0 <= p -> 0 < h ->
   rate = Fin (p / h) /\ Num.le Num.zero rate = true).
Proof.
  cbv zeta. rewrite rate_after. repeat split.
  - intros H. destruct (Num.isNaN pills), (Num.isNaN hours),
      (Num.strict_eq hours Num.zero); simpl in *; congruence.
  - intros H. destruct (Num.isNaN pills), (Num.isNaN hours),
      (Num.strict_eq hours Num.zero); simpl in *; congruence.
  - subst. simpl. unfold Num.strict_eq, Num.cmp, Num.zero.
    destruct (h ?= 0) eqn:E.
    + apply QcFacts.compare_eq in E. subst. exfalso. unfold Qclt in *. lra.
    + apply -> QcFacts.compare_lt in E. exfalso. unfold Qclt in *. lra.
    + simpl. unfold Num.sgn. rewrite E. reflexivity.
  - subst. simpl. unfold Num.strict_eq, Num.cmp, Num.zero.
    destruct (h ?= 0) eqn:E.
    + apply QcFacts.compare_eq in E. subst. exfalso. unfold Qclt in *. lra.
    + apply -> QcFacts.compare_lt in E. exfalso. unfold Qclt in *. lra.
    + simpl. apply quotient_not_negative; assumption.
Qed.

(** The amended C6 at one pill every eight hours. *)
Lemma C6_rate_after_recomputation_witness :
  let rate :=
    currentRate
      (world_of (updateRateDisplay (Num.of_Z 1) (Num.of_Z 8) (freshPage 0))) in
  rate = Fin (Q2Qc (inject_Z 1) / Q2Qc (inject_Z 8))
  /\ Num.le Num.zero rate = true.
Proof.
  apply (C6_rate_after_recomputation (Num.of_Z 1) (Num.of_Z 8) (freshPage 0)).
  - reflexivity.
  - reflexivity.
  - vm_compute. discriminate.
  - vm_compute. reflexivity.
Defined.

End Rate.

(** ** The total given (C5) *)

Module Given.
Import Client Terms.

(** What an entry adds to the total of the statistics: its amount, or 0
    when the amount is NaN. *)
Lemma contribution_parseable (e : Event) :
  contribution e = if parseable e then dosageAmount e else Num.zero.
Proof.
  unfold contribution, parseable, parseFloat.
  rewrite NumFacts.or_else_zero. destruct (Num.isNaN _); reflexivity.
Qed.

End Given.

Module Conservation.
Import Floats Binary64.
Local Open Scope float_scope.

Ltac settle := solve [left; reflexivity | right; eauto].

Lemma alike_refl (a : spec_float) : alike a a.
Proof. now left. Qed.

Lemma alike_sym (a b : spec_float) : alike a b -> alike b a.
Proof. intros [Hab | (s & s' & Ha & Hb)]; subst; settle. Qed.

Lemma alike_trans (a b c : spec_float) : alike a b -> alike b c -> alike a c.
Proof.
  intros [Hab | (s & s' & Ha & Hb)] [Hbc | (t & t' & Hb' & Hc)]; subst;
    settle.
Qed.

(** Addition does not tell two zeros apart, up to the zero it returns. *)
Lemma SFadd_alike (a a' c c' : spec_float) :
  alike a a' -> alike c c' -> alike (SF64add a c) (SF64add a' c').
Proof.
  intros [Ha | (s & s' & Ha & Ha')] [Hc | (t & t' & Hc & Hc')]; subst.
  - now left.
  - destruct a' as [[|] | | |]; destruct t, t'; cbn; settle.
  - destruct c' as [[|] | | |]; destruct s, s'; cbn; settle.
  - destruct s, s', t, t'; cbn; settle.
Qed.

Lemma SFeqb_alike (a b : spec_float) : SFeqb a b = true -> alike a b.
Proof.
  unfold SFeqb.
  destruct a as [[|] | [|] | | [|] m e], b as [[|] | [|] | | [|] m' e']; cbn;
    try discriminate; intros H; try settle;
    destruct (Z.compare e e') eqn:E; try discriminate;
    apply Z.compare_eq in E;
    change (PosDef.Pos.compare_cont Eq m m') with (Pos.compare m m') in H;
    destruct (Pos.compare m m') eqn:E'; try discriminate;
    apply Pos.compare_eq in E'; subst; now left.
Qed.

Lemma alike_SFeqb (a b : spec_float) :
  alike a b -> a <> S754_nan -> SFeqb a b = true.
Proof.
  unfold SFeqb. intros [Hab | (s & s' & Ha & Hb)] Hn; subst.
  - destruct b as [[|] | [|] | | [|] m e]; cbn; try reflexivity;
      try congruence;
      rewrite Z.compare_refl;
      change (PosDef.Pos.compare_cont Eq m m) with (Pos.compare m m);
      rewrite Pos.compare_refl; reflexivity.
  - reflexivity.
Qed.

Lemma is_nan_spec (x : float) : is_nan x = true <-> Prim2SF x = S754_nan.
Proof.
  unfold is_nan. rewrite eqb_spec. split.
  - intros H. destruct (Prim2SF x) eqn:E; try reflexivity.
    all: rewrite alike_SFeqb in H; try discriminate; try apply alike_refl;
      discriminate.
  - intros ->. reflexivity.
Qed.

Lemma is_zero_spec (x : float) :
  is_zero x = true -> exists s, Prim2SF x = S754_zero s.
Proof.
  unfold is_zero. rewrite eqb_spec. intros H. apply SFeqb_alike in H.
  assert (E : Prim2SF zero = S754_zero false) by reflexivity.
  rewrite E in H. destruct H as [H | (s & s' & H & _)]; eauto.
Qed.

(** Two numbers are the same value exactly when their IEEE values are
    equal or both zero. *)
Lemma same_alike (x y : float) :
  same x y = true <-> alike (Prim2SF x) (Prim2SF y).
Proof.
  unfold same. split.
  - intros H. apply orb_true_iff in H. destruct H as [H | H].
    + rewrite eqb_spec in H. now apply SFeqb_alike.
    + apply andb_true_iff in H. destruct H as [Hx Hy].
      apply is_nan_spec in Hx. apply is_nan_spec in Hy. left. congruence.
  - intros H. destruct (is_nan x) eqn:Ex.
    + apply is_nan_spec in Ex. rewrite Ex in H.
      destruct H as [H | (s & s' & H & _)]; [| discriminate].
      assert (Ey : is_nan y = true) by (apply is_nan_spec; congruence).
      rewrite Ey. cbn. apply orb_true_r.
    + rewrite eqb_spec, alike_SFeqb; [reflexivity | exact H |].
      intros E. apply is_nan_spec in E. congruence.
Qed.

Lemma same_refl (x : float) : same x x = true.
Proof. apply same_alike, alike_refl. Qed.

Lemma same_sym (x y : float) : same x y = true -> same y x = true.
Proof. rewrite !same_alike. apply alike_sym. Qed.

Lemma same_trans (x y z : float) :
  same x y = true -> same y z = true -> same x z = true.
Proof. rewrite !same_alike. apply alike_trans. Qed.

Lemma add_same (x x' y y' : float) :
  same x x' = true -> same y y' = true -> same (x + y) (x' + y') = true.
Proof. rewrite !same_alike, !add_spec. apply SFadd_alike. Qed.

(** Adding 0 changes no value. *)
Lemma add_zero_same (x : float) : same (x + 0) x = true.
Proof.
  apply same_alike. rewrite add_spec.
  change (Prim2SF 0) with (S754_zero false).
  destruct (Prim2SF x) as [[|] | | |]; cbn; settle.
Qed.

(** [x || 0] is [x] unless [x] is NaN, and 0 when it is. *)
Lemma or_else_same (x : float) :
  is_nan x = false -> same (or_else x 0) x = true.
Proof.
  intros Hn. unfold or_else, truthy. rewrite Hn. cbn [orb].
  destruct (is_zero x) eqn:Ez; cbn [negb]; [| apply same_refl].
  apply is_zero_spec in Ez. destruct Ez as (s & Ez).
  apply same_alike. rewrite Ez. right. exists false, s. split; reflexivity.
Qed.

Lemma or_else_nan (x : float) : is_nan x = true -> or_else x 0 = 0.
Proof. intros Hn. unfold or_else, truthy. now rewrite Hn. Qed.

(** The reduce, started from any sum: an entry without a numeric amount
    leaves the sum as it is, every other entry adds its amount. *)
Lemma total_from (events : list Event) (acc acc' : float) :
  same acc acc' = true ->
  same (fold_left (fun sum e => sum + or_else (parseFloat (dosageAmount e)) 0)
          events acc)
       (fold_left PrimFloat.add (map dosageAmount (filter parseable events)) acc')
  = true.
Proof.
  revert acc acc'. induction events as [| e events IH]; intros acc acc' H.
  - exact H.
  - cbn [fold_left filter].
    assert (Hp : parseable e = negb (is_nan (dosageAmount e))) by reflexivity.
    change (parseFloat (dosageAmount e)) with (dosageAmount e).
    destruct (is_nan (dosageAmount e)) eqn:En; rewrite Hp;
      cbn [negb map fold_left].
    + apply IH. rewrite (or_else_nan _ En).
      apply same_trans with acc; [apply add_zero_same | exact H].
    + apply IH. apply add_same; [exact H |]. now apply or_else_same.
Qed.

(** C5, the claim as stated, fails: the total depends on the order of the
    entries.  The amounts 0.1, 0.2 and 0.3 add up to 0.6000000000000001,
    and in the reverse order to 0.6, for every partial sum is rounded to
    the nearest binary64 number. *)
Lemma C5_order_counterexample :
  let forward := [amount tenth; amount fifth; amount threeTenths] in
  let backward := [amount threeTenths; amount fifth; amount tenth] in
  Permutation forward backward
  /\ totalGiven forward = 0x1.3333333333334p-1
  /\ totalGiven backward = 0x1.3333333333333p-1
  /\ (totalGiven forward =? totalGiven backward) = false.
Proof.
  cbv zeta. split; [| split; [| split]].
  - apply (Permutation_rev [_; _; _]).
  - vm_compute. reflexivity.
  - vm_compute. reflexivity.
  - vm_compute. reflexivity.
Qed.

(** C5, amended.  The total given is the sum of the parseable amounts
    added in the order of the list, from the left and starting at 0, every
    partial sum rounded as binary64 addition rounds it; an amount that is
    NaN adds 0.  So two lists whose parseable amounts are the same
    sequence have the same total, wherever the entries without a numeric
    amount stand in them. *)
Theorem C5_total_given_in_list_order (events : list Event) :
  same (totalGiven events)
       (sumInOrder (map dosageAmount (filter parseable events))) = true
  /\ forall events' : list Event,
       map dosageAmount (filter parseable events') =
       map dosageAmount (filter parseable events) ->
       same (totalGiven events') (totalGiven events) = true.
Proof.
  split.
  - apply total_from, same_refl.
  - intros events' H.
    apply same_trans
      with (sumInOrder (map dosageAmount (filter parseable events'))).
    + apply total_from, same_refl.
    + rewrite H. apply same_sym, total_from, same_refl.
Qed.

End Conservation.

(** ** No events (C3) *)

Module EmptyTimeline.
Import Client Examples.
Local Open Scope Qc_scope.

(** With no events and a rate that is not 0, [updateStatisticsDisplay]
    returns at its check of the first event and writes nothing. *)
Lemma stale_when_rate_set (w : World) :
  Num.strict_eq (currentRate w) Num.zero = false ->
  updateStatisticsDisplay [] w = Done w.
Proof. intros H. unfold updateStatisticsDisplay. simpl. now rewrite H. Qed.

(** C3, the claim as stated, fails: with a rate above 0 and the only event
    removed, the refresh of the statistics returns without writing, and the
    page keeps the number it showed before (2.0 needed) instead of 'N/A'. *)
Lemma C3_stale_statistics_counterexample :
  eventsData afterRemoval = []
  /\ updateStatisticsDisplay [] afterRemoval = Done afterRemoval
  /\ el_needed (stats afterRemoval) = Fixed (Num.of_Z 2) 1.
Proof.
  split; [| split].
  - vm_compute. reflexivity.
  - apply stale_when_rate_set. vm_compute. reflexivity.
  - apply PlotFacts.text_eqb_eq. vm_compute. reflexivity.
Qed.

(** C3, amended: for every rate and every instant, the curve computed from
    an empty event list is empty; and when the rate is 0 every statistic
    is set to 'N/A'. *)
Theorem C3_empty_timeline (w : World) :
  calculatePlotData [] w = Ret {| labels := []; neededDataPoints := [] |}
  /\ (Num.strict_eq (currentRate w) Num.zero = true ->
      updateStatisticsDisplay [] w = Done (set_stats allNA w)).
Proof.
  split.
  - reflexivity.
  - intros H. unfold updateStatisticsDisplay. simpl. rewrite H. reflexivity.
Qed.

(** The amended C3 on a page whose rate is 0. *)
Lemma C3_empty_timeline_witness :
  calculatePlotData [] (freshPage 0) =
    Ret {| labels := []; neededDataPoints := [] |}
  /\ updateStatisticsDisplay [] (freshPage 0) =
       Done (set_stats allNA (freshPage 0)).
Proof.
  destruct (C3_empty_timeline (freshPage 0)) as [Hc Hs].
  split; [exact Hc |]. apply Hs. reflexivity.
Defined.

End EmptyTimeline.

(** ** Arrays *)

Module ArrayFacts.
Section Lists.
Variable A : Type.
Implicit Types (l : list A) (x y : A).

Lemma last_elt_push l x : last_elt (push l x) = Some x.
Proof.
  unfold push. induction l as [| a l IH]; simpl; [reflexivity |].
  destruct (l ++ [x]) eqn:E; [destruct l; discriminate | exact IH].
Qed.

Lemma length_push l x : List.length (push l x) = S (List.length l).
Proof. unfold push. rewrite length_app. simpl. lia. Qed.

Lemma last_elt_split l x : last_elt l = Some x -> l = removelast l ++ [x].
Proof.
  induction l as [| a l IH]; simpl; [discriminate |].
  destruct l as [| b l]; intros H.
  - now inversion H.
  - simpl in *. f_equal. now apply IH.
Qed.

Lemma last_elt_none l : last_elt l = None -> l = [].
Proof.
  induction l as [| a l IH]; simpl; [reflexivity |].
  destruct l as [| b l]; [discriminate |].
  intros H. apply IH in H. discriminate.
Qed.

(** Writing the last element over itself changes nothing. *)
Lemma set_last_same l x : last_elt l = Some x -> set_last l x = l.
Proof.
  intros H. unfold set_last. destruct l; [reflexivity |].
  symmetry. now apply last_elt_split.
Qed.

Lemma set_last_push l x y : set_last (push l x) y = push l y.
Proof.
  unfold set_last, push. destruct (l ++ [x]) eqn:E.
  - destruct l; discriminate.
  - rewrite <- E. now rewrite removelast_last.
Qed.

Lemma length_set_last l x : List.length (set_last l x) = List.length l.
Proof.
  destruct (last_elt l) as [y |] eqn:E.
  - apply last_elt_split in E. rewrite E at 1.
    change (removelast l ++ [y]) with (push (removelast l) y).
    rewrite set_last_push, length_push. rewrite E at 2.
    rewrite length_app. simpl. lia.
  - apply last_elt_none in E. now subst.
Qed.

End Lists.

Lemma combine_push (A B : Type) (l : list A) (l' : list B) (a : A) (b : B) :
  List.length l = List.length l' ->
  combine (push l a) (push l' b) = combine l l' ++ [(a, b)].
Proof.
  unfold push. revert l'. induction l as [| x l IH]; intros [| y l'] H;
    simpl in *; try discriminate; [reflexivity |].
  f_equal. apply IH. lia.
Qed.

(** The last elements of two arrays of one length form their last pair. *)
Lemma combine_last (A B : Type) (l : list A) (l' : list B) (a : A) (b : B) :
  List.length l = List.length l' ->
  last_elt l = Some a -> last_elt l' = Some b -> In (a, b) (combine l l').
Proof.
  intros HL Ha Hb.
  apply last_elt_split in Ha. apply last_elt_split in Hb.
  assert (HL' : List.length (removelast l) = List.length (removelast l')).
  { rewrite Ha, Hb in HL. rewrite !length_app in HL. simpl in HL. lia. }
  rewrite Ha, Hb.
  change (removelast l ++ [a]) with (push (removelast l) a).
  change (removelast l' ++ [b]) with (push (removelast l') b).
  rewrite combine_push by exact HL'.
  apply in_or_app. right. now left.
Qed.

End ArrayFacts.

(** ** The walk over the doses *)

Module WalkFacts.
Import Client Terms.
Local Open Scope Qc_scope.

Lemma equals_eq (a b : DateTime) : equals a b = true -> a = b.
Proof.
  destruct a, b; simpl; try discriminate.
  intros H. f_equal. now apply Qc_eq_bool_correct.
Qed.

Lemma lastIs_eq (d : DateTime) (l : list DateTime) :
  lastIs d l = true -> last_elt l = Some d.
Proof.
  unfold lastIs. destruct (last_elt l); [| discriminate].
  intros H. apply equals_eq in H. now subst.
Qed.

Section Step.
Variables (rate : number) (P : DateTime).

Lemma step_taken (st : Walk) (e : PlotEvent) :
  cumulativeDosageTaken (plotStep rate P st e) =
  Num.add (cumulativeDosageTaken st) (parsedAmount e).
Proof.
  unfold plotStep. cbv zeta.
  destruct (_ && negb _); [reflexivity |].
  destruct (_ && _); reflexivity.
Qed.

Lemma step_lengths (st : Walk) (e : PlotEvent) :
  List.length (wk_labels st) = List.length (wk_points st) ->
  List.length (wk_labels (plotStep rate P st e)) =
  List.length (wk_points (plotStep rate P st e)).
Proof.
  intros H. unfold plotStep. cbv zeta.
  destruct (_ && negb _); [| destruct (_ && _)]; simpl;
    rewrite ?ArrayFacts.length_push, ?ArrayFacts.length_set_last; lia.
Qed.

Lemma step_last_label (st : Walk) (e : PlotEvent) :
  last_elt (wk_labels (plotStep rate P st e)) = Some (eventTimeDT e).
Proof.
  unfold plotStep. cbv zeta.
  destruct (_ && negb _); [| destruct (_ && _)]; simpl;
    apply ArrayFacts.last_elt_push.
Qed.

Lemma step_last_point (st : Walk) (e : PlotEvent) :
  last_elt (wk_points (plotStep rate P st e)) =
  Some (Num.sub (idealTotalIntake rate P (eventTimeDT e))
          (cumulativeDosageTaken (plotStep rate P st e))).
Proof.
  rewrite step_taken. unfold plotStep. cbv zeta.
  destruct (_ && negb _); [| destruct (_ && _)]; simpl;
    apply ArrayFacts.last_elt_push.
Qed.

(** After a step the state is settled at the dose of that step. *)
Lemma step_settles (st : Walk) (e : PlotEvent) :
  List.length (wk_labels st) = List.length (wk_points st) ->
  settled rate P (plotStep rate P st e).
Proof.
  intros H. split; [now apply step_lengths |].
  exists (eventTimeDT e). split; [apply step_last_label | apply step_last_point].
Qed.

(** A step from a settled state keeps every vertex: when the dose falls on
    the last instant, the need it writes over the last point is the need
    already there. *)
Lemma step_keeps (st : Walk) (e : PlotEvent) (v : DateTime * number) :
  settled rate P st ->
  In v (combine (wk_labels st) (wk_points st)) ->
  In v (combine (wk_labels (plotStep rate P st e))
          (wk_points (plotStep rate P st e))).
Proof.
  intros [HL (l & Hl & Hp)] Hin. unfold plotStep. cbv zeta.
  destruct (_ && negb _) eqn:E1; simpl.
  - rewrite !ArrayFacts.combine_push;
      rewrite ?ArrayFacts.length_push; try lia.
    apply in_or_app. left. apply in_or_app. now left.
  - destruct (_ && lastIs _ _) eqn:E2; simpl.
    + apply andb_true_iff in E2. destruct E2 as [_ E2].
      apply lastIs_eq in E2. rewrite Hl in E2. inversion E2; subst l.
      rewrite ArrayFacts.set_last_same by exact Hp.
      rewrite ArrayFacts.combine_push by exact HL.
      apply in_or_app. now left.
    + rewrite ArrayFacts.combine_push by exact HL.
      apply in_or_app. now left.
Qed.

Lemma walk_app (l l' : list PlotEvent) (st : Walk) :
  walk rate P (l ++ l') st = walk rate P l' (walk rate P l st).
Proof. unfold walk. apply fold_left_app. Qed.

Lemma walk_cons (e : PlotEvent) (l : list PlotEvent) (st : Walk) :
  walk rate P (e :: l) st = walk rate P l (plotStep rate P st e).
Proof. reflexivity. Qed.

Lemma walk_taken (l : list PlotEvent) (st : Walk) :
  cumulativeDosageTaken (walk rate P l st) =
  fold_left (fun taken e => Num.add taken (parsedAmount e)) l
    (cumulativeDosageTaken st).
Proof.
  unfold walk. revert st. induction l as [| e l IH]; intros st; simpl.
  - reflexivity.
  - rewrite IH, step_taken. reflexivity.
Qed.

Lemma walk_lengths (l : list PlotEvent) (st : Walk) :
  List.length (wk_labels st) = List.length (wk_points st) ->
  List.length (wk_labels (walk rate P l st)) =
  List.length (wk_points (walk rate P l st)).
Proof.
  unfold walk. revert st. induction l as [| e l IH]; intros st H; simpl.
  - exact H.
  - apply IH. now apply step_lengths.
Qed.

Lemma walk_settles (l : list PlotEvent) (st : Walk) :
  settled rate P st -> settled rate P (walk rate P l st).
Proof.
  unfold walk. revert st. induction l as [| e l IH]; intros st H; simpl.
  - exact H.
  - apply IH. apply step_settles. apply H.
Qed.

Lemma walk_keeps (l : list PlotEvent) (st : Walk) (v : DateTime * number) :
  settled rate P st ->
  In v (combine (wk_labels st) (wk_points st)) ->
  In v (combine (wk_labels (walk rate P l st)) (wk_points (walk rate P l st))).
Proof.
  unfold walk. revert st. induction l as [| e l IH]; intros st H Hin; simpl.
  - exact Hin.
  - apply IH.
    + apply step_settles. apply H.
    + now apply step_keeps.
Qed.

(** The walk ends at the instant of the last dose. *)
Lemma walk_last_label (l : list PlotEvent) (e : PlotEvent) (st : Walk) :
  last_elt (wk_labels (walk rate P (l ++ [e]) st)) = Some (eventTimeDT e).
Proof.
  rewrite walk_app. apply step_last_label.
Qed.

(** The vertex after each dose is on the walk: at the instant of the dose,
    the ideal intake at that instant less everything taken through it. *)
Lemma walk_vertex (pre post : list PlotEvent) (e : PlotEvent) (st : Walk) :
  List.length (wk_labels st) = List.length (wk_points st) ->
  let st' := walk rate P (pre ++ e :: post) st in
  In (eventTimeDT e,
      Num.sub (idealTotalIntake rate P (eventTimeDT e))
        (fold_left (fun taken e => Num.add taken (parsedAmount e)) (pre ++ [e])
           (cumulativeDosageTaken st)))
     (combine (wk_labels st') (wk_points st')).
Proof.
  intros HL st'. unfold st'. rewrite walk_app, walk_cons.
  set (st1 := walk rate P pre st).
  assert (HL1 : List.length (wk_labels st1) = List.length (wk_points st1))
    by now apply walk_lengths.
  apply walk_keeps; [now apply step_settles |].
  apply ArrayFacts.combine_last.
  - now apply step_lengths.
  - apply step_last_label.
  - rewrite step_last_point, step_taken. unfold st1.
    rewrite walk_taken, fold_left_app. reflexivity.
Qed.

(** The point at the current time keeps every vertex of a settled walk. *)
Lemma now_keeps (nowDT : DateTime) (st : Walk) (v : DateTime * number) :
  settled rate P st ->
  In v (combine (wk_labels st) (wk_points st)) ->
  In v (vertices (plotNow rate P nowDT st)).
Proof.
  intros [HL (l & Hl & Hp)] Hin. unfold plotNow, vertices.
  destruct (negb (isValid nowDT)); [exact Hin |]. cbv zeta.
  destruct (_ || _); simpl.
  - rewrite ArrayFacts.combine_push by exact HL. apply in_or_app. now left.
  - destruct (_ && _) eqn:E; simpl; [| exact Hin].
    apply andb_true_iff in E. destruct E as [_ E].
    apply lastIs_eq in E. rewrite Hl in E. inversion E; subst l.
    now rewrite ArrayFacts.set_last_same by exact Hp.
Qed.

End Step.
End WalkFacts.

(** ** The sorted timeline *)

Module TimelineFacts.
Import Client Terms.
Local Open Scope Qc_scope.

(** *** The generic sort *)

Section Sort.
Variables (A : Type) (compare : A -> A -> number).

Lemma insert_perm (x : A) (l : list A) :
  Permutation (x :: l) (insert_sorted compare x l).
Proof.
  induction l as [| y l IH]; simpl; [reflexivity |].
  destruct (Num.gt (compare x y) Num.zero); [| reflexivity].
  rewrite perm_swap. now constructor.
Qed.

(** The sorted array holds the elements of the array, each as often. *)
Lemma sort_perm (l : list A) : Permutation l (sort compare l).
Proof.
  induction l as [| x l IH]; simpl; [reflexivity |].
  rewrite <- insert_perm. now constructor.
Qed.

(** With a relation [R] that the comparator decides and that is transitive
    on the elements at hand, the result is sorted by [R]. *)
Variables (R : A -> A -> Prop) (ok : A -> Prop).
Hypothesis R_trans : forall a b c, ok a -> ok b -> ok c -> R a b -> R b c -> R a c.
Hypothesis compare_gt : forall a b, ok a -> ok b ->
  Num.gt (compare a b) Num.zero = true -> R b a.
Hypothesis compare_le : forall a b, ok a -> ok b ->
  Num.gt (compare a b) Num.zero = false -> R a b.

Lemma insert_stronglySorted (x : A) (l : list A) :
  ok x -> Forall ok l -> StronglySorted R l ->
  StronglySorted R (insert_sorted compare x l).
Proof.
  intros Hx Hok HS. induction HS as [| y l HS IH Hy]; simpl.
  - repeat constructor.
  - inversion Hok as [| ? ? Hoky Hokl]; subst.
    destruct (Num.gt (compare x y) Num.zero) eqn:E.
    + constructor; [now apply IH |].
      apply (Permutation_Forall (insert_perm x l)).
      constructor; [now apply compare_gt | exact Hy].
    + constructor; [now constructor |].
      assert (Hxy : R x y) by now apply compare_le.
      constructor; [exact Hxy |].
      rewrite Forall_forall in *. intros z Hz.
      apply R_trans with y; auto.
Qed.

Lemma sort_stronglySorted (l : list A) :
  Forall ok l -> StronglySorted R (sort compare l).
Proof.
  induction l as [| x l IH]; intros Hok; simpl; [constructor |].
  inversion Hok; subst.
  apply insert_stronglySorted; auto.
  now apply (Permutation_Forall (sort_perm l)).
Qed.

End Sort.

(** *** Instants in whole milliseconds *)

Lemma le_at_ms (a b : Z) :
  Num.le (toMillis (at_ms a)) (toMillis (at_ms b)) = true <-> (a <= b)%Z.
Proof.
  unfold at_ms, fromISO, toMillis, Num.le, Num.cmp.
  rewrite Zle_Qle.
  destruct (Q2Qc (inject_Z a) ?= Q2Qc (inject_Z b)) eqn:E.
  - apply QcFacts.compare_eq in E. apply (f_equal this) in E.
    split; [intros _ | reflexivity].
    rewrite <- (QcFacts.this_Q2Qc (inject_Z a)), <- (QcFacts.this_Q2Qc (inject_Z b)).
    rewrite E. apply Qle_refl.
  - apply -> QcFacts.compare_lt in E. unfold Qclt in E.
    rewrite !QcFacts.this_Q2Qc in E.
    split; [intros _; now apply Qlt_le_weak | reflexivity].
  - apply -> QcFacts.compare_gt in E. unfold Qclt in E.
    rewrite !QcFacts.this_Q2Qc in E.
    split; [discriminate | intros H; exfalso; lra].
Qed.

Lemma at_ms_inj (a b : Z) : at_ms a = at_ms b -> a = b.
Proof.
  intros H. apply Z.le_antisymm; apply le_at_ms; rewrite H;
    apply le_at_ms; lia.
Qed.

(** *** The events that pass the checks *)

Lemma checkEvent_wellFormed (w : World) (event : Event) (e : PlotEvent) :
  checkEvent w event = Some e -> wellFormed e.
Proof.
  unfold checkEvent, setZone, parseFloat.
  destruct (zoneValid w); simpl; [| discriminate].
  destruct (dosageTime event) as [t |]; simpl; [| discriminate].
  destruct (Num.isNaN (dosageAmount event)) eqn:E1; simpl; [discriminate |].
  destruct (Num.lt (dosageAmount event) Num.zero) eqn:E2; [discriminate |].
  intros H. inversion H; subst; clear H. unfold wellFormed. simpl.
  split; [exists t; reflexivity | split; assumption].
Qed.

Lemma checkEvent_zone (w : World) (event : Event) (e : PlotEvent) :
  checkEvent w event = Some e -> zoneValid w = true.
Proof.
  unfold checkEvent, setZone. destruct (zoneValid w); [reflexivity |].
  simpl. discriminate.
Qed.

Lemma dropNull_In (A : Type) (l : list (option A)) (x : A) :
  In x (dropNull l) -> In (Some x) l.
Proof.
  induction l as [| [y |] l IH]; simpl; intros H; auto.
  destruct H as [-> | H]; auto.
Qed.

Lemma checked_wellFormed (w : World) (events : list Event) :
  Forall wellFormed (dropNull (map (checkEvent w) events)).
Proof.
  apply Forall_forall. intros e H.
  apply dropNull_In, in_map_iff in H. destruct H as (event & H & _).
  now apply checkEvent_wellFormed in H.
Qed.

Lemma byMillis_gt (a b : PlotEvent) :
  wellFormed a -> wellFormed b ->
  Num.gt (byMillis a b) Num.zero = true -> notAfter b a.
Proof.
  intros ((ta & Ha) & _) ((tb & Hb) & _). unfold notAfter, byMillis.
  rewrite Ha, Hb. unfold at_ms, fromISO, toMillis. simpl.
  unfold Num.gt, Num.lt, Num.le, Num.cmp, Num.zero.
  set (x := Q2Qc (inject_Z ta)). set (y := Q2Qc (inject_Z tb)).
  destruct (0 ?= x + - y) eqn:E; try discriminate. intros _.
  apply -> QcFacts.compare_lt in E.
  destruct (y ?= x) eqn:E'; try reflexivity.
  apply -> QcFacts.compare_gt in E'. unfold Qclt in *.
  rewrite QcFacts.this_plus, QcFacts.this_opp in E. exfalso.
  change (this 0) with 0%Q in E. lra.
Qed.

Lemma byMillis_le (a b : PlotEvent) :
  wellFormed a -> wellFormed b ->
  Num.gt (byMillis a b) Num.zero = false -> notAfter a b.
Proof.
  intros ((ta & Ha) & _) ((tb & Hb) & _). unfold notAfter, byMillis.
  rewrite Ha, Hb. unfold at_ms, fromISO, toMillis. simpl.
  unfold Num.gt, Num.lt, Num.le, Num.cmp, Num.zero.
  set (x := Q2Qc (inject_Z ta)). set (y := Q2Qc (inject_Z tb)).
  destruct (0 ?= x + - y) eqn:E; try discriminate; intros _.
  - apply QcFacts.compare_eq in E. apply (f_equal this) in E.
    destruct (x ?= y) eqn:E'; try reflexivity.
    apply -> QcFacts.compare_gt in E'. unfold Qclt in *.
    assert (H : (this (x + - y) == this x + - this y)%Q)
      by (rewrite QcFacts.this_plus, QcFacts.this_opp; reflexivity).
    rewrite <- E in H. change (this 0) with 0%Q in H. exfalso. lra.
  - apply -> QcFacts.compare_gt in E.
    destruct (x ?= y) eqn:E'; try reflexivity.
    apply -> QcFacts.compare_gt in E'. unfold Qclt in *.
    rewrite QcFacts.this_plus, QcFacts.this_opp in E. exfalso.
    change (this 0) with 0%Q in E. lra.
Qed.

Lemma notAfter_trans (a b c : PlotEvent) :
  wellFormed a -> wellFormed b -> wellFormed c ->
  notAfter a b -> notAfter b c -> notAfter a c.
Proof.
  intros ((ta & Ha) & _) ((tb & Hb) & _) ((tc & Hc) & _).
  unfold notAfter. rewrite Ha, Hb, Hc. rewrite !le_at_ms. lia.
Qed.

(** The timeline [calculatePlotData] walks holds the events that pass its
    checks, every one well formed, in ascending order of time. *)
Lemma sortedEvents_sorted (w : World) (events : list Event) :
  Forall wellFormed (sortedEvents w events)
  /\ StronglySorted notAfter (sortedEvents w events)
  /\ Permutation (dropNull (map (checkEvent w) events)) (sortedEvents w events).
Proof.
  unfold sortedEvents. split; [| split].
  - apply (Permutation_Forall (sort_perm byMillis _)), checked_wellFormed.
  - apply sort_stronglySorted with (ok := wellFormed).
    + apply notAfter_trans.
    + apply byMillis_gt.
    + apply byMillis_le.
    + apply checked_wellFormed.
  - apply sort_perm.
Qed.

(** A timeline that is not empty was checked in a valid zone. *)
Lemma timeline_zone (w : World) (events : list Event) (first : PlotEvent)
    (rest : list PlotEvent) :
  sortedEvents w events = first :: rest -> zoneValid w = true.
Proof.
  intros Hs.
  destruct (sortedEvents_sorted w events) as (_ & _ & Hperm).
  assert (Hin : In first (dropNull (map (checkEvent w) events))).
  { apply (Permutation_in first (Permutation_sym Hperm)).
    rewrite Hs. now left. }
  apply dropNull_In, in_map_iff in Hin. destruct Hin as (event & Hc & _).
  now apply checkEvent_zone in Hc.
Qed.

End TimelineFacts.


(** ** The point at the current time (C1) *)

Module FinalPoint.
Import Client Terms Examples.
Local Open Scope Qc_scope.

Lemma after_valid (a b : DateTime) :
  after a b = true -> exists x y, a = DT x /\ b = DT y /\ y < x.
Proof.
  destruct a as [x |], b as [y |]; try discriminate.
  unfold after, Num.gt, Num.lt. simpl.
  destruct (y ?= x) eqn:E; try discriminate.
  intros _. exists x, y. repeat split. now apply QcFacts.compare_lt.
Qed.

(** An instant after another one is neither before it nor equal to it. *)
Lemma after_asym (a b : DateTime) :
  after a b = true -> after b a = false /\ equals b a = false.
Proof.
  intros H. destruct (after_valid _ _ H) as (x & y & -> & -> & Hlt). split.
  - unfold after, Num.gt, Num.lt. simpl.
    destruct (x ?= y) eqn:E; try reflexivity.
    apply -> QcFacts.compare_lt in E. unfold Qclt in *. lra.
  - simpl. destruct (Qc_eq_bool y x) eqn:E; [| reflexivity].
    apply Qc_eq_bool_correct in E. subst. unfold Qclt in *. lra.
Qed.

Lemma equals_not_after (a b : DateTime) :
  equals a b = true -> after a b = false.
Proof.
  intros H. pose proof (WalkFacts.equals_eq _ _ H) as ->.
  destruct b as [x |]; [| discriminate].
  unfold after, Num.gt, Num.lt. simpl.
  destruct (x ?= x) eqn:E; try reflexivity.
  apply -> QcFacts.compare_lt in E. unfold Qclt in *. lra.
Qed.

(** The loop over a non-empty list of doses ends at the last of them. *)
Lemma walk_ends_at_last (rate : number) (P : DateTime) (first : PlotEvent)
    (rest : list PlotEvent) (st : Walk) :
  last_elt (wk_labels (walk rate P (first :: rest) st)) =
  Some (eventTimeDT (last rest first)).
Proof.
  assert (H : first :: rest <> []) by discriminate.
  rewrite (app_removelast_last first H).
  rewrite WalkFacts.walk_last_label. f_equal. f_equal.
  destruct rest; reflexivity.
Qed.

(** C1, the claim as stated, fails: with doses at 0 h and 5 h and the clock
    at 3 h, no point is added at the current time; the curve has the six
    points of the two doses and ends at the later dose. *)
Lemma C1_now_before_last_event_counterexample :
  calculatePlotData [dose 1 (5 * hour); dose 1 0]
    (page (Num.of_Z 1) [dose 1 0; dose 1 (5 * hour)] (3 * hour)) =
  Ret {| labels :=
           [at_ms (- hour); at_ms (-1); at_ms (-1); at_ms 0;
            at_ms (5 * hour - 1); at_ms (5 * hour)];
         neededDataPoints :=
           [Num.of_Z 0; Num.of_Z 1; Num.of_Z 1; Num.of_Z 0;
            Num.of_Z 5; Num.of_Z 4] |}.
Proof.
  apply PlotFacts.plot_is. vm_compute. reflexivity.
Qed.

(** C1, amended.  For a non-empty timeline whose projected start can be
    computed, let the walk be the curve after the loop over the doses,
    which ends at the last dose.  When the current time is after the last
    dose, one point is added: the current time, with the ideal intake from
    the projected start to the current time less everything taken.  When
    the current time is the instant of the last dose, nothing is added: the
    curve already ends at the current time with that need.  When the
    current time is before the last dose, nothing is added and the curve
    ends at the last dose. *)
Theorem C1_final_point (events : list Event) (w : World)
    (first : PlotEvent) (rest : list PlotEvent) (P : DateTime) :
  sortedEvents w events = first :: rest ->
  projectedStart (currentRate w) first = Ret P ->
  let rate := currentRate w in
  let st := walk rate P (first :: rest) (plotStart rate P (eventTimeDT first)) in
  let lastEventTimeDT := eventTimeDT (last rest first) in
  let nowDT := at_ms (clock w) in
  let need :=
    Num.sub (idealTotalIntake rate P nowDT) (takenThrough (first :: rest)) in
  last_elt (wk_labels st) = Some lastEventTimeDT
  /\ (after nowDT lastEventTimeDT = true ->
      calculatePlotData events w =
      Ret {| labels := push (wk_labels st) nowDT;
             neededDataPoints := push (wk_points st) need |})
  /\ (equals nowDT lastEventTimeDT = true ->
      calculatePlotData events w =
      Ret {| labels := wk_labels st; neededDataPoints := wk_points st |}
      /\ last_elt (wk_points st) = Some need)
  /\ (after lastEventTimeDT nowDT = true ->
      calculatePlotData events w =
      Ret {| labels := wk_labels st; neededDataPoints := wk_points st |}).
Proof.
  intros Hs Hp rate st lastT nowDT need.
  pose proof (TimelineFacts.timeline_zone w events Hs) as Hz.
  assert (Hlast : last_elt (wk_labels st) = Some lastT)
    by apply walk_ends_at_last.
  assert (Htaken : cumulativeDosageTaken st = takenThrough (first :: rest)).
  { unfold st. rewrite WalkFacts.walk_taken. reflexivity. }
  assert (Hlen : (List.length (wk_labels st) =? 0)%nat = false).
  { destruct (wk_labels st); [discriminate | reflexivity]. }
  assert (Hpos : (0 <? List.length (wk_labels st))%nat = true).
  { destruct (wk_labels st); [discriminate | reflexivity]. }
  assert (Hsettled : settled rate P st).
  { unfold st. rewrite WalkFacts.walk_cons. apply WalkFacts.walk_settles.
    apply WalkFacts.step_settles. reflexivity. }
  rewrite PlotFacts.calculatePlotData_unfold with (first := first) (rest := rest) (P := P)
    by assumption.
  fold rate st nowDT. unfold plotNow. cbv zeta.
  rewrite Hlast, Hlen, Hpos, Htaken. unfold lastIs. rewrite Hlast.
  fold (idealTotalIntake rate P nowDT). fold need.
  split; [reflexivity |]. split; [| split].
  - intros H. destruct (after_valid _ _ H) as (x & y & Hx & _ & _).
    rewrite Hx in *. simpl. now rewrite H.
  - intros H. pose proof (WalkFacts.equals_eq _ _ H) as Hx.
    assert (Hpt : last_elt (wk_points st) = Some need).
    { destruct Hsettled as [_ (l & Hl & Hpoint)].
      rewrite Hlast in Hl. inversion Hl; subst l.
      rewrite Hpoint, Htaken, <- Hx. reflexivity. }
    rewrite (equals_not_after _ _ H), H.
    rewrite ArrayFacts.set_last_same by exact Hpt.
    destruct nowDT; [now split | discriminate].
  - intros H. destruct (after_asym _ _ H) as [Ha He].
    rewrite Ha, He.
    destruct (after_valid _ _ H) as (x & y & _ & Hy & _). now rewrite Hy.
Qed.

(** The amended C1 for one unit taken at instant 0, at one unit per eight
    hours, read sixteen hours later: the projected start is eight hours
    before the dose and the curve ends with a point at the current time. *)
Lemma C1_final_point_witness :
  let w := page oneEveryEight [dose 1 0] (16 * hour) in
  let first := {| eventTimeDT := at_ms 0; parsedAmount := Num.of_Z 1 |} in
  let P := DT (Q2Qc (inject_Z 0) - Q2Qc (inject_Z 8) * msPerHour) in
  let st := walk oneEveryEight P [first] (plotStart oneEveryEight P (at_ms 0)) in
  calculatePlotData [dose 1 0] w =
  Ret {| labels := push (wk_labels st) (at_ms (16 * hour));
         neededDataPoints :=
           push (wk_points st)
             (Num.sub (idealTotalIntake oneEveryEight P (at_ms (16 * hour)))
                (takenThrough [first])) |}.
Proof.
  intros w first P st.
  assert (Hs : sortedEvents w [dose 1 0] = [first]) by reflexivity.
  assert (Hp : projectedStart (currentRate w) first = Ret P).
  { apply (f_equal (@Ret DateTime)), LuxonFacts.datetime_eqb_eq.
    vm_compute. reflexivity. }
  destruct (@C1_final_point [dose 1 0] w first [] P Hs Hp) as (_ & H & _).
  apply H. vm_compute. reflexivity.
Defined.

End FinalPoint.

(** ** What the statistics show *)

Module StatsFacts.
Import Client Terms.

(** The statistics written for a list of events whose first entry has a
    valid time, when the projected start can be computed: the needed
    amount, the total given and the total needed; and the two thresholds,
    numbers when the rate is above 0 and 'N/A' otherwise. *)
Lemma stats_shown (events : list Event) (w : World) (e0 : Event)
    (more : list Event) (P : DateTime) :
  events = e0 :: more ->
  isValid (fromISO (dosageTime e0)) = true ->
  minus_hours (fromISO (dosageTime e0))
    (Num.div (parseFloat (dosageAmount e0)) (currentRate w)) = Ret P ->
  let firstEventDT := fromISO (dosageTime e0) in
  let totalNeededIdeal :=
    Num.mul (currentRate w)
      (Num.add (calculateHoursBetween P firstEventDT)
         (calculateHoursBetween firstEventDT (getLocalNow w))) in
  let currentNeeded :=
    Math_max Num.zero (Num.sub totalNeededIdeal (totalGiven events)) in
  let s := stats (world_of (updateStatisticsDisplay events w)) in
  el_needed s = Fixed currentNeeded 1
  /\ el_totalGiven s = Fixed (totalGiven events) 1
  /\ el_totalNeeded s = Fixed totalNeededIdeal 2
  /\ el_half s =
       (if Num.gt (currentRate w) Num.zero
        then FixedHrs (Num.div (Num.sub half_unit currentNeeded) (currentRate w)) 1
        else NA)
  /\ (Num.gt (currentRate w) Num.zero = false ->
       el_half_time s = NA /\ el_one s = NA /\ el_one_time s = NA)
  /\ (Num.gt (currentRate w) Num.zero = true ->
       updateStatisticsDisplay events w = Done (world_of (updateStatisticsDisplay events w)) ->
       el_one s =
       FixedHrs (Num.div (Num.sub full_unit currentNeeded) (currentRate w)) 1).
Proof.
  intros -> Hv HP. cbv zeta. unfold updateStatisticsDisplay.
  cbn [List.length Nat.eqb andb]. rewrite Hv. cbn [negb]. rewrite HP.
  cbv zeta.
  destruct (Num.gt (currentRate w) Num.zero).
  - destruct (formatTimeOffset w _) as [t |].
    + destruct (formatTimeOffset w _) as [t' |]; cbn [world_of stats set_stats];
        repeat split; try reflexivity; try discriminate.
    + cbn [world_of stats set_stats];
        repeat split; try reflexivity; try discriminate.
  - cbn [world_of stats set_stats]; repeat split; try reflexivity;
      try discriminate.
Qed.






End StatsFacts.

(** ** The ideal line (C2) *)

Module IdealLine.
Import Client Terms Examples.
Local Open Scope Qc_scope.

Lemma msPerHour_pos : 0 < msPerHour.
Proof. unfold Qclt. vm_compute. reflexivity. Qed.

Lemma msPerHour_neq : msPerHour <> 0.
Proof.
  intros H. pose proof msPerHour_pos as Hp. rewrite H in Hp.
  unfold Qclt in Hp. lra.
Qed.

Lemma firstn_prefix (A : Type) (l l' : list A) :
  firstn (List.length l) (l ++ l') = l.
Proof. induction l as [| a l IH]; [reflexivity |]. cbn. now rewrite IH. Qed.

Lemma firstn_through (A : Type) (pre post : list A) (e : A) :
  firstn (S (List.length pre)) (pre ++ e :: post) = pre ++ [e].
Proof.
  replace (pre ++ e :: post) with ((pre ++ [e]) ++ post)
    by (rewrite <- app_assoc; reflexivity).
  replace (S (List.length pre)) with (List.length (pre ++ [e]))
    by (rewrite length_app; cbn; lia).
  apply firstn_prefix.
Qed.

Lemma taken_snoc (pre : list PlotEvent) (e : PlotEvent) :
  takenThrough (pre ++ [e]) = Num.add (takenThrough pre) (parsedAmount e).
Proof. unfold takenThrough. rewrite fold_left_app. reflexivity. Qed.

(** The first dose is not on the instant one millisecond before it. *)
Lemma first_not_last (P : DateTime) (t0 : Z) :
  lastIs (at_ms t0) (push (push [] P) (minus_millis (at_ms t0) 1)) = false.
Proof.
  unfold lastIs, push. simpl.
  destruct (Qc_eq_bool _ _) eqn:E; [| reflexivity].
  apply Qc_eq_bool_correct in E. apply (f_equal this) in E. exfalso.
  assert (H : (this (Q2Qc (inject_Z t0) - Q2Qc (inject_Z 1))
               == this (Q2Qc (inject_Z t0)) - 1)%Q)
    by (rewrite QcFacts.this_minus; reflexivity).
  rewrite <- E in H. lra.
Qed.

Section Line.
Variables (rate : number) (P nowDT : DateTime) (timeline : list PlotEvent).

(** The vertex one millisecond before a dose is on the line. *)
Lemma dose_before (pre post : list PlotEvent) (e : PlotEvent) :
  timeline = pre ++ e :: post ->
  onIdealLine rate P nowDT timeline
    (minus_millis (eventTimeDT e) 1,
     Num.sub (idealTotalIntake rate P (eventTimeDT e)) (takenThrough pre)).
Proof.
  intros Ht. exists (eventTimeDT e), (List.length pre). split; [| split].
  - right. exists e. split; [| reflexivity].
    rewrite Ht. apply in_or_app. right. now left.
  - now right.
  - cbn [snd]. rewrite Ht, firstn_prefix. reflexivity.
Qed.

(** The vertex after a dose is on the line. *)
Lemma dose_after (pre post : list PlotEvent) (e : PlotEvent) :
  timeline = pre ++ e :: post ->
  onIdealLine rate P nowDT timeline
    (eventTimeDT e,
     Num.sub (idealTotalIntake rate P (eventTimeDT e))
       (Num.add (takenThrough pre) (parsedAmount e))).
Proof.
  intros Ht. exists (eventTimeDT e), (S (List.length pre)). split; [| split].
  - right. exists e. split; [| reflexivity].
    rewrite Ht. apply in_or_app. right. now left.
  - now left.
  - cbn [snd]. rewrite Ht, firstn_through, taken_snoc. reflexivity.
Qed.

(** A step of the walk keeps the vertices it finds and adds vertices of
    the line: from a settled state, or when the dose is not on the last
    label. *)
Lemma step_extends (pre post : list PlotEvent) (e : PlotEvent) (st : Walk) :
  timeline = pre ++ e :: post ->
  List.length (wk_labels st) = List.length (wk_points st) ->
  cumulativeDosageTaken st = takenThrough pre ->
  settled rate P st \/ lastIs (eventTimeDT e) (wk_labels st) = false ->
  exists extra,
    combine (wk_labels (plotStep rate P st e)) (wk_points (plotStep rate P st e))
    = combine (wk_labels st) (wk_points st) ++ extra
    /\ Forall (onIdealLine rate P nowDT timeline) extra.
Proof.
  intros Ht HL Htk Hor.
  pose proof (@dose_before pre post e Ht) as Hb.
  pose proof (@dose_after pre post e Ht) as Ha.
  rewrite <- Htk in Hb, Ha.
  unfold plotStep. cbv zeta.
  destruct (_ && negb _) eqn:E1; simpl.
  - rewrite !ArrayFacts.combine_push;
      rewrite ?ArrayFacts.length_push; try lia.
    rewrite <- app_assoc. eexists. split; [reflexivity |].
    repeat constructor; assumption.
  - destruct (_ && lastIs _ _) eqn:E2; simpl.
    + apply andb_true_iff in E2. destruct E2 as [_ E2].
      destruct Hor as [[_ (l & Hl & Hp)] | Hno]; [| congruence].
      apply WalkFacts.lastIs_eq in E2. rewrite Hl in E2. inversion E2; subst l.
      rewrite ArrayFacts.set_last_same by exact Hp.
      rewrite ArrayFacts.combine_push by exact HL.
      eexists. split; [reflexivity |]. repeat constructor; assumption.
    + rewrite ArrayFacts.combine_push by exact HL.
      eexists. split; [reflexivity |]. repeat constructor; assumption.
Qed.

(** So does the walk over the doses that are left. *)
Lemma walk_extends (todo : list PlotEvent) :
  forall (pre : list PlotEvent) (st : Walk),
    timeline = pre ++ todo ->
    List.length (wk_labels st) = List.length (wk_points st) ->
    cumulativeDosageTaken st = takenThrough pre ->
    settled rate P st
    \/ match todo with
       | e :: _ => lastIs (eventTimeDT e) (wk_labels st) = false
       | [] => True
       end ->
    exists extra,
      combine (wk_labels (walk rate P todo st)) (wk_points (walk rate P todo st))
      = combine (wk_labels st) (wk_points st) ++ extra
      /\ Forall (onIdealLine rate P nowDT timeline) extra.
Proof.
  induction todo as [| e todo IH]; intros pre st Ht HL Htk Hor.
  - exists []. split; [now rewrite app_nil_r | constructor].
  - assert (Hor' : settled rate P st
                   \/ lastIs (eventTimeDT e) (wk_labels st) = false)
      by (destruct Hor; auto).
    destruct (@step_extends pre todo e st Ht HL Htk Hor') as (x1 & E1 & F1).
    destruct (IH (pre ++ [e]) (plotStep rate P st e)) as (x2 & E2 & F2).
    + rewrite <- app_assoc. exact Ht.
    + now apply WalkFacts.step_lengths.
    + rewrite WalkFacts.step_taken, Htk. symmetry. apply taken_snoc.
    + left. now apply WalkFacts.step_settles.
    + exists (x1 ++ x2). rewrite WalkFacts.walk_cons, E2, E1, <- app_assoc.
      split; [reflexivity |]. apply Forall_app. now split.
Qed.

(** And the point at the current time, after the whole timeline. *)
Lemma now_extends (st : Walk) :
  settled rate P st ->
  cumulativeDosageTaken st = takenThrough timeline ->
  exists extra,
    vertices (plotNow rate P nowDT st)
    = combine (wk_labels st) (wk_points st) ++ extra
    /\ Forall (onIdealLine rate P nowDT timeline) extra.
Proof.
  intros [HL (l & Hl & Hp)] Htk. unfold plotNow, vertices.
  destruct (negb (isValid nowDT)).
  { exists []. split; [now rewrite app_nil_r | constructor]. }
  cbv zeta. destruct (_ || _); simpl.
  - rewrite ArrayFacts.combine_push by exact HL.
    eexists. split; [reflexivity |]. repeat constructor.
    exists nowDT, (List.length timeline). split; [now left |].
    split; [now left |]. cbn [snd]. rewrite firstn_all, Htk. reflexivity.
  - destruct (_ && _) eqn:E; simpl.
    + apply andb_true_iff in E. destruct E as [_ E].
      apply WalkFacts.lastIs_eq in E. rewrite Hl in E. inversion E; subst l.
      rewrite ArrayFacts.set_last_same by exact Hp.
      exists []. split; [now rewrite app_nil_r | constructor].
    + exists []. split; [now rewrite app_nil_r | constructor].
Qed.

End Line.

(** C2, the claim as stated, fails: one unit taken at instant 0, one unit
    per eight hours, read sixteen hours later.  Anchored at the first dose
    the ideal intake at the current time would be 2; the statistics show 3
    as the total needed, and the curve starts eight hours before the dose,
    already needs 1 just before it, and ends at 2 instead of 2 - 1. *)
Lemma C2_anchor_counterexample :
  let w := page oneEveryEight [dose 1 0] (16 * hour) in
  spec_idealCumulative oneEveryEight 0 (16 * hour) = Num.of_Z 2
  /\ el_totalNeeded (stats (world_of (updateStatisticsDisplay [dose 1 0] w))) =
       Fixed (Num.of_Z 3) 2
  /\ calculatePlotData [dose 1 0] w =
       Ret {| labels :=
                [at_ms (-8 * hour); at_ms (-1); at_ms (-1); at_ms 0;
                 at_ms (16 * hour)];
              neededDataPoints :=
                [Num.of_Z 0; Num.of_Z 1; Num.of_Z 1; Num.of_Z 0; Num.of_Z 2] |}.
Proof.
  intros w. split; [| split].
  - apply NumFacts.number_eqb_eq. vm_compute. reflexivity.
  - apply PlotFacts.text_eqb_eq. vm_compute. reflexivity.
  - apply PlotFacts.plot_is. vm_compute. reflexivity.
Qed.

(** C2, amended.  The ideal line starts at the projected start [P], the
    earliest dose moved back by the hours its amount lasts at the rate
    ([first.minus({ hours: amount / rate })]), and not at the earliest
    dose.  For every timeline that is not empty and for which [P] is
    computed, with [ideal t = rate * calculateHoursBetween(P, t)]:
    the curve is computed; it starts with [P] at need 0 and, one
    millisecond before the first dose, the ideal intake at the first dose;
    every later vertex is on the line, drawn at the instant [t] of a dose
    or of the current time, or one millisecond before it, with the need
    [ideal t] less what the first doses of the timeline add up to; every
    dose has its vertex, [ideal t] less everything taken through it; and
    when the first entry of the list is the earliest dose, the statistics
    use the same line: the total needed is the rate times the hours from
    [P] to the first dose and on to the current time, and the needed amount
    is that total less the total given, raised to 0.  From a [P] that is
    not a valid instant no hours are counted. *)
Theorem C2_ideal_line_from_projected_start (events : list Event) (w : World)
    (first : PlotEvent) (rest : list PlotEvent) (P : DateTime) :
  sortedEvents w events = first :: rest ->
  projectedStart (currentRate w) first = Ret P ->
  let rate := currentRate w in
  let firstDT := eventTimeDT first in
  let nowDT := at_ms (clock w) in
  let ideal (t : DateTime) := idealTotalIntake rate P t in
  exists d,
    calculatePlotData events w = Ret d
    /\ (exists later,
          vertices d =
            (P, Num.zero) :: (minus_millis firstDT 1, ideal firstDT) :: later
          /\ Forall (onIdealLine rate P nowDT (first :: rest)) later)
    /\ (forall pre e post, first :: rest = pre ++ e :: post ->
          In (eventTimeDT e,
              Num.sub (ideal (eventTimeDT e)) (takenThrough (pre ++ [e])))
             (vertices d))
    /\ (forall e0 more, events = e0 :: more ->
          fromISO (dosageTime e0) = firstDT ->
          parseFloat (dosageAmount e0) = parsedAmount first ->
          let s := stats (world_of (updateStatisticsDisplay events w)) in
          let totalNeededIdeal :=
            Num.mul rate
              (Num.add (calculateHoursBetween P firstDT)
                 (calculateHoursBetween firstDT nowDT)) in
          el_totalNeeded s = Fixed totalNeededIdeal 2
          /\ el_needed s =
             Fixed (Math_max Num.zero
                      (Num.sub totalNeededIdeal (totalGiven events))) 1)
    /\ (isValid P = false -> forall t, ideal t = Num.mul rate Num.zero).
Proof.
  intros Hs HP rate firstDT nowDT ideal.
  pose proof (TimelineFacts.timeline_zone w events Hs) as Hz.
  destruct (TimelineFacts.sortedEvents_sorted w events) as (Hwf & _ & _).
  rewrite Hs in Hwf.
  assert (Ht : exists t0, firstDT = at_ms t0).
  { inversion Hwf as [| ? ? ((t0 & Ht0) & _) _]; subst. now exists t0. }
  destruct Ht as (t0 & Ht).
  set (st0 := plotStart rate P firstDT).
  set (st := walk rate P (first :: rest) st0).
  assert (Hsettled : settled rate P st).
  { unfold st. rewrite WalkFacts.walk_cons. apply WalkFacts.walk_settles.
    apply WalkFacts.step_settles. reflexivity. }
  assert (Htaken : cumulativeDosageTaken st = takenThrough (first :: rest)).
  { unfold st. rewrite WalkFacts.walk_taken. reflexivity. }
  exists (plotNow rate P nowDT st).
  split; [| split; [| split; [| split]]];
    [| | | | intros Hinv t; destruct P; [discriminate | reflexivity]].
  - now apply PlotFacts.calculatePlotData_unfold.
  - destruct (@walk_extends rate P nowDT (first :: rest) (first :: rest) [] st0
                eq_refl eq_refl eq_refl) as (x1 & E1 & F1).
    { right. unfold st0, plotStart. cbn [wk_labels]. fold firstDT.
      rewrite Ht. apply first_not_last. }
    destruct (@now_extends rate P nowDT (first :: rest) st Hsettled Htaken)
      as (x2 & E2 & F2).
    exists (x1 ++ x2). split; [| apply Forall_app; now split].
    rewrite E2. unfold st. rewrite E1, <- app_assoc. reflexivity.
  - intros pre e post Hsplit.
    apply WalkFacts.now_keeps; [exact Hsettled |].
    pose proof (@WalkFacts.walk_vertex rate P pre post e st0 eq_refl) as H.
    cbv zeta in H. rewrite <- Hsplit in H. exact H.
  - intros e0 more He Ht0 Ha0.
    assert (Hv : isValid (fromISO (dosageTime e0)) = true)
      by (rewrite Ht0, Ht; reflexivity).
    assert (HP' : minus_hours (fromISO (dosageTime e0))
                    (Num.div (parseFloat (dosageAmount e0)) (currentRate w))
                  = Ret P)
      by (rewrite Ht0, Ha0; exact HP).
    destruct (StatsFacts.stats_shown w He Hv HP') as (Hn & _ & Htot & _).
    rewrite Ht0 in Hn, Htot. unfold getLocalNow, setZone in Hn, Htot.
    rewrite Hz in Hn, Htot. split; [exact Htot | exact Hn].
Qed.

(** The amended C2 on the example above: the projected start is eight hours
    before the dose. *)
Lemma C2_ideal_line_from_projected_start_witness :
  let w := page oneEveryEight [dose 1 0] (16 * hour) in
  let first := {| eventTimeDT := at_ms 0; parsedAmount := Num.of_Z 1 |} in
  let P := at_ms (-8 * hour) in
  let nowDT := at_ms (16 * hour) in
  let ideal (t : DateTime) := idealTotalIntake oneEveryEight P t in
  exists d,
    calculatePlotData [dose 1 0] w = Ret d
    /\ (exists later,
          vertices d =
            (P, Num.zero) :: (minus_millis (at_ms 0) 1, ideal (at_ms 0)) :: later
          /\ Forall (onIdealLine oneEveryEight P nowDT [first]) later)
    /\ In (at_ms 0, Num.sub (ideal (at_ms 0)) (takenThrough [first])) (vertices d)
    /\ el_totalNeeded (stats (world_of (updateStatisticsDisplay [dose 1 0] w))) =
       Fixed (Num.mul oneEveryEight
                (Num.add (calculateHoursBetween P (at_ms 0))
                   (calculateHoursBetween (at_ms 0) nowDT))) 2.
Proof.
  intros w first P nowDT ideal.
  assert (Hs : sortedEvents w [dose 1 0] = [first]) by reflexivity.
  assert (Hp : projectedStart (currentRate w) first = Ret P).
  { apply (f_equal (@Ret DateTime)), LuxonFacts.datetime_eqb_eq.
    vm_compute. reflexivity. }
  destruct (@C2_ideal_line_from_projected_start [dose 1 0] w first [] P Hs Hp)
    as (d & Hd & Hline & Hv & Hstats & _).
  exists d. split; [exact Hd |]. split; [exact Hline |]. split.
  - exact (Hv [] first [] eq_refl).
  - exact (proj1 (Hstats (dose 1 0) [] eq_refl eq_refl eq_refl)).
Defined.

End IdealLine.

(** ** The thresholds (C7) *)

Module Thresholds.
Import Client Terms Examples.
Local Open Scope Qc_scope.





End Thresholds.

(** ** The needed amount (C8) *)

Module Clamp.
Import Client Terms Examples.
Local Open Scope Qc_scope.






End Clamp.

(** ** The local list after a removal (C10) *)

Module LocalRemoval.
Import Client Terms Examples.
Local Open Scope Qc_scope.

(** Two parsed instants are [===] as numbers exactly when they are the
    same millisecond; an entry whose time does not parse equals nothing. *)
Lemma same_instant (time : option Z) (t : Z) :
  Num.strict_eq (toMillis (fromISO time)) (toMillis (fromISO (Some t))) = true
  <-> time = Some t.
Proof.
  destruct time as [t' |]; simpl.
  - unfold Num.strict_eq, Num.cmp.
    destruct (Q2Qc (inject_Z t') ?= Q2Qc (inject_Z t)) eqn:E.
    + apply QcFacts.compare_eq in E. split; [intros _ | reflexivity].
      f_equal. apply TimelineFacts.at_ms_inj. unfold at_ms, fromISO.
      now rewrite E.
    + split; [discriminate |]. intros H. inversion H; subst.
      apply -> QcFacts.compare_lt in E. unfold Qclt in E. lra.
    + split; [discriminate |]. intros H. inversion H; subst.
      apply -> QcFacts.compare_gt in E. unfold Qclt in E. lra.
  - split; discriminate.
Qed.

(** The list the handler leaves once the sheet has confirmed a removal. *)
Lemma events_after_removal (w : World) (t : Z) (reply : Reply) :
  zoneValid w = true -> success reply = true -> removed reply = true ->
  eventsData (removeDosageEntryHandler true (Some (Some t)) reply w) =
  filter
    (fun event =>
       negb (Num.strict_eq (toMillis (fromISO (dosageTime event)))
               (toMillis (fromISO (Some t)))))
    (eventsData w).
Proof.
  intros Hz Hs Hr. unfold removeDosageEntryHandler, setZone.
  rewrite Hz, Hs, Hr. cbn [negb fromISO isValid andb].
  rewrite Frame.refresh_events. reflexivity.
Qed.

(** C10: after the sheet confirms the removal of the entry at instant [t],
    the local list holds exactly the events it held whose time is not
    [t]: every event at [t] is dropped, however many there are, and every
    other event stays. *)
Theorem C10_local_list_drops_every_match (w : World) (t : Z) (reply : Reply) :
  zoneValid w = true -> success reply = true -> removed reply = true ->
  let w' := removeDosageEntryHandler true (Some (Some t)) reply w in
  (forall e, In e (eventsData w') ->
     In e (eventsData w) /\ dosageTime e <> Some t)
  /\ (forall e, In e (eventsData w) -> dosageTime e <> Some t ->
      In e (eventsData w'))
  /\ (forall e, In e (eventsData w) -> dosageTime e = Some t ->
      ~ In e (eventsData w')).
Proof.
  intros Hz Hs Hr w'. unfold w'.
  rewrite (events_after_removal w t reply Hz Hs Hr).
  split; [| split]; intros e H.
  - apply filter_In in H. destruct H as [Hin Hk]. split; [exact Hin |].
    intros Ht. apply same_instant in Ht. rewrite Ht in Hk. discriminate.
  - intros Hne. apply filter_In. split; [exact H |].
    destruct (Num.strict_eq _ _) eqn:E; [| reflexivity].
    apply same_instant in E. contradiction.
  - intros Ht Hin. apply filter_In in Hin. destruct Hin as [_ Hk].
    apply same_instant in Ht. rewrite Ht in Hk. discriminate.
Qed.

(** C10 on a list with two doses at instant 0 and one an hour later: the
    dose an hour later stays and neither dose at instant 0 does. *)
Lemma C10_local_list_drops_every_match_witness :
  let w := page oneEveryEight [dose 1 0; dose 2 0; dose 1 hour] (2 * hour) in
  let w' :=
    removeDosageEntryHandler true (Some (Some 0%Z))
      {| success := true; removed := true |} w in
  In (dose 1 hour) (eventsData w')
  /\ ~ In (dose 1 0) (eventsData w')
  /\ ~ In (dose 2 0) (eventsData w').
Proof.
  intros w w'.
  destruct (@C10_local_list_drops_every_match w 0%Z
              {| success := true; removed := true |} eq_refl eq_refl eq_refl)
    as (_ & Hkeep & Hdrop).
  split; [| split].
  - apply Hkeep; [simpl; tauto | discriminate].
  - apply Hdrop; [simpl; tauto | reflexivity].
  - apply Hdrop; [simpl; tauto | reflexivity].
Defined.

End LocalRemoval.

(** ** Removal from the sheet (C9) *)

Module SheetRemoval.
Import SheetApp.
Local Open Scope nat_scope.

Lemma getLastRow_le_length (sheet : Sheet) :
  getLastRow sheet <= List.length sheet.
Proof.
  induction sheet as [| r rest IH]; simpl; [lia |].
  destruct (getLastRow rest); [destruct (hasContent r) |]; lia.
Qed.

(** A row with content is not below the last row. *)
Lemma getLastRow_content (sheet : Sheet) (k : nat) (r : Row) :
  nth_error sheet k = Some r -> hasContent r = true ->
  k + 1 <= getLastRow sheet.
Proof.
  revert k. induction sheet as [| r0 rest IH]; intros [| k] Hk Hc;
    simpl in *; try discriminate.
  - inversion Hk; subst. rewrite Hc. destruct (getLastRow rest); lia.
  - specialize (IH k Hk Hc). destruct (getLastRow rest); lia.
Qed.

(** A cell that matches a target that is not empty has content. *)
Lemma match_has_content (r : Row) (target : string) :
  target <> EmptyString -> cellMatches (fst r) target = true ->
  hasContent r = true.
Proof.
  intros Hne Hm. unfold hasContent. destruct r as [[s | x | ms |] v];
    cbn [fst snd isBlank] in *; try discriminate.
  destruct (string_dec s EmptyString) as [-> | _]; [| reflexivity].
  change (cellMatches (VString EmptyString) target)
    with (if string_dec EmptyString target then true else false) in Hm.
  destruct (string_dec EmptyString target); [congruence | discriminate].
Qed.

Lemma header_kept (entries : list Row) :
  _internalEnsureHeaders (headerRow :: entries) = headerRow :: entries.
Proof.
  unfold _internalEnsureHeaders.
  assert (H : 0 + 1 <= getLastRow (headerRow :: entries))
    by (apply getLastRow_content with (r := headerRow); reflexivity).
  destruct (getLastRow (headerRow :: entries)) eqn:E; [lia |].
  reflexivity.
Qed.

Lemma dateColumn_length (sheet : Sheet) :
  List.length (dateColumn sheet) = getLastRow sheet.
Proof.
  unfold dateColumn. rewrite length_map, length_firstn.
  pose proof (getLastRow_le_length sheet). lia.
Qed.

(** A cell of the column that matches is the date cell of a row of the
    sheet. *)
Lemma dateColumn_match (sheet : Sheet) (j : nat) (target : string) :
  cellMatches (nth j (dateColumn sheet) VEmpty) target = true ->
  exists r, nth_error sheet j = Some r /\ cellMatches (fst r) target = true.
Proof.
  unfold dateColumn. intros H.
  destruct (nth_error (map fst (firstn (getLastRow sheet) sheet)) j)
    as [v |] eqn:E.
  - rewrite (nth_error_nth _ _ _ E) in H.
    rewrite nth_error_map in E.
    match type of E with
    | option_map _ ?x = _ => destruct x as [r |] eqn:E'
    end; simpl in E; [| discriminate].
    inversion E; subst. exists r. split; [| exact H].
    rewrite nth_error_firstn in E'. destruct (j <? getLastRow sheet);
      [exact E' | discriminate].
  - apply nth_error_None in E. rewrite nth_overflow in H by exact E.
    discriminate.
Qed.

Lemma dateColumn_nth (sheet : Sheet) (j : nat) (r : Row) :
  nth_error sheet j = Some r -> j < getLastRow sheet ->
  nth j (dateColumn sheet) VEmpty = fst r.
Proof.
  intros Hj Hlt. unfold dateColumn. apply nth_error_nth.
  rewrite nth_error_map, nth_error_firstn.
  apply Nat.ltb_lt in Hlt. rewrite Hlt, Hj. reflexivity.
Qed.

(** The scan from index [i] down stops at the highest index in [1..i]
    whose cell matches. *)
Lemma scanFrom_found (vals : list Value) (target : string) (i k : nat) :
  1 <= k <= i ->
  cellMatches (nth k vals VEmpty) target = true ->
  (forall j, k < j <= i -> cellMatches (nth j vals VEmpty) target = false) ->
  scanFrom i vals target = Some k.
Proof.
  intros Hk Hm Habove. induction i as [| i IH]; [lia |].
  simpl. destruct (Nat.eq_dec k (S i)) as [-> | Hne].
  - now rewrite Hm.
  - rewrite Habove by lia. apply IH; [lia |].
    intros j Hj. apply Habove. lia.
Qed.

Lemma scanFrom_none (vals : list Value) (target : string) (i : nat) :
  (forall j, 1 <= j <= i -> cellMatches (nth j vals VEmpty) target = false) ->
  scanFrom i vals target = None.
Proof.
  intros H. induction i as [| i IH]; [reflexivity |].
  simpl. rewrite H by lia. apply IH. intros j Hj. apply H. lia.
Qed.

Lemma deleteRow_middle (pre post : Sheet) (r : Row) :
  deleteRow (List.length pre + 1) (pre ++ r :: post) = pre ++ post.
Proof.
  unfold deleteRow.
  replace (List.length pre + 1 - 1) with (List.length pre + 0) by lia.
  rewrite firstn_app_2. simpl. rewrite app_nil_r.
  replace (List.length pre + 1) with (List.length pre + 1)%nat by reflexivity.
  rewrite skipn_app, skipn_all2 by lia.
  replace (List.length pre + 1 - List.length pre) with 1 by lia.
  reflexivity.
Qed.

(** A well-formed target is not the empty string. *)
Lemma wellFormed_nonempty (target : string) :
  isoDateTimeRegex target || isoDateOnlyRegex target = true ->
  target <> EmptyString.
Proof. intros H ->. discriminate. Qed.

(** The two cases of a removal on a sheet with its header row, for a
    request that passes the format check. *)
Lemma remove_cases (entries : list Row) (param : string) :
  let target := trim param in
  isoDateTimeRegex target || isoDateOnlyRegex target = true ->
  let sheet := headerRow :: entries in
  ((forall r, In r entries -> cellMatches (fst r) target = false) ->
   exists message,
     handleRemoveData (Some param) (Some sheet) =
     (Success false message, Some sheet))
  /\ (forall before r after,
        entries = (before ++ r :: after)%list ->
        cellMatches (fst r) target = true ->
        (forall r', In r' after -> cellMatches (fst r') target = false) ->
        exists message,
          handleRemoveData (Some param) (Some sheet) =
          (Success true message, Some (headerRow :: before ++ after)%list)).
Proof.
  intros target Hfmt sheet.
  pose proof (@wellFormed_nonempty target Hfmt) as Hne.
  assert (Hfmt' : negb (isoDateTimeRegex target) && negb (isoDateOnlyRegex target)
                  = false).
  { destruct (isoDateTimeRegex target), (isoDateOnlyRegex target);
      simpl in *; congruence. }
  unfold handleRemoveData. fold target.
  destruct (string_dec target "") as [He | _]; [contradiction |].
  rewrite Hfmt'. unfold sheet. rewrite header_kept.
  cbv zeta. rewrite dateColumn_length.
  fold sheet. split.
  - intros Hnone. destruct (getLastRow sheet <=? 1); [eauto |].
    rewrite scanFrom_none; [eauto |].
    intros j Hj.
    destruct (cellMatches (nth j (dateColumn sheet) VEmpty) target) eqn:E;
      [| reflexivity].
    apply dateColumn_match in E. destruct E as (r & Hr & Hm).
    destruct j as [| j]; [lia |]. simpl in Hr.
    apply nth_error_In in Hr. rewrite Hnone in Hm by exact Hr. discriminate.
  - intros before r after Hsplit Hm Hbelow.
    set (k := List.length before + 1).
    assert (Hk : nth_error sheet k = Some r).
    { unfold sheet, k. rewrite Hsplit.
      replace (List.length before + 1) with (S (List.length before)) by lia.
      simpl. rewrite nth_error_app2 by lia.
      now replace (List.length before - List.length before) with 0 by lia. }
    assert (HL : k + 1 <= getLastRow sheet).
    { apply getLastRow_content with (r := r); [exact Hk |].
      now apply match_has_content with (target := target). }
    destruct (getLastRow sheet <=? 1) eqn:E; [apply Nat.leb_le in E; lia |].
    rewrite scanFrom_found with (k := k).
    + eexists. f_equal. f_equal. unfold sheet, k. rewrite Hsplit.
      change (headerRow :: before ++ r :: after)%list
        with ((headerRow :: before) ++ r :: after)%list.
      replace (List.length before + 1 + 1)
        with (List.length (headerRow :: before) + 1) by (simpl; lia).
      apply deleteRow_middle.
    + unfold k. lia.
    + rewrite dateColumn_nth with (r := r); [exact Hm | exact Hk | lia].
    + intros j Hj.
      destruct (cellMatches (nth j (dateColumn sheet) VEmpty) target) eqn:E';
        [| reflexivity].
      apply dateColumn_match in E'. destruct E' as (r' & Hr' & Hm').
      unfold sheet in Hr'. rewrite Hsplit in Hr'.
      assert (Hj' : nth_error after (j - (k + 1)) = Some r').
      { unfold k in *. destruct j as [| j]; [lia |]. simpl in Hr'.
        rewrite nth_error_app2 in Hr' by lia.
        replace (j - List.length before)
          with (S (j - (List.length before + 1))) in Hr' by lia.
        simpl in Hr'.
        now replace (S j - (List.length before + 1 + 1))
          with (j - (List.length before + 1)) by lia. }
      apply nth_error_In in Hj'. rewrite Hbelow in Hm' by exact Hj'.
      discriminate.
Qed.

(** Either no entry matches, or there is a lowest entry that does. *)
Lemma last_match_split (entries : list Row) (target : string) :
  (forall r, In r entries -> cellMatches (fst r) target = false)
  \/ exists before r after,
       entries = (before ++ r :: after)%list
       /\ cellMatches (fst r) target = true
       /\ forall r', In r' after -> cellMatches (fst r') target = false.
Proof.
  induction entries as [| r0 l IH].
  - left. intros r [].
  - destruct IH as [Hnone | (before & r & after & -> & Hm & Hbelow)].
    + destruct (cellMatches (fst r0) target) eqn:E.
      * right. exists [], r0, l. repeat split; assumption.
      * left. intros r [<- | Hr]; [exact E | now apply Hnone].
    + right. exists (r0 :: before), r, after. repeat split; assumption.
Qed.

(** C9.  The store is a sheet with the header row followed by the
    entries, and the request carries a date that passes the format check
    once trimmed.  An entry matches when its date cell is a string that,
    trimmed, is the trimmed request.  The handler succeeds and reports
    removed = false exactly when no entry matches, and then the sheet is
    unchanged; otherwise it reports removed = true and the sheet has lost
    one entry and no more: the matching entry that has no matching entry
    below it. *)
Theorem C9_remove_last_match (entries : list Row) (param : string) :
  let target := trim param in
  isoDateTimeRegex target || isoDateOnlyRegex target = true ->
  exists (removed : bool) (message : string) (entries' : list Row),
    handleRemoveData (Some param) (Some (headerRow :: entries)) =
    (Success removed message, Some (headerRow :: entries'))
    /\ (removed = false <->
        forall r, In r entries -> cellMatches (fst r) target = false)
    /\ (removed = false -> entries' = entries)
    /\ (removed = true ->
        exists before r after,
          entries = (before ++ r :: after)%list
          /\ entries' = (before ++ after)%list
          /\ cellMatches (fst r) target = true
          /\ forall r', In r' after -> cellMatches (fst r') target = false).
Proof.
  intros target Hfmt.
  destruct (@remove_cases entries param Hfmt) as [Hnone Hlast].
  destruct (last_match_split entries target)
    as [Hno | (before & r & after & Hsplit & Hm & Hbelow)].
  - destruct (Hnone Hno) as (message & ->).
    exists false, message, entries. repeat split; auto; discriminate.
  - destruct (Hlast before r after Hsplit Hm Hbelow) as (message & ->).
    exists true, message, (before ++ after)%list. repeat split.
    + discriminate.
    + intros Hall. exfalso.
      assert (Hr : In r entries)
        by (rewrite Hsplit; apply in_or_app; right; now left).
      rewrite (Hall r Hr) in Hm. discriminate.
    + discriminate.
    + exists before, r, after. repeat split; assumption.
Qed.

(** C9 on a sheet that holds the requested date twice: the handler
    answers, and what it answers is fixed by the theorem; the lower of the
    two entries is the one deleted. *)
Lemma C9_remove_last_match_witness :
  exists (removed : bool) (message : string) (entries' : list Row),
    handleRemoveData (Some Examples.mayFirst)
      (Some (headerRow :: Examples.fourEntries)) =
    (Success removed message, Some (headerRow :: entries'))
    /\ (removed = false <->
        forall r, In r Examples.fourEntries ->
          cellMatches (fst r) (trim Examples.mayFirst) = false)
    /\ (removed = false -> entries' = Examples.fourEntries)
    /\ (removed = true ->
        exists before r after,
          Examples.fourEntries = (before ++ r :: after)%list
          /\ entries' = (before ++ after)%list
          /\ cellMatches (fst r) (trim Examples.mayFirst) = true
          /\ forall r', In r' after ->
               cellMatches (fst r') (trim Examples.mayFirst) = false).
Proof.
  apply (@C9_remove_last_match Examples.fourEntries Examples.mayFirst).
  reflexivity.
Defined.

(** The sheet of that example after the removal. *)
Lemma lower_entry_removed :
  exists message,
    handleRemoveData (Some Examples.mayFirst)
      (Some (headerRow :: Examples.fourEntries)) =
    (Success true message,
     Some (headerRow ::
           [Examples.entry Examples.mayFirst 1;
            Examples.entry Examples.maySecond 2;
            Examples.entry Examples.maySecond 4])).
Proof.
  destruct (@remove_cases Examples.fourEntries Examples.mayFirst eq_refl)
    as [_ H].
  apply (H [Examples.entry Examples.mayFirst 1;
            Examples.entry Examples.maySecond 2]
           (Examples.entry Examples.mayFirst 3)
           [Examples.entry Examples.maySecond 4]).
  - reflexivity.
  - reflexivity.
  - intros r' [<- | []]. reflexivity.
Qed.

End SheetRemoval.

(** ** The order of the curve in time (C4) *)

Module Chronology.
Import Client Terms Examples.
Local Open Scope Qc_scope.

Lemma chronological_cons (a b : DateTime) (l : list DateTime) :
  chronological (a :: b :: l) =
  Num.le (toMillis a) (toMillis b) && chronological (b :: l).
Proof. reflexivity. Qed.

Lemma chronological_push (l : list DateTime) (x : DateTime) :
  chronological l = true ->
  (forall y, last_elt l = Some y ->
     Num.le (toMillis y) (toMillis x) = true) ->
  chronological (push l x) = true.
Proof.
  unfold push. induction l as [| a l IH]; intros Hc Hlast; [reflexivity |].
  destruct l as [| b l].
  - simpl. rewrite (Hlast a eq_refl). reflexivity.
  - rewrite chronological_cons in Hc.
    apply andb_true_iff in Hc. destruct Hc as [Hab Hc].
    rewrite <- !app_comm_cons, chronological_cons, Hab.
    rewrite app_comm_cons. apply IH; [exact Hc |].
    intros y Hy. apply Hlast. exact Hy.
Qed.

Lemma minus_millis_at_ms (t : Z) : minus_millis (at_ms t) 1 = at_ms (t - 1).
Proof.
  unfold minus_millis, at_ms, fromISO. f_equal. apply Qc_is_canon.
  rewrite QcFacts.this_minus, !QcFacts.this_Q2Qc.
  unfold Z.sub. rewrite inject_Z_plus, inject_Z_opp. reflexivity.
Qed.

Lemma equals_at_ms (a b : Z) : equals (at_ms a) (at_ms b) = false -> a <> b.
Proof.
  intros H ->. unfold at_ms, fromISO, equals in H.
  unfold Qc_eq_bool in H. destruct (Qc_eq_dec _ _); congruence.
Qed.

(** A dose that is not before the last label leaves the labels in order:
    on the same instant it adds that instant once more, and later it adds
    the millisecond before it, which is not before the last label either. *)
Lemma step_inOrder (rate : number) (P start second : DateTime) (st : Walk)
    (e : PlotEvent) (t' t : Z) :
  inOrderFrom start second st t' -> eventTimeDT e = at_ms t -> (t' <= t)%Z ->
  inOrderFrom start second (plotStep rate P st e) t.
Proof.
  intros (more & Hl & Hc & Hlast) He Hle.
  assert (Hlast' : last_elt (wk_labels st) = Some (at_ms t'))
    by (rewrite Hl; exact Hlast).
  assert (Hpos : (0 <? List.length (wk_labels st))%nat = true)
    by (rewrite Hl; reflexivity).
  unfold plotStep. cbv zeta. unfold lastIs. rewrite Hlast', He, Hpos.
  cbn [andb].
  destruct (equals (at_ms t) (at_ms t')) eqn:E; cbn [negb wk_labels].
  - exists (push more (at_ms t)). rewrite Hl. split; [reflexivity |].
    change (second :: push more (at_ms t))
      with (push (second :: more) (at_ms t)).
    split; [| apply ArrayFacts.last_elt_push].
    apply chronological_push; [exact Hc |].
    intros y Hy. rewrite Hlast in Hy. inversion Hy; subst.
    now apply TimelineFacts.le_at_ms.
  - apply equals_at_ms in E. rewrite minus_millis_at_ms.
    exists (push (push more (at_ms (t - 1))) (at_ms t)). rewrite Hl.
    split; [reflexivity |].
    change (second :: push (push more (at_ms (t - 1))) (at_ms t))
      with (push (push (second :: more) (at_ms (t - 1))) (at_ms t)).
    split; [| apply ArrayFacts.last_elt_push].
    apply chronological_push.
    + apply chronological_push; [exact Hc |].
      intros y Hy. rewrite Hlast in Hy. inversion Hy; subst.
      apply TimelineFacts.le_at_ms. lia.
    + intros y Hy. rewrite ArrayFacts.last_elt_push in Hy.
      inversion Hy; subst. apply TimelineFacts.le_at_ms. lia.
Qed.

(** The walk over doses in ascending order, none of them before the last
    label, leaves the labels in order. *)
Lemma walk_inOrder (rate : number) (P start second : DateTime)
    (l : list PlotEvent) :
  Forall wellFormed l -> StronglySorted notAfter l ->
  forall (st : Walk) (t' : Z),
    inOrderFrom start second st t' ->
    (forall e, In e l ->
       Num.le (toMillis (at_ms t')) (toMillis (eventTimeDT e)) = true) ->
    exists t, inOrderFrom start second (walk rate P l st) t.
Proof.
  intros Hwf Hs. induction Hs as [| e l Hs IH Hall]; intros st t' Hin Hlow.
  - exists t'. exact Hin.
  - inversion Hwf as [| ? ? ((t & Ht) & _) Hwf']; subst.
    rewrite WalkFacts.walk_cons. apply IH with (t' := t); [exact Hwf' | |].
    + apply step_inOrder with (t' := t'); [exact Hin | exact Ht |].
      specialize (Hlow e (or_introl eq_refl)). rewrite Ht in Hlow.
      now apply TimelineFacts.le_at_ms.
    + intros e' He'. rewrite Forall_forall in Hall.
      specialize (Hall e' He'). unfold notAfter in Hall.
      now rewrite Ht in Hall.
Qed.

(** The point at the current time is added only after the last label. *)
Lemma now_inOrder (rate : number) (P nowDT start second : DateTime)
    (st : Walk) (t : Z) :
  inOrderFrom start second st t ->
  exists more,
    labels (plotNow rate P nowDT st) = start :: second :: more
    /\ chronological (second :: more) = true.
Proof.
  intros (more & Hl & Hc & Hlast).
  assert (Hlast' : last_elt (wk_labels st) = Some (at_ms t))
    by (rewrite Hl; exact Hlast).
  unfold plotNow.
  destruct (negb (isValid nowDT)); [exists more; now split |].
  cbv zeta. rewrite Hlast'.
  destruct (_ || _) eqn:E; cbn [labels].
  - exists (push more nowDT). rewrite Hl. split; [reflexivity |].
    change (second :: push more nowDT) with (push (second :: more) nowDT).
    apply chronological_push; [exact Hc |].
    intros y Hy. rewrite Hlast in Hy. inversion Hy; subst.
    assert (Ha : after nowDT (at_ms t) = true).
    { rewrite Hl in E. exact E. }
    destruct (FinalPoint.after_valid _ _ Ha) as (x & y & -> & Hy' & Hlt).
    rewrite Hy'. unfold Num.le, Num.cmp, toMillis.
    destruct (y ?= x) eqn:E'; try reflexivity.
    apply -> QcFacts.compare_gt in E'. unfold Qclt in *. lra.
  - destruct (_ && _); exists more; now split.
Qed.

(** The labels of the curve are the projected start, then the
    millisecond before the first dose, and from there on they are in
    order; so when the projected start is not later than the millisecond
    before the first dose, the labels never go back in time. *)
Lemma curve_chronological (events : list Event) (w : World)
    (first : PlotEvent) (rest : list PlotEvent) (P : DateTime) :
  sortedEvents w events = first :: rest ->
  projectedStart (currentRate w) first = Ret P ->
  let second := minus_millis (eventTimeDT first) 1 in
  exists d more,
    calculatePlotData events w = Ret d
    /\ labels d = P :: second :: more
    /\ chronological (second :: more) = true
    /\ (Num.le (toMillis P) (toMillis second) = true ->
        chronological (labels d) = true).
Proof.
  intros Hs HP second.
  pose proof (TimelineFacts.timeline_zone w events Hs) as Hz.
  destruct (TimelineFacts.sortedEvents_sorted w events) as (Hwf & Hsorted & _).
  rewrite Hs in Hwf, Hsorted.
  assert (Ht : exists t0, eventTimeDT first = at_ms t0).
  { inversion Hwf as [| ? ? ((t0 & Ht0) & _) _]; subst. now exists t0. }
  destruct Ht as (t0 & Ht).
  set (rate := currentRate w).
  set (st0 := plotStart rate P (eventTimeDT first)).
  assert (H0 : inOrderFrom P second st0 (t0 - 1)).
  { exists []. split; [reflexivity |]. split; [reflexivity |].
    unfold second. rewrite Ht, minus_millis_at_ms. reflexivity. }
  assert (Hlow : forall e, In e (first :: rest) ->
            Num.le (toMillis (at_ms (t0 - 1))) (toMillis (eventTimeDT e)) = true).
  { intros e He. rewrite Forall_forall in Hwf.
    destruct (Hwf e He) as ((t & Hte) & _). rewrite Hte.
    apply TimelineFacts.le_at_ms.
    assert (Hle : (t0 <= t)%Z).
    { destruct He as [<- | He].
      - rewrite Ht in Hte. apply TimelineFacts.at_ms_inj in Hte. lia.
      - inversion Hsorted as [| ? ? _ Hall]; subst.
        rewrite Forall_forall in Hall. specialize (Hall e He).
        unfold notAfter in Hall. rewrite Ht, Hte in Hall.
        now apply TimelineFacts.le_at_ms. }
    lia. }
  destruct (@walk_inOrder rate P P second (first :: rest) Hwf Hsorted st0
              (t0 - 1) H0 Hlow) as (t & Hin).
  destruct (@now_inOrder rate P (at_ms (clock w)) P second _ t Hin)
    as (more & Hlabels & Hc).
  exists (plotNow rate P (at_ms (clock w)) (walk rate P (first :: rest) st0)),
    more.
  split; [now apply PlotFacts.calculatePlotData_unfold |].
  split; [exact Hlabels |]. split; [exact Hc |].
  intros Hle. rewrite Hlabels, chronological_cons, Hc, Hle. reflexivity.
Qed.

(** C4 fails on the code when the first dose lasts less than a
    millisecond at the rate.  A first dose of amount 0, which the checks of
    [calculatePlotData] let through, at one unit per hour: the projected
    start is the instant of the dose itself, and the second label, one
    millisecond before the dose, is before the first.  The same with one
    unit at 7200000 units per hour, where the projected start is half a
    millisecond before the dose. *)
Theorem C4_labels_go_back_for_short_first_dose :
  calculatePlotData [dose 0 0] (page (Num.of_Z 1) [dose 0 0] hour) =
  Ret {| labels := [at_ms 0; at_ms (-1); at_ms (-1); at_ms 0; at_ms hour];
         neededDataPoints :=
           [Num.of_Z 0; Num.of_Z 0; Num.of_Z 0; Num.of_Z 0; Num.of_Z 1] |}
  /\ chronological [at_ms 0; at_ms (-1); at_ms (-1); at_ms 0; at_ms hour]
     = false
  /\ calculatePlotData [dose 1 0] (page (Num.of_Z 7200000) [dose 1 0] hour) =
     Ret {| labels :=
              [DT (Q2Qc (-1 # 2)); at_ms (-1); at_ms (-1); at_ms 0; at_ms hour];
            neededDataPoints :=
              [Num.of_Z 0; Num.of_Z 1; Num.of_Z 1; Num.of_Z 0;
               Num.of_Z 7200000] |}
  /\ chronological
       [DT (Q2Qc (-1 # 2)); at_ms (-1); at_ms (-1); at_ms 0; at_ms hour]
     = false.
Proof.
  split; [| split; [| split]].
  - apply PlotFacts.plot_is. vm_compute. reflexivity.
  - vm_compute. reflexivity.
  - apply PlotFacts.plot_is. vm_compute. reflexivity.
  - vm_compute. reflexivity.
Qed.

End Chronology.

(** ** A scenario of the specification, run on the code *)

Module Scenarios.
Import Client Terms Examples.

(** Two doses on one instant: the instant appears twice, once for the need
    before the second dose and once for the need after it, and no number on
    the curve is NaN. *)
Example same_instant_curve :
  calculatePlotData halves halvesPage =
  Ret {| labels :=
           [at_ms (- 1800000); at_ms (-1); at_ms (-1); at_ms 0; at_ms 0;
            at_ms (2 * hour)];
         neededDataPoints :=
           [Num.of_Z 0; half_unit; half_unit; Num.of_Z 0;
            Num.neg half_unit; Num.sub (Num.of_Z 2) half_unit] |}.
Proof. apply PlotFacts.plot_is. vm_compute. reflexivity. Qed.

End Scenarios.

(** ** Text: trimming and the two date patterns *)

Module TextFacts.
Import SheetApp Terms.
Local Open Scope string_scope.
Local Open Scope nat_scope.

Lemma digit_not_whiteSpace (c : ascii) : isDigit c = true -> isWhiteSpace c = false.
Proof.
  destruct c as [[] [] [] [] [] [] [] []]; vm_compute; congruence.
Qed.

Lemma trimStart_clean (s : string) : noWhiteSpace s = true -> trimStart s = s.
Proof.
  destruct s as [| c s]; cbn [noWhiteSpace trimStart]; [reflexivity |].
  destruct (isWhiteSpace c); [discriminate | reflexivity].
Qed.

Lemma trimEnd_clean (s : string) : noWhiteSpace s = true -> trimEnd s = s.
Proof.
  induction s as [| c s IH]; cbn [noWhiteSpace trimEnd]; [reflexivity |].
  destruct (isWhiteSpace c) eqn:E; [discriminate |]. cbn [negb andb]. intros H.
  rewrite (IH H). destruct s; [reflexivity | reflexivity].
Qed.

(** Trimming changes nothing in a string without whitespace. *)
Lemma trim_clean (s : string) : noWhiteSpace s = true -> trim s = s.
Proof.
  intros H. unfold trim. rewrite (trimStart_clean _ H). now apply trimEnd_clean.
Qed.

Lemma noWhiteSpace_app (p s : string) :
  noWhiteSpace (p ++ s) = noWhiteSpace p && noWhiteSpace s.
Proof.
  induction p as [| c p IH]; cbn [noWhiteSpace append]; [reflexivity |].
  rewrite IH. now rewrite andb_assoc.
Qed.

Lemma length_append (p s : string) :
  String.length (p ++ s) = String.length p + String.length s.
Proof. induction p as [| c p IH]; simpl; [reflexivity | now rewrite IH]. Qed.

Lemma append_assoc (p q r : string) : p ++ (q ++ r) = (p ++ q) ++ r.
Proof. induction p as [| c p IH]; simpl; [reflexivity | now rewrite IH]. Qed.

(** A matcher that, when it succeeds, has read exactly [n] characters,
    none of them whitespace. *)
Definition reads (f : string -> option string) (n : nat) : Prop :=
  forall s r, f s = Some r ->
    exists p, s = p ++ r /\ String.length p = n /\ noWhiteSpace p = true.

Lemma digits_reads (n : nat) : reads (digits n) n.
Proof.
  induction n as [| n IH]; intros s r H; simpl in H.
  - inversion H; subst. now exists "".
  - destruct s as [| c s]; [discriminate |].
    destruct (isDigit c) eqn:E; [| discriminate].
    destruct (IH s r H) as (p & -> & Hl & Hc).
    exists (String c p). cbn [append String.length noWhiteSpace].
    rewrite Hl, Hc, (digit_not_whiteSpace _ E). repeat split.
Qed.

Lemma lit_reads (c : ascii) : isWhiteSpace c = false -> reads (lit c) 1.
Proof.
  intros Hc s r H. destruct s as [| c' s]; simpl in H; [discriminate |].
  destruct (Ascii.eqb c c') eqn:E; [| discriminate].
  apply Ascii.eqb_eq in E. subst c'. inversion H; subst.
  exists (String c ""). cbn [append String.length noWhiteSpace].
  rewrite Hc. repeat split.
Qed.

Lemma andThen_reads (f g : string -> option string) (n m : nat) :
  reads f n -> reads g m -> reads (fun s => andThen (f s) g) (n + m).
Proof.
  intros Hf Hg s r H. unfold andThen in H.
  destruct (f s) as [t |] eqn:E; [| discriminate].
  destruct (Hf s t E) as (p & -> & Hl & Hc).
  destruct (Hg t r H) as (q & -> & Hl' & Hc').
  exists (p ++ q). rewrite length_append, noWhiteSpace_app, Hl, Hl', Hc, Hc'.
  repeat split. apply append_assoc.
Qed.

Lemma datePart_reads : reads datePart 10.
Proof.
  unfold datePart.
  apply (@andThen_reads (digits 4) _ 4 6); [apply digits_reads |].
  apply (@andThen_reads (lit "-") _ 1 5); [apply lit_reads; reflexivity |].
  apply (@andThen_reads (digits 2) _ 2 3); [apply digits_reads |].
  apply (@andThen_reads (lit "-") _ 1 2); [apply lit_reads; reflexivity |].
  apply digits_reads.
Qed.

Lemma timePart_reads : reads timePart 8.
Proof.
  unfold timePart.
  apply (@andThen_reads (digits 2) _ 2 6); [apply digits_reads |].
  apply (@andThen_reads (lit ":") _ 1 5); [apply lit_reads; reflexivity |].
  apply (@andThen_reads (digits 2) _ 2 3); [apply digits_reads |].
  apply (@andThen_reads (lit ":") _ 1 2); [apply lit_reads; reflexivity |].
  apply digits_reads.
Qed.

(** A matcher that reads [n] characters and arrives at the end has read
    the whole string. *)
Lemma reads_to_end (f : string -> option string) (n : nat) (s : string) :
  reads f n -> matchesEnd (f s) = true ->
  noWhiteSpace s = true /\ String.length s = n.
Proof.
  intros Hf H. destruct (f s) as [r |] eqn:E; [| discriminate].
  destruct r; [| discriminate].
  destruct (Hf s _ E) as (p & -> & Hl & Hc).
  rewrite noWhiteSpace_app, length_append, Hl, Hc. simpl. split; [reflexivity | lia].
Qed.

Lemma reads_then (f : string -> option string) (n m : nat) (s r : string) :
  reads f n -> f s = Some r ->
  noWhiteSpace r = true -> String.length r <= m ->
  noWhiteSpace s = true /\ n <= String.length s <= n + m.
Proof.
  intros Hf E Hc Hl. destruct (Hf s r E) as (p & -> & Hl' & Hc').
  rewrite noWhiteSpace_app, length_append, Hl', Hc', Hc. split; [reflexivity | lia].
Qed.

Lemma sign_reads :
  reads (fun s => match lit "+" s with Some r => Some r | None => lit "-" s end) 1.
Proof.
  intros s r H. destruct (lit "+" s) as [t |] eqn:E.
  - inversion H; subst. now apply (@lit_reads "+"%char eq_refl).
  - now apply (@lit_reads "-"%char eq_refl).
Qed.

Lemma zoneToEnd_clean (s : string) :
  zoneToEnd s = true -> noWhiteSpace s = true /\ String.length s <= 6.
Proof.
  unfold zoneToEnd. intros H.
  apply orb_true_iff in H. destruct H as [H | H];
    [apply orb_true_iff in H; destruct H as [H | H] |].
  - destruct s; [split; [reflexivity | simpl; lia] | discriminate].
  - destruct (@reads_to_end (lit "Z") 1 s (@lit_reads "Z"%char eq_refl) H) as [Hc Hl].
    split; [exact Hc | lia].
  - cbv zeta in H.
    set (signed := match lit "+" s with Some r => Some r | None => lit "-" s end) in H.
    destruct (andThen signed (digits 2)) as [r |] eqn:E; [| discriminate].
    assert (Hr : reads (fun s => andThen
                   (match lit "+" s with Some r => Some r | None => lit "-" s end)
                   (digits 2)) 3)
      by (apply (@andThen_reads _ (digits 2) 1 2);
          [apply sign_reads | apply digits_reads]).
    apply orb_true_iff in H. destruct H as [H | H].
    + destruct r; [| discriminate].
      destruct (Hr s "" E) as (p & -> & Hl & Hc).
      rewrite noWhiteSpace_app, length_append, Hl, Hc. simpl. split; [reflexivity | lia].
    + assert (Hr' : reads (fun r => andThen (lit ":" r) (digits 2)) 3)
        by (apply (@andThen_reads (lit ":") (digits 2) 1 2);
            [apply lit_reads; reflexivity | apply digits_reads]).
      destruct (reads_to_end r Hr' H) as [Hc Hl].
      destruct (@reads_then _ 3 3 s r Hr E Hc) as [Hc' Hl']; [lia |].
      split; [exact Hc' | lia].
Qed.

Lemma fractionToEnd_clean (s : string) :
  fractionToEnd s = true -> noWhiteSpace s = true /\ String.length s <= 10.
Proof.
  unfold fractionToEnd. intros H.
  apply orb_true_iff in H. destruct H as [H | H].
  - destruct (zoneToEnd_clean _ H). split; [assumption | lia].
  - destruct (lit "." s) as [r |] eqn:E; [| discriminate].
    assert (Hz : exists n t, n <= 3 /\ digits n r = Some t /\ zoneToEnd t = true).
    { apply orb_true_iff in H. destruct H as [H | H];
        [apply orb_true_iff in H; destruct H as [H | H] |].
      - destruct (digits 3 r) as [t |] eqn:E'; [| discriminate]. exists 3, t. auto.
      - destruct (digits 2 r) as [t |] eqn:E'; [| discriminate]. exists 2, t. auto.
      - destruct (digits 1 r) as [t |] eqn:E'; [| discriminate]. exists 1, t. auto. }
    destruct Hz as (n & t & Hn & Ed & Hzone).
    destruct (zoneToEnd_clean _ Hzone) as [Hc Hl].
    destruct (@reads_then _ n 6 r t (digits_reads n) Ed Hc Hl) as [Hc' Hl'].
    destruct (@reads_then _ 1 9 s r (@lit_reads "."%char eq_refl) E Hc') as [Hc'' Hl''];
      [lia |].
    split; [exact Hc'' | lia].
Qed.

Lemma dateTime_clean (s : string) :
  isoDateTimeRegex s = true ->
  noWhiteSpace s = true /\ 19 <= String.length s <= 29.
Proof.
  unfold isoDateTimeRegex. intros H.
  destruct (andThen (andThen (datePart s) (lit "T")) timePart) as [r |] eqn:E;
    [| discriminate].
  destruct (fractionToEnd_clean _ H) as [Hc Hl].
  assert (Hr : reads (fun s => andThen (andThen (datePart s) (lit "T")) timePart) 19).
  { apply (@andThen_reads (fun s => andThen (datePart s) (lit "T")) timePart 11 8);
      [| apply timePart_reads].
    apply (@andThen_reads datePart (lit "T") 10 1);
      [apply datePart_reads | apply lit_reads; reflexivity]. }
  apply (@reads_then _ 19 10 s r Hr E Hc Hl).
Qed.

Lemma dateOnly_clean (s : string) :
  isoDateOnlyRegex s = true -> noWhiteSpace s = true /\ String.length s = 10.
Proof. intros H. now apply (reads_to_end s datePart_reads). Qed.

Lemma trimEnd_head (c : ascii) (s : string) :
  isWhiteSpace c = false -> exists t, trimEnd (String c s) = String c t.
Proof.
  intros H. cbn [trimEnd]. destruct (trimEnd s); [rewrite H |]; eauto.
Qed.

Lemma trimStart_head (s : string) :
  trimStart s = EmptyString
  \/ exists c t, trimStart s = String c t /\ isWhiteSpace c = false.
Proof.
  induction s as [| c s IH]; cbn [trimStart]; [now left |].
  destruct (isWhiteSpace c) eqn:E; [exact IH |]. right. eauto.
Qed.

(** A string that is blank once trimmed holds nothing to parse. *)
Lemma trimStart_blank (s : string) : trim s = EmptyString -> trimStart s = EmptyString.
Proof.
  unfold trim. intros H.
  destruct (trimStart_head s) as [E | (c & t & E & Hc)]; [exact E |].
  rewrite E in H. destruct (@trimEnd_head c t Hc) as (t' & E').
  rewrite E' in H. discriminate.
Qed.

Lemma parseFloat_blank (s : string) : trim s = EmptyString -> Num.isNaN (parseFloat s) = true.
Proof.
  intros H. unfold parseFloat. rewrite (trimStart_blank _ H). reflexivity.
Qed.

(** X11.  A date that passes the format check of the two handlers holds
    no whitespace, so trimming it changes nothing: the add handler stores
    it exactly as it was sent, and the remove handler looks for exactly
    what was sent.  It has ten characters when it is a date only, and
    between 19 and 29 when it has a time. *)
Theorem accepted_date_has_no_whitespace (s : string) :
  isoDateTimeRegex s || isoDateOnlyRegex s = true ->
  noWhiteSpace s = true
  /\ trim s = s
  /\ 10 <= String.length s <= 29
  /\ (isoDateOnlyRegex s = true -> String.length s = 10)
  /\ (isoDateTimeRegex s = true -> 19 <= String.length s).
Proof.
  intros H.
  assert (Hc : noWhiteSpace s = true /\ 10 <= String.length s <= 29).
  { apply orb_true_iff in H. destruct H as [H | H].
    - destruct (dateTime_clean _ H). split; [assumption | lia].
    - destruct (dateOnly_clean _ H). split; [assumption | lia]. }
  destruct Hc as [Hc Hl]. split; [exact Hc |].
  split; [now apply trim_clean |]. split; [exact Hl |]. split.
  - intros Hd. now apply dateOnly_clean.
  - intros Hd. now apply dateTime_clean.
Qed.

(** X11 on a date with a time, a fraction and a zone. *)
Lemma accepted_date_has_no_whitespace_witness :
  noWhiteSpace Examples.mayFirst = true
  /\ trim Examples.mayFirst = Examples.mayFirst
  /\ 10 <= String.length Examples.mayFirst <= 29
  /\ (isoDateOnlyRegex Examples.mayFirst = true ->
      String.length Examples.mayFirst = 10)
  /\ (isoDateTimeRegex Examples.mayFirst = true ->
      19 <= String.length Examples.mayFirst).
Proof.
  apply (@accepted_date_has_no_whitespace Examples.mayFirst). reflexivity.
Defined.

End TextFacts.

(** ** The sheet as a store: headers, adding, reading *)

Module SheetStore.
Import SheetApp Terms.
Local Open Scope nat_scope.

Lemma lastRow_zero_blank (sheet : Sheet) (r : Row) :
  getLastRow sheet = 0 -> In r sheet -> hasContent r = false.
Proof.
  intros H Hin. destruct (hasContent r) eqn:E; [| reflexivity].
  apply In_nth_error in Hin. destruct Hin as (k & Hk).
  pose proof (SheetRemoval.getLastRow_content sheet k Hk E). lia.
Qed.

(** No row below the last row has content. *)
Lemma below_last_row_blank (sheet : Sheet) (n : nat) (r : Row) :
  getLastRow sheet <= n -> In r (skipn n sheet) -> hasContent r = false.
Proof.
  intros Hn Hin. destruct (hasContent r) eqn:E; [| reflexivity].
  apply In_nth_error in Hin. destruct Hin as (k & Hk).
  rewrite nth_error_skipn in Hk.
  pose proof (SheetRemoval.getLastRow_content sheet (n + k) Hk E). lia.
Qed.

Lemma getLastRow_blank (l : Sheet) :
  (forall r, In r l -> hasContent r = false) -> getLastRow l = 0.
Proof.
  induction l as [| r l IH]; intros H; simpl; [reflexivity |].
  rewrite IH by (intros r' Hr'; apply H; now right).
  now rewrite (H r (or_introl eq_refl)).
Qed.

Lemma getLastRow_app (l l' : Sheet) :
  getLastRow l' <> 0 -> getLastRow (l ++ l') = List.length l + getLastRow l'.
Proof.
  intros H. induction l as [| r l IH]; simpl; [reflexivity |].
  rewrite IH. destruct (List.length l + getLastRow l') eqn:E; lia.
Qed.

(** The appended row becomes the last row. *)
Lemma getLastRow_appendRow (row : Row) (sheet : Sheet) :
  hasContent row = true -> getLastRow (appendRow row sheet) = S (getLastRow sheet).
Proof.
  intros Hc. unfold appendRow.
  assert (H1 : getLastRow (row :: skipn (S (getLastRow sheet)) sheet) = 1).
  { simpl getLastRow. rewrite getLastRow_blank, Hc; [reflexivity |].
    intros r Hr. apply (@below_last_row_blank sheet (S (getLastRow sheet))); [lia | exact Hr]. }
  rewrite getLastRow_app by (rewrite H1; discriminate).
  rewrite H1, length_firstn.
  pose proof (SheetRemoval.getLastRow_le_length sheet). lia.
Qed.

(** The three things [_internalEnsureHeaders] does. *)
Lemma ensure_cases (sheet : Sheet) :
  (getLastRow sheet = 0 /\ _internalEnsureHeaders sheet = headerRow :: tl sheet)
  \/ (getLastRow sheet <> 0
      /\ exists rest, sheet = headerRow :: rest /\ _internalEnsureHeaders sheet = sheet)
  \/ (getLastRow sheet <> 0 /\ hd_error sheet <> Some headerRow
      /\ _internalEnsureHeaders sheet = headerRow :: sheet).
Proof.
  unfold _internalEnsureHeaders.
  destruct (getLastRow sheet =? 0) eqn:E.
  - apply Nat.eqb_eq in E. left. split; [exact E |]. now destruct sheet.
  - apply Nat.eqb_neq in E. right.
    destruct sheet as [| [v1 v2] rest]; [now elim E |].
    cbn [fst snd].
    destruct (differsFrom v1 DATE_HEADER || differsFrom v2 AMOUNT_HEADER) eqn:D.
    + right. split; [exact E |]. split; [| reflexivity].
      intros H. inversion H; subst. discriminate.
    + left. split; [exact E |]. exists rest. split; [| reflexivity].
      apply orb_false_iff in D. destruct D as [D1 D2].
      unfold differsFrom in D1, D2.
      destruct v1 as [s1 | | |]; try discriminate.
      destruct v2 as [s2 | | |]; try discriminate.
      destruct (string_dec s1 DATE_HEADER); [| discriminate].
      destruct (string_dec s2 AMOUNT_HEADER); [| discriminate].
      subst. reflexivity.
Qed.

Lemma ensure_head (sheet : Sheet) :
  exists entries, _internalEnsureHeaders sheet = headerRow :: entries.
Proof.
  destruct (ensure_cases sheet) as [[_ ->] | [(_ & rest & E & ->) | (_ & _ & ->)]];
    eauto.
Qed.

Lemma ensure_idempotent (sheet : Sheet) :
  _internalEnsureHeaders (_internalEnsureHeaders sheet) = _internalEnsureHeaders sheet.
Proof.
  destruct (ensure_head sheet) as (entries & ->). apply SheetRemoval.header_kept.
Qed.

Lemma header_lastRow (entries : list Row) : 1 <= getLastRow (headerRow :: entries).
Proof.
  apply (@SheetRemoval.getLastRow_content (headerRow :: entries) 0 headerRow);
    reflexivity.
Qed.

(** X1.  [_internalEnsureHeaders] leaves the header row in row 1 whatever
    the sheet held: a sheet that starts with the header row is left as it
    is; on a sheet without content the header is written into row 1; on any
    other sheet a row is inserted for it above row 1.  No row with content
    is lost, and a second call changes nothing. *)
Theorem ensureHeaders_header_in_row_one (sheet : Sheet) :
  let sheet' := _internalEnsureHeaders sheet in
  hd_error sheet' = Some headerRow
  /\ (hd_error sheet = Some headerRow -> sheet' = sheet)
  /\ (getLastRow sheet = 0 -> sheet' = headerRow :: tl sheet)
  /\ (getLastRow sheet <> 0 -> hd_error sheet <> Some headerRow ->
      sheet' = headerRow :: sheet)
  /\ (forall r, In r sheet -> hasContent r = true -> In r sheet')
  /\ _internalEnsureHeaders sheet' = sheet'.
Proof.
  cbv zeta. split; [| split; [| split; [| split; [| split]]]].
  - destruct (ensure_head sheet) as (entries & ->). reflexivity.
  - intros H. destruct sheet as [| r rest]; [discriminate |].
    inversion H; subst. apply SheetRemoval.header_kept.
  - intros H.
    destruct (ensure_cases sheet) as [[_ E] | [(Hn & _) | (Hn & _)]];
      [exact E | contradiction | contradiction].
  - intros Hn Hh.
    destruct (ensure_cases sheet) as [[H0 _] | [(_ & rest & E & _) | (_ & _ & E)]].
    + contradiction.
    + subst. now elim Hh.
    + exact E.
  - intros r Hin Hc.
    destruct (ensure_cases sheet) as [[H0 _] | [(_ & rest & _ & ->) | (_ & _ & ->)]].
    + rewrite (lastRow_zero_blank sheet r H0 Hin) in Hc. discriminate.
    + exact Hin.
    + now right.
  - apply ensure_idempotent.
Qed.

(** X2.  [handleEnsureHeaders] answers with [headersChanged] false exactly
    when it left the sheet as it was, and fails, touching nothing, when the
    sheet is missing. *)
Theorem headersChanged_tells_the_change (sheet : Sheet) :
  (exists message changed,
     handleEnsureHeaders (Some sheet) =
     (HeadersSuccess message changed, Some (_internalEnsureHeaders sheet))
     /\ (changed = false <-> _internalEnsureHeaders sheet = sheet))
  /\ handleEnsureHeaders None = (HeadersFailure sheetNotFound, None).
Proof.
  split; [| reflexivity].
  exists (snd (ensureHeadersResult sheet)), (fst (ensureHeadersResult sheet)).
  split; [reflexivity |].
  unfold ensureHeadersResult, _internalEnsureHeaders.
  destruct (getLastRow sheet =? 0) eqn:E.
  - apply Nat.eqb_eq in E. cbn [fst]. split; [discriminate |].
    intros H. exfalso.
    assert (Hs : sheet = headerRow :: tl sheet) by (destruct sheet; simpl in *; congruence).
    rewrite Hs in E. pose proof (header_lastRow (tl sheet)). lia.
  - cbv zeta.
    destruct (differsFrom _ DATE_HEADER || differsFrom _ AMOUNT_HEADER);
      cbn [fst]; split; try reflexivity; try discriminate.
    intros H. exfalso. apply (f_equal (@List.length Row)) in H.
    simpl in H. lia.
Qed.

(** What [handleAddData] does with a date and an amount that are both
    present. *)
Lemma add_accepted (d f : string) (sheet : Sheet) :
  acceptable d f = true ->
  handleAddData (Some d) (Some f) (Some sheet) =
  (AddSuccess "Data added successfully with ISO date string.",
   Some (appendRow (VString d, VNumber (parseFloat f)) (_internalEnsureHeaders sheet))).
Proof.
  unfold acceptable. intros H. apply andb_true_iff in H. destruct H as [Hd Hf].
  apply negb_true_iff in Hf.
  assert (Ht : trim d = d).
  { apply TextFacts.trim_clean. apply orb_true_iff in Hd.
    destruct Hd as [Hd | Hd];
      [apply TextFacts.dateTime_clean in Hd | apply TextFacts.dateOnly_clean in Hd];
      apply Hd. }
  unfold handleAddData. rewrite Ht.
  destruct (string_dec d "") as [-> | _]; [discriminate |].
  destruct (string_dec (trim f) "") as [E | _].
  { apply TextFacts.parseFloat_blank in E. congruence. }
  replace (negb (isoDateTimeRegex d) && negb (isoDateOnlyRegex d)) with false
    by (destruct (isoDateTimeRegex d), (isoDateOnlyRegex d); simpl in *; congruence).
  cbv zeta. rewrite Hf. reflexivity.
Qed.

Lemma add_refused (dateStr floatValueStr : option string) (ss : Spreadsheet) :
  match dateStr, floatValueStr, ss with
  | Some d, Some f, Some _ => acceptable d f = false
  | _, _, _ => True
  end ->
  exists error, handleAddData dateStr floatValueStr ss = (AddFailure error, ss).
Proof.
  intros H. unfold handleAddData.
  destruct dateStr as [d |]; [| eauto].
  destruct (string_dec (trim d) ""); [eauto |].
  destruct floatValueStr as [f |]; [| eauto].
  destruct (string_dec (trim f) ""); [eauto |].
  destruct (negb (isoDateTimeRegex d) && negb (isoDateOnlyRegex d)) eqn:Er; [eauto |].
  cbv zeta. destruct (Num.isNaN (parseFloat f)) eqn:En; [eauto |].
  destruct ss as [sheet |]; [| eauto].
  exfalso. unfold acceptable in H. rewrite En in H.
  destruct (isoDateTimeRegex d), (isoDateOnlyRegex d); simpl in *; congruence.
Qed.

(** X3.  [handleAddData] accepts a request exactly when the date is present
    and matches one of the two patterns, the amount is present and parses
    to a number, and the sheet exists.  It then writes the date exactly as
    it was sent, with the parsed amount, below the last row of the sheet
    with its headers ensured.  Every other request is answered with a
    failure and leaves the spreadsheet as it was. *)
Theorem add_accepts_exactly (dateStr floatValueStr : option string)
    (ss : Spreadsheet) :
  match dateStr, floatValueStr, ss with
  | Some d, Some f, Some sheet =>
      if acceptable d f
      then exists message,
             handleAddData dateStr floatValueStr ss =
             (AddSuccess message,
              Some (appendRow (VString d, VNumber (parseFloat f))
                      (_internalEnsureHeaders sheet)))
      else exists error,
             handleAddData dateStr floatValueStr ss = (AddFailure error, ss)
  | _, _, _ =>
      exists error, handleAddData dateStr floatValueStr ss = (AddFailure error, ss)
  end.
Proof.
  destruct dateStr as [d |]; [| now apply add_refused].
  destruct floatValueStr as [f |]; [| now apply add_refused].
  destruct ss as [sheet |]; [| now apply add_refused].
  destruct (acceptable d f) eqn:E.
  - eexists. now apply add_accepted.
  - now apply add_refused.
Qed.

Lemma entry_has_content (v : Value) (x : number) : hasContent (v, VNumber x) = true.
Proof. unfold hasContent. simpl. apply orb_true_r. Qed.

Lemma nth_error_appendRow_kept (row : Row) (sheet : Sheet) (k : nat) (r : Row) :
  nth_error sheet k = Some r -> hasContent r = true ->
  nth_error (appendRow row sheet) k = Some r.
Proof.
  intros Hk Hc. pose proof (SheetRemoval.getLastRow_content sheet k Hk Hc) as Hl.
  unfold appendRow. rewrite nth_error_app1.
  - rewrite nth_error_firstn. replace (k <? getLastRow sheet) with true; [exact Hk |].
    symmetry. apply Nat.ltb_lt. lia.
  - rewrite length_firstn. pose proof (SheetRemoval.getLastRow_le_length sheet). lia.
Qed.

Lemma nth_error_appendRow_new (row : Row) (sheet : Sheet) :
  nth_error (appendRow row sheet) (getLastRow sheet) = Some row.
Proof.
  unfold appendRow. rewrite nth_error_app2; rewrite length_firstn;
    pose proof (SheetRemoval.getLastRow_le_length sheet) as H.
  - replace (getLastRow sheet - Nat.min (getLastRow sheet) (List.length sheet)) with 0 by lia.
    reflexivity.
  - lia.
Qed.

(** Appending below a sheet that starts with the header row keeps the
    header row. *)
Lemma appendRow_header (row : Row) (entries : list Row) :
  exists entries', appendRow row (headerRow :: entries) = headerRow :: entries'.
Proof.
  unfold appendRow. pose proof (header_lastRow entries) as H.
  destruct (getLastRow (headerRow :: entries)) as [| n]; [lia |].
  simpl. eauto.
Qed.

(** X4.  An accepted request adds one row and touches no other: afterwards
    the header row is in row 1, the last row is one further down and holds
    the date and the amount, and every row that had content is where it
    was. *)
Theorem add_appends_one_entry (d f : string) (sheet : Sheet) :
  acceptable d f = true ->
  let before := _internalEnsureHeaders sheet in
  exists message sheet',
    handleAddData (Some d) (Some f) (Some sheet) = (AddSuccess message, Some sheet')
    /\ hd_error sheet' = Some headerRow
    /\ getLastRow sheet' = S (getLastRow before)
    /\ nth_error sheet' (getLastRow before) = Some (VString d, VNumber (parseFloat f))
    /\ forall k r, nth_error before k = Some r -> hasContent r = true ->
         nth_error sheet' k = Some r.
Proof.
  intros H before. rewrite (add_accepted d f sheet H). fold before.
  do 2 eexists. split; [reflexivity |]. split; [| split; [| split]].
  - unfold before. destruct (ensure_head sheet) as (entries & ->).
    destruct (appendRow_header (VString d, VNumber (parseFloat f)) entries)
      as (entries' & ->). reflexivity.
  - apply getLastRow_appendRow, entry_has_content.
  - apply nth_error_appendRow_new.
  - intros k r. apply nth_error_appendRow_kept.
Qed.

(** X4 for an entry of one and a half units added to a sheet that holds
    four entries and no header row yet. *)
Lemma add_appends_one_entry_witness :
  let before := _internalEnsureHeaders Examples.fourEntries in
  exists message sheet',
    handleAddData (Some Examples.mayFirst) (Some Examples.oneAndHalf)
      (Some Examples.fourEntries)
    = (AddSuccess message, Some sheet')
    /\ hd_error sheet' = Some headerRow
    /\ getLastRow sheet' = S (getLastRow before)
    /\ nth_error sheet' (getLastRow before)
       = Some (VString Examples.mayFirst, VNumber (parseFloat Examples.oneAndHalf))
    /\ forall k r, nth_error before k = Some r -> hasContent r = true ->
         nth_error sheet' k = Some r.
Proof.
  apply (@add_appends_one_entry Examples.mayFirst Examples.oneAndHalf
           Examples.fourEntries).
  reflexivity.
Defined.

Lemma firstn_S_nth (A : Type) (l : list A) (k : nat) (x : A) :
  nth_error l k = Some x -> firstn (S k) l = push (firstn k l) x.
Proof.
  unfold push. revert k. induction l as [| a l IH]; intros [| k] H;
    simpl in *; try discriminate.
  - now inversion H.
  - f_equal. now apply IH.
Qed.

Lemma map_push (A B : Type) (g : A -> B) (l : list A) (x : A) :
  map g (push l x) = push (map g l) (g x).
Proof. unfold push. now rewrite map_app. Qed.

(** The rows [handleGetData] reads from a sheet whose last row is row
    [S n]: row 2 through that row. *)
Lemma read_rows_end (sheet : Sheet) (n : nat) (row : Row) :
  nth_error sheet (S n) = Some row ->
  map toItem (firstn (S n) (skipn 1 sheet)) =
  push (map toItem (firstn n (skipn 1 sheet))) (toItem row).
Proof.
  intros H. rewrite <- map_push. f_equal. apply firstn_S_nth.
  destruct sheet; [discriminate | exact H].
Qed.

(** X5.  An entry that was added is read back: after an accepted request,
    [handleGetData] leaves the sheet as it is and returns one item for
    every row from row 2 through the new row, the last of them holding the
    date as it was sent and the parsed amount. *)
Theorem added_entry_is_read_back (d f : string) (sheet : Sheet) :
  acceptable d f = true ->
  let ss' := snd (handleAddData (Some d) (Some f) (Some sheet)) in
  exists data,
    handleGetData ss' = (GetSuccess data, ss')
    /\ last_elt data =
         Some {| itemDate := VString d; itemValue := Some (parseFloat f) |}
    /\ List.length data = getLastRow (_internalEnsureHeaders sheet).
Proof.
  intros H ss'. unfold ss'. rewrite (add_accepted d f sheet H). cbn [snd].
  set (row := (VString d, VNumber (parseFloat f))).
  set (before := _internalEnsureHeaders sheet).
  assert (HL : getLastRow (appendRow row before) = S (getLastRow before))
    by apply getLastRow_appendRow, entry_has_content.
  assert (Hh : _internalEnsureHeaders (appendRow row before) = appendRow row before).
  { unfold before. destruct (ensure_head sheet) as (entries & ->).
    destruct (appendRow_header row entries) as (entries' & ->).
    apply SheetRemoval.header_kept. }
  assert (Hpos : 1 <= getLastRow before).
  { unfold before. destruct (ensure_head sheet) as (entries & ->).
    apply header_lastRow. }
  unfold handleGetData. rewrite HL.
  replace (S (getLastRow before) <=? 1) with false
    by (symmetry; apply Nat.leb_gt; lia).
  cbv zeta. rewrite Hh, HL.
  eexists. split; [reflexivity |].
  replace (S (getLastRow before) - 1) with (S (getLastRow before - 1)) by lia.
  rewrite read_rows_end with (row := row).
  - split; [apply ArrayFacts.last_elt_push |].
    rewrite ArrayFacts.length_push, length_map, length_firstn, length_skipn.
    assert (Hlen : S (getLastRow before) <= List.length (appendRow row before)).
    { rewrite <- HL. apply SheetRemoval.getLastRow_le_length. }
    lia.
  - replace (S (getLastRow before - 1)) with (getLastRow before) by lia.
    apply nth_error_appendRow_new.
Qed.

(** X5 for the same request. *)
Lemma added_entry_is_read_back_witness :
  let ss' :=
    snd (handleAddData (Some Examples.mayFirst) (Some Examples.oneAndHalf)
           (Some Examples.fourEntries)) in
  exists data,
    handleGetData ss' = (GetSuccess data, ss')
    /\ last_elt data =
         Some {| itemDate := VString Examples.mayFirst;
                 itemValue := Some (parseFloat Examples.oneAndHalf) |}
    /\ List.length data = getLastRow (_internalEnsureHeaders Examples.fourEntries).
Proof.
  apply (@added_entry_is_read_back Examples.mayFirst Examples.oneAndHalf
           Examples.fourEntries).
  reflexivity.
Defined.

(** A row without content matches no target that is not empty. *)
Lemma blank_row_no_match (r : Row) (target : string) :
  target <> EmptyString -> hasContent r = false ->
  cellMatches (fst r) target = false.
Proof.
  intros Hne Hc. destruct (cellMatches (fst r) target) eqn:E; [| reflexivity].
  rewrite (SheetRemoval.match_has_content r Hne E) in Hc. discriminate.
Qed.

Lemma accepted_date_clean (d f : string) :
  acceptable d f = true ->
  trim d = d /\ isoDateTimeRegex d || isoDateOnlyRegex d = true.
Proof.
  unfold acceptable. intros H. apply andb_true_iff in H. destruct H as [Hd _].
  split; [| exact Hd]. apply TextFacts.trim_clean.
  apply orb_true_iff in Hd.
  destruct Hd as [Hd | Hd];
    [apply TextFacts.dateTime_clean in Hd | apply TextFacts.dateOnly_clean in Hd];
    apply Hd.
Qed.

(** X6.  An entry that was added can be taken out again: after an accepted
    request for a date, the removal of that date reports removed = true and
    deletes the row that was added, whatever else the sheet holds; on a
    sheet without blank rows at its end this gives back the sheet as it
    was before the entry was added, with its headers ensured. *)
Theorem added_entry_can_be_removed (d f : string) (sheet : Sheet) :
  acceptable d f = true ->
  let before := _internalEnsureHeaders sheet in
  let rest :=
    (firstn (getLastRow before) before ++ skipn (S (getLastRow before)) before)%list in
  (exists message,
     handleRemoveData (Some d) (snd (handleAddData (Some d) (Some f) (Some sheet))) =
     (Success true message, Some rest))
  /\ (compact before -> rest = before).
Proof.
  intros H before rest. split.
  - rewrite (add_accepted d f sheet H). cbn [snd]. fold before.
    destruct (accepted_date_clean d f H) as [Ht Hfmt].
    unfold rest, appendRow. unfold before.
    destruct (ensure_head sheet) as (entries & ->).
    pose proof (header_lastRow entries) as Hpos.
    destruct (getLastRow (headerRow :: entries)) as [| n] eqn:EL; [lia |].
    cbn [firstn skipn app].
    assert (Hfmt' : isoDateTimeRegex (trim d) || isoDateOnlyRegex (trim d) = true)
      by now rewrite Ht.
    destruct (@SheetRemoval.remove_cases
                (firstn n entries ++ (VString d, VNumber (parseFloat f))
                   :: skipn (S n) entries)%list d Hfmt') as [_ Hlast].
    apply (Hlast (firstn n entries) (VString d, VNumber (parseFloat f))
             (skipn (S n) entries)).
    + reflexivity.
    + cbn [fst]. unfold cellMatches. destruct (string_dec (trim d) (trim d)); congruence.
    + intros r' Hr'. apply blank_row_no_match.
      * rewrite Ht. now apply SheetRemoval.wellFormed_nonempty.
      * apply (@below_last_row_blank (headerRow :: entries) (S (S n))); [lia |].
        exact Hr'.
  - unfold compact. intros Hc. unfold rest. rewrite Hc.
    rewrite firstn_all, skipn_all2 by lia. apply app_nil_r.
Qed.

(** X6 for the same request: the sheet already holds the date twice, and
    the row that goes is the one that was added. *)
Lemma added_entry_can_be_removed_witness :
  let before := _internalEnsureHeaders Examples.fourEntries in
  let rest :=
    (firstn (getLastRow before) before ++ skipn (S (getLastRow before)) before)%list in
  (exists message,
     handleRemoveData (Some Examples.mayFirst)
       (snd (handleAddData (Some Examples.mayFirst) (Some Examples.oneAndHalf)
               (Some Examples.fourEntries))) =
     (Success true message, Some rest))
  /\ (compact before -> rest = before).
Proof.
  apply (@added_entry_can_be_removed Examples.mayFirst Examples.oneAndHalf
           Examples.fourEntries).
  reflexivity.
Defined.

(** X7.  Reading is repeatable: whatever the spreadsheet holds, a second
    [handleGetData] leaves it exactly as the first one left it, and so
    every later call returns what the second returned.  The first call is
    the only one that can write (the header row), and it can return less
    than the second: on a sheet whose only row is an entry it reports no
    data and inserts the header row, after which the entry is reported. *)
Theorem reading_is_repeatable (ss : Spreadsheet) :
  let first := handleGetData ss in
  let second := handleGetData (snd first) in
  snd second = snd first
  /\ handleGetData (snd second) = second
  /\ (forall row, hasContent row = true -> row <> headerRow ->
      fst (handleGetData (Some [row])) = GetSuccess []
      /\ fst (handleGetData (snd (handleGetData (Some [row]))))
         = GetSuccess [toItem row]).
Proof.
  cbv zeta.
  assert (Hsame : snd (handleGetData (snd (handleGetData ss))) = snd (handleGetData ss)).
  { destruct ss as [sheet |]; [| reflexivity].
    assert (Hkeep : forall s, snd (handleGetData (Some (_internalEnsureHeaders s)))
                              = Some (_internalEnsureHeaders s)).
    { intros s. unfold handleGetData.
      destruct (getLastRow (_internalEnsureHeaders s) <=? 1); cbn [snd].
      - rewrite ensure_idempotent. now destruct (_ =? 1).
      - cbv zeta. cbn [snd]. now rewrite ensure_idempotent. }
    unfold handleGetData at 2 3.
    destruct (getLastRow sheet <=? 1) eqn:E1; cbn [snd].
    - destruct (getLastRow sheet =? 1) eqn:E2; [apply Hkeep |].
      unfold handleGetData. rewrite E1, E2. reflexivity.
    - cbv zeta. cbn [snd]. apply Hkeep. }
  split; [exact Hsame |]. split; [now rewrite Hsame |].
  intros row Hc Hne.
  assert (HL : getLastRow [row] = 1) by (simpl; now rewrite Hc).
  assert (He : _internalEnsureHeaders [row] = [headerRow; row]).
  { destruct (ensure_cases [row]) as [[H0 _] | [(_ & rest & E & _) | (_ & _ & E)]].
    - rewrite HL in H0. discriminate.
    - inversion E; subst. now elim Hne.
    - exact E. }
  unfold handleGetData at 1 3. rewrite HL. cbn [Nat.leb Nat.eqb fst snd].
  split; [reflexivity |]. rewrite He.
  unfold handleGetData. rewrite SheetRemoval.header_kept.
  assert (HL2 : getLastRow [headerRow; row] = 2) by (simpl; now rewrite Hc).
  rewrite HL2. reflexivity.
Qed.

(** X8.  On a sheet that starts with the header row and has no blank row
    at its end, [handleGetData] changes nothing and returns one item for
    every entry, in the order of the sheet, each with the date cell as it
    is and the amount cell parsed. *)
Theorem get_returns_every_entry (entries : list Row) :
  compact (headerRow :: entries) ->
  handleGetData (Some (headerRow :: entries)) =
  (GetSuccess (map toItem entries), Some (headerRow :: entries)).
Proof.
  unfold compact. intros Hc. unfold handleGetData.
  rewrite SheetRemoval.header_kept, Hc. cbn [List.length].
  destruct entries as [| r entries].
  - reflexivity.
  - cbn [List.length Nat.leb]. cbv zeta.
    replace (S (S (List.length entries)) - 1) with (List.length (r :: entries))
      by (simpl; lia).
    cbn [skipn]. now rewrite firstn_all.
Qed.

(** X8 on the sheet with the header row and four entries. *)
Lemma get_returns_every_entry_witness :
  handleGetData (Some (headerRow :: Examples.fourEntries)) =
  (GetSuccess (map toItem Examples.fourEntries),
   Some (headerRow :: Examples.fourEntries)).
Proof.
  apply (@get_returns_every_entry Examples.fourEntries). reflexivity.
Defined.

Lemma scanFrom_some (vals : list Value) (target : string) (i k : nat) :
  scanFrom i vals target = Some k ->
  1 <= k <= i /\ cellMatches (nth k vals VEmpty) target = true.
Proof.
  induction i as [| i IH]; simpl; [discriminate |].
  destruct (cellMatches (nth (S i) vals VEmpty) target) eqn:E.
  - intros H. inversion H; subst. split; [lia | exact E].
  - intros H. destruct (IH H). split; [lia | assumption].
Qed.

(** X9.  Whatever the request and the spreadsheet, [handleRemoveData]
    deletes at most one row and never row 1.  A failure leaves the
    spreadsheet as it was; an answer with removed = false leaves the sheet
    as it was or with its headers ensured; an answer with removed = true
    has deleted, from the sheet with its headers ensured, one row between
    row 2 and the last row whose date cell is the trimmed request, and the
    header row is still in row 1. *)
Theorem remove_deletes_one_row_at_most (param : option string) (ss : Spreadsheet) :
  let response := fst (handleRemoveData param ss) in
  let ss' := snd (handleRemoveData param ss) in
  match response with
  | Failure _ => ss' = ss
  | Success false _ =>
      ss' = ss
      \/ exists sheet, ss = Some sheet /\ ss' = Some (_internalEnsureHeaders sheet)
  | Success true _ =>
      exists sheet p k,
        ss = Some sheet /\ param = Some p
        /\ 1 <= k < getLastRow (_internalEnsureHeaders sheet)
        /\ cellMatches (nth k (dateColumn (_internalEnsureHeaders sheet)) VEmpty)
             (trim p) = true
        /\ ss' = Some (deleteRow (k + 1) (_internalEnsureHeaders sheet))
        /\ hd_error (deleteRow (k + 1) (_internalEnsureHeaders sheet))
           = Some headerRow
  end.
Proof.
  cbv zeta. unfold handleRemoveData.
  destruct param as [p |]; [| reflexivity].
  destruct (string_dec (trim p) ""); [reflexivity |].
  destruct (negb (isoDateTimeRegex (trim p)) && negb (isoDateOnlyRegex (trim p)));
    [reflexivity |].
  destruct ss as [sheet |]; [| reflexivity].
  destruct (getLastRow sheet <=? 1); [now left |].
  cbv zeta.
  destruct (scanFrom _ _ _) as [k |] eqn:E; cbn [fst snd].
  - apply scanFrom_some in E. destruct E as [Hk Hm].
    rewrite SheetRemoval.dateColumn_length in Hk.
    exists sheet, p, k. repeat split; try lia; try assumption.
    destruct (ensure_head sheet) as (entries & ->).
    unfold deleteRow. replace (k + 1 - 1) with (S (k - 1)) by lia. reflexivity.
  - right. eauto.
Qed.

End SheetStore.

(** ** The requests of the client at the entry points *)

Module Routing.
Import SheetApp Handlers.

(** X10.  Each of the three requests the client sends arrives at its
    handler: 'get' is sent with GET and 'add' and 'remove' with POST, and
    the entry point of that method runs the handler of the action with the
    parameters of the request.  A GET request, whatever its action, never
    removes or adds an entry: it leaves the spreadsheet as it was or with
    its headers ensured.  A POST request with any other action than 'add'
    and 'remove' is refused and changes nothing. *)
Theorem requests_reach_their_handlers (ss : Spreadsheet) :
  serve (fetchMethod "get") getRequest ss =
    (GetResult (fst (handleGetData ss)), snd (handleGetData ss))
  /\ (forall d f,
        serve (fetchMethod "add") (addRequest d f) ss =
        (AddResult (fst (handleAddData (Some d) (Some f) ss)),
         snd (handleAddData (Some d) (Some f) ss)))
  /\ (forall d,
        serve (fetchMethod "remove") (removeRequest d) ss =
        (RemoveResult (fst (handleRemoveData (Some d) ss)),
         snd (handleRemoveData (Some d) ss)))
  /\ (forall e,
        snd (doGet e ss) = ss
        \/ exists sheet, ss = Some sheet
             /\ snd (doGet e ss) = Some (_internalEnsureHeaders sheet))
  /\ (forall e,
        actionIs (action e) "add" = false ->
        actionIs (action e) "remove" = false ->
        exists error, doPost e ss = (InvalidAction error, ss)).
Proof.
  split; [| split; [| split; [| split]]].
  - change (fetchMethod "get") with GET. unfold serve, doGet, getRequest.
    cbn [action]. change (actionIs (Some "get"%string) "get") with true.
    cbv iota. destruct (handleGetData ss). reflexivity.
  - intros d f. change (fetchMethod "add") with POST.
    unfold serve, doPost, addRequest. cbn [SheetApp.action SheetApp.date SheetApp.floatValue].
    change (actionIs (Some "add"%string) "add") with true.
    cbv iota. destruct (handleAddData (Some d) (Some f) ss). reflexivity.
  - intros d. change (fetchMethod "remove") with POST.
    unfold serve, doPost, removeRequest. cbn [SheetApp.action SheetApp.date SheetApp.floatValue].
    change (actionIs (Some "remove"%string) "add") with false.
    change (actionIs (Some "remove"%string) "remove") with true.
    cbv iota. destruct (handleRemoveData (Some d) ss). reflexivity.
  - intros e. unfold doGet.
    destruct (actionIs (action e) "get").
    + unfold handleGetData. destruct ss as [sheet |]; [| now left].
      destruct (getLastRow sheet <=? 1).
      * destruct (getLastRow sheet =? 1); cbn [snd]; [right; eauto | now left].
      * cbv zeta. cbn [snd]. right. eauto.
    + destruct (actionIs (action e) "ensureHeaders"); [| now left].
      unfold handleEnsureHeaders. destruct ss as [sheet |]; [| now left].
      cbn [snd]. right. eauto.
  - intros e Ha Hr. unfold doPost. rewrite Ha, Hr. eauto.
Qed.

End Routing.

(** ** The list of entries the handlers keep *)

Module EventList.
Import Client Handlers Terms.
Local Open Scope Qc_scope.

Lemma this_at_ms (t : Z) : this (Q2Qc (inject_Z t)) = inject_Z t.
Proof. unfold Q2Qc, this. apply Qred_identity. simpl. apply Z.gcd_1_r. Qed.

(** Written out and parsed again, a whole millisecond is itself. *)
Lemma toISO_at_ms (t : Z) : toISO (at_ms t) = Some t.
Proof.
  unfold toISO, at_ms, fromISO. rewrite this_at_ms. simpl.
  now rewrite Z.quot_1_r.
Qed.

Lemma valid_in_zone (w : World) (iso : option Z) :
  isValid (setZone w (fromISO iso)) = true ->
  exists t, iso = Some t /\ setZone w (fromISO iso) = at_ms t.
Proof.
  unfold setZone. destruct (zoneValid w); [| discriminate].
  destruct iso as [t |]; [| discriminate]. eauto.
Qed.

(** The comparator of [eventsData.sort] decides the order of time: it
    compares two entries as [byMillis] compares the doses with their
    times. *)
Lemma byTime_gt (a b : Event) :
  timed a -> timed b -> Num.gt (byTime a b) Num.zero = true -> notLater b a.
Proof.
  intros [ta Ha] [tb Hb].
  apply (@TimelineFacts.byMillis_gt
           {| eventTimeDT := fromISO (dosageTime a); parsedAmount := Num.zero |}
           {| eventTimeDT := fromISO (dosageTime b); parsedAmount := Num.zero |});
    (split; [eexists; simpl; rewrite ?Ha, ?Hb; reflexivity | split; reflexivity]).
Qed.

Lemma byTime_le (a b : Event) :
  timed a -> timed b -> Num.gt (byTime a b) Num.zero = false -> notLater a b.
Proof.
  intros [ta Ha] [tb Hb].
  apply (@TimelineFacts.byMillis_le
           {| eventTimeDT := fromISO (dosageTime a); parsedAmount := Num.zero |}
           {| eventTimeDT := fromISO (dosageTime b); parsedAmount := Num.zero |});
    (split; [eexists; simpl; rewrite ?Ha, ?Hb; reflexivity | split; reflexivity]).
Qed.

Lemma notLater_trans (a b c : Event) :
  timed a -> timed b -> timed c -> notLater a b -> notLater b c -> notLater a c.
Proof.
  intros [ta Ha] [tb Hb] [tc Hc]. unfold notLater, timeOf.
  rewrite Ha, Hb, Hc.
  change (fromISO (Some ta)) with (at_ms ta).
  change (fromISO (Some tb)) with (at_ms tb).
  change (fromISO (Some tc)) with (at_ms tc).
  rewrite !TimelineFacts.le_at_ms. lia.
Qed.

(** Sorting entries whose times parse puts them in order of time. *)
Lemma sort_inTimeOrder (l : list Event) :
  Forall timed l -> inTimeOrder (sort byTime l).
Proof.
  intros H. split.
  - now apply (Permutation_Forall (TimelineFacts.sort_perm byTime l)).
  - apply TimelineFacts.sort_stronglySorted with (ok := timed).
    + apply notLater_trans.
    + apply byTime_gt.
    + apply byTime_le.
    + exact H.
Qed.

Lemma filter_inTimeOrder (keep : Event -> bool) (l : list Event) :
  inTimeOrder l -> inTimeOrder (filter keep l).
Proof.
  intros [Ht Hs]. split.
  - apply Forall_forall. intros e He. apply filter_In in He.
    rewrite Forall_forall in Ht. now apply Ht.
  - clear Ht. induction Hs as [| e l Hs IH Hall]; simpl; [constructor |].
    destruct (keep e); [| exact IH].
    constructor; [exact IH |].
    apply Forall_forall. intros e' He'. apply filter_In in He'.
    rewrite Forall_forall in Hall. now apply Hall.
Qed.

Lemma rate_keeps_events (pills hours : number) (w : World) :
  eventsData (world_of (updateRateDisplay pills hours w)) = eventsData w.
Proof.
  unfold updateRateDisplay.
  destruct (negb (Num.isNaN pills) && negb (Num.isNaN hours)
            && negb (Num.strict_eq hours Num.zero));
    cbv zeta;
    (destruct (_ || _); [rewrite Frame.refresh_events |]; reflexivity).
Qed.

(** With no entries, the two refresh calls complete. *)
Lemma refresh_completes_without_events (w : World) :
  eventsData w = [] ->
  exists w',
    and_then (updateStatisticsDisplay (eventsData w) w)
      (fun w => plotDosageGraph (eventsData w) w) = Done w'.
Proof.
  intros He. rewrite He. unfold updateStatisticsDisplay.
  cbn [List.length Nat.eqb andb].
  destruct (Num.strict_eq (currentRate w) Num.zero); cbn [and_then];
    cbn [eventsData set_stats]; rewrite ?He; unfold plotDosageGraph;
    cbn [List.length Nat.eqb orb]; eauto.
Qed.

(** With no entries yet, recomputing the rate completes. *)
Lemma rate_completes_without_events (pills hours : number) (w : World) :
  eventsData w = [] ->
  updateRateDisplay pills hours w = Done (world_of (updateRateDisplay pills hours w)).
Proof.
  intros He. unfold updateRateDisplay.
  destruct (negb (Num.isNaN pills) && negb (Num.isNaN hours)
            && negb (Num.strict_eq hours Num.zero)); cbv zeta;
    (destruct (_ || _); [| reflexivity]);
    match goal with
    | |- and_then (updateStatisticsDisplay (eventsData ?w1) ?w1) _ = _ =>
        destruct (@refresh_completes_without_events w1 He) as (w' & ->)
    end; reflexivity.
Qed.

Lemma loaded_timed (sheetEvents : list SheetEvent) :
  Forall timed (map toEvent (filter hasDateAndValue sheetEvents)).
Proof.
  apply Forall_forall. intros e He. apply in_map_iff in He.
  destruct He as (s & <- & Hs). apply filter_In in Hs. destruct Hs as [_ Hk].
  unfold hasDateAndValue in Hk. unfold timed, toEvent. cbn [dosageTime].
  destruct (value s); [discriminate | |];
    (destruct (date s) as [t |]; [| discriminate]);
    exists t; apply toISO_at_ms.
Qed.

(** X12.  At page load, with no entries in memory yet, [initializeApp]
    leaves in [eventsData] the entries of the reply that have a value and a
    date that parses, each as often as it was sent, in ascending order of
    time; the refresh calls that follow do not touch the list, whether
    they complete or throw.  A reply that failed or that holds no entry
    leaves the list empty. *)
Theorem initializeApp_loads_in_time_order (pills hours : number)
    (success : bool) (data : list SheetEvent) (w : World) :
  eventsData w = [] ->
  let events := eventsData (world_of (initializeApp pills hours success data w)) in
  inTimeOrder events
  /\ (success = true ->
      Permutation (map toEvent (filter hasDateAndValue data)) events)
  /\ (success = false -> events = []).
Proof.
  intros He events.
  assert (H : events =
              if success && (0 <? List.length data)%nat
              then loadedEvents data else []).
  { unfold events, initializeApp.
    rewrite (rate_completes_without_events pills hours w He).
    cbn [and_then]. cbv zeta.
    set (w1 := world_of (updateRateDisplay pills hours w)).
    assert (H1 : eventsData w1 = []) by (unfold w1; now rewrite rate_keeps_events).
    unfold getEventsFromSheet.
    destruct success; [destruct data as [| s data] |];
      cbn [andb List.length Nat.ltb Nat.leb];
      rewrite Frame.refresh_events; [exact H1 | reflexivity | exact H1]. }
  rewrite H. split; [| split].
  - destruct (success && _); [| split; constructor].
    apply sort_inTimeOrder, loaded_timed.
  - intros ->. cbn [andb]. destruct data as [| s data]; [reflexivity |].
    cbn [List.length Nat.ltb Nat.leb]. apply TimelineFacts.sort_perm.
  - intros ->. reflexivity.
Qed.

(** X12 on a fresh page and a reply with three entries, one of them with
    a date that does not parse. *)
Lemma initializeApp_loads_in_time_order_witness :
  let events :=
    eventsData
      (world_of (initializeApp (Num.of_Z 1) (Num.of_Z 8) true Examples.threeSent
                   (Examples.freshPage 0))) in
  inTimeOrder events
  /\ (true = true ->
      Permutation (map toEvent (filter hasDateAndValue Examples.threeSent)) events)
  /\ (true = false -> events = []).
Proof.
  apply (@initializeApp_loads_in_time_order (Num.of_Z 1) (Num.of_Z 8) true
           Examples.threeSent (Examples.freshPage 0)).
  reflexivity.
Defined.

Lemma positive_amount (amount : number) :
  Num.isNaN amount || Num.le amount Num.zero = false ->
  Num.gt amount Num.zero = true.
Proof.
  destruct amount as [| | | a]; try discriminate; try reflexivity.
  unfold Num.le, Num.gt, Num.lt, Num.zero, Num.cmp. simpl.
  destruct (a ?= 0) eqn:E; try discriminate. intros _.
  apply -> QcFacts.compare_gt in E. apply QcFacts.compare_lt in E. now rewrite E.
Qed.

(** X13.  [addNewEventHandler] sends a request to the sheet only for a
    time that is valid and an amount above zero, and changes the world only
    when the sheet accepted that request: when no request is sent, or the
    sheet answers without success, the world is exactly as it was. *)
Theorem add_sends_only_positive_doses (quickAmount : QuickAmount)
    (amountValue : string) (timeValue : option (option Z)) (resultSuccess : bool)
    (w : World) :
  let r := addNewEventHandler quickAmount amountValue timeValue resultSuccess w in
  match sent r with
  | None => after_add r = w
  | Some (eventTimeDT, amount) =>
      isValid eventTimeDT = true
      /\ Num.gt amount Num.zero = true
      /\ (resultSuccess = false -> after_add r = w)
  end.
Proof.
  cbv zeta. unfold addNewEventHandler.
  set (chosen := if quickGiven quickAmount && _ then _ else _).
  destruct chosen as [[amount eventTimeDT] |]; [| reflexivity].
  destruct (Num.isNaN amount || Num.le amount Num.zero) eqn:Ea; [reflexivity |].
  destruct (isValid eventTimeDT) eqn:Ev; cbn [negb]; [| reflexivity].
  destruct resultSuccess; cbv iota zeta; cbn [sent after_add];
    (split; [exact Ev |]; split; [now apply positive_amount |]).
  - discriminate.
  - reflexivity.
Qed.

(** The entries after an add that the sheet accepted. *)
Lemma events_after_add (quickAmount : QuickAmount) (amountValue : string)
    (timeValue : option (option Z)) (w : World) (eventTimeDT : DateTime)
    (amount : number) :
  sent (addNewEventHandler quickAmount amountValue timeValue true w)
    = Some (eventTimeDT, amount) ->
  eventsData (after_add (addNewEventHandler quickAmount amountValue timeValue true w))
  = sort byTime
      (push (eventsData w)
         {| dosageAmount := amount; dosageTime := toISO eventTimeDT |})
  /\ exists t, eventTimeDT = at_ms t.
Proof.
  unfold addNewEventHandler.
  set (chosen := if quickGiven quickAmount && _ then _ else _).
  assert (Hc : forall a d, chosen = Some (a, d) -> isValid d = true ->
                exists t, d = at_ms t).
  { unfold chosen. intros a d.
    destruct (quickGiven quickAmount && _).
    - intros H Hv. inversion H; subst. unfold getLocalNow in *.
      destruct (valid_in_zone w (Some (clock w)) Hv) as (t & _ & ->). eauto.
    - destruct timeValue as [iso |]; [| discriminate].
      intros H Hv. inversion H; subst.
      destruct (valid_in_zone w iso Hv) as (t & _ & ->). eauto. }
  destruct chosen as [[a d] |]; [| discriminate].
  destruct (Num.isNaN a || Num.le a Num.zero); [discriminate |].
  destruct (isValid d) eqn:Ev; cbn [negb]; cbv iota zeta;
    cbn [sent after_add]; [| discriminate].
  intros H. inversion H; subst. split.
  - now rewrite Frame.refresh_events.
  - now apply (Hc amount eventTimeDT).
Qed.

(** X14.  After an add that the sheet accepted, [eventsData] holds the
    entries it held and the new entry, whose time is the instant of the
    request and whose amount is the amount sent; and when every entry it
    held had a time that parses, the list is in ascending order of time. *)
Theorem add_keeps_time_order (quickAmount : QuickAmount) (amountValue : string)
    (timeValue : option (option Z)) (w : World) (eventTimeDT : DateTime)
    (amount : number) :
  let r := addNewEventHandler quickAmount amountValue timeValue true w in
  sent r = Some (eventTimeDT, amount) ->
  Forall timed (eventsData w) ->
  exists t,
    eventTimeDT = at_ms t
    /\ Permutation
         ({| dosageAmount := amount; dosageTime := Some t |} :: eventsData w)
         (eventsData (after_add r))
    /\ inTimeOrder (eventsData (after_add r)).
Proof.
  intros r Hs Ht.
  destruct (events_after_add quickAmount amountValue timeValue w Hs)
    as [He (t & Hd)].
  exists t. split; [exact Hd |]. unfold r. rewrite He, Hd, toISO_at_ms.
  split.
  - rewrite <- TimelineFacts.sort_perm. unfold push.
    apply Permutation_cons_append.
  - apply sort_inTimeOrder. unfold push. apply Forall_app. split; [exact Ht |].
    constructor; [| constructor]. now exists t.
Qed.

(** X14 for a quick add of one unit, sixteen hours after the one unit the
    list holds. *)
Lemma add_keeps_time_order_witness :
  let r :=
    addNewEventHandler (AmountNumber (Num.of_Z 1)) EmptyString None true
      Examples.oneDosePage in
  exists t,
    at_ms (16 * Examples.hour) = at_ms t
    /\ Permutation
         ({| dosageAmount := Num.of_Z 1; dosageTime := Some t |}
          :: eventsData Examples.oneDosePage)
         (eventsData (after_add r))
    /\ inTimeOrder (eventsData (after_add r)).
Proof.
  apply (@add_keeps_time_order (AmountNumber (Num.of_Z 1)) EmptyString None
           Examples.oneDosePage (at_ms (16 * Examples.hour)) (Num.of_Z 1)).
  - reflexivity.
  - constructor; [now exists 0%Z | constructor].
Defined.

(** X15.  [removeDosageEntryHandler] changes the world only when the user
    confirmed, the row carries a time that is valid in the configured zone
    and the sheet answered that it removed an entry; and in every case a
    list that was in ascending order of time still is. *)
Theorem remove_keeps_time_order (confirmed : bool) (rawTimeISO : option (option Z))
    (reply : Reply) (w : World) :
  let w' := removeDosageEntryHandler confirmed rawTimeISO reply w in
  (confirmed = false \/ rawTimeISO = None \/ rawTimeISO = Some None
   \/ zoneValid w = false \/ success reply = false \/ removed reply = false ->
   w' = w)
  /\ (inTimeOrder (eventsData w) -> inTimeOrder (eventsData w')).
Proof.
  cbv zeta. unfold removeDosageEntryHandler. split.
  - intros H. destruct confirmed; [| reflexivity]. cbn [negb].
    destruct rawTimeISO as [iso |]; [| reflexivity].
    unfold setZone.
    destruct (zoneValid w); [| reflexivity].
    destruct iso as [t |]; [| reflexivity]. cbn [fromISO isValid negb].
    destruct (success reply); [| reflexivity].
    destruct (removed reply); [| reflexivity].
    destruct H as [H | [H | [H | [H | [H | H]]]]]; discriminate.
  - intros H. destruct (negb confirmed); [exact H |].
    destruct rawTimeISO as [iso |]; [| exact H].
    destruct (negb (isValid _)); [exact H |].
    destruct (success reply && removed reply); [| exact H].
    cbv zeta. rewrite Frame.refresh_events. cbn [eventsData set_eventsData].
    now apply filter_inTimeOrder.
Qed.

End EventList.

(** ** Entries on one instant keep their order *)

Module Stability.
Import Client Handlers Terms.
Local Open Scope Qc_scope.

Section Stable.
Variables (A : Type) (compare : A -> A -> number) (p : A -> bool).
Hypothesis ties : forall x y, p x = true -> p y = true ->
  Num.gt (compare x y) Num.zero = false.

Lemma insert_filter (x : A) (l : list A) :
  filter p (insert_sorted compare x l) = filter p (x :: l).
Proof.
  induction l as [| y l IH]; [reflexivity |].
  cbn [insert_sorted]. destruct (Num.gt (compare x y) Num.zero) eqn:E;
    [| reflexivity].
  cbn [filter] in *. rewrite IH.
  destruct (p x) eqn:Ex; [| reflexivity].
  destruct (p y) eqn:Ey; [| reflexivity].
  rewrite (ties Ex Ey) in E. discriminate.
Qed.

Lemma sort_filter (l : list A) : filter p (sort compare l) = filter p l.
Proof.
  induction l as [| x l IH]; [reflexivity |].
  cbn [sort]. rewrite insert_filter. cbn [filter]. now rewrite IH.
Qed.

End Stable.

Lemma atInstant_time (t : Z) (e : Event) :
  atInstant t e = true -> dosageTime e = Some t.
Proof. unfold atInstant, timeOf, at_ms. apply LocalRemoval.same_instant. Qed.

Lemma byTime_tie (t : Z) (x y : Event) :
  atInstant t x = true -> atInstant t y = true ->
  Num.gt (byTime x y) Num.zero = false.
Proof.
  intros Hx Hy. apply atInstant_time in Hx, Hy. unfold byTime.
  rewrite Hx, Hy. cbn [fromISO toMillis Num.sub Num.neg Num.add].
  rewrite Qcplus_opp_r. reflexivity.
Qed.

(** X16.  The sort the handlers use on [eventsData] is stable: the entries
    recorded at one instant come out in the order they went in.  So an
    entry added at an instant that already has entries is placed after
    them. *)
Theorem entries_on_one_instant_keep_their_order (l : list Event) (t : Z) :
  filter (atInstant t) (sort byTime l) = filter (atInstant t) l
  /\ forall e, atInstant t e = true ->
       filter (atInstant t) (sort byTime (push l e)) =
       push (filter (atInstant t) l) e.
Proof.
  split.
  - apply sort_filter. apply byTime_tie.
  - intros e He. rewrite sort_filter by apply byTime_tie.
    unfold push. rewrite filter_app. cbn [filter]. now rewrite He.
Qed.

End Stability.

(** ** Hours between two instants *)

Module Hours.
Import Client Terms.
Local Open Scope Qc_scope.

Lemma abs_opp (q : Qc) : Math_abs (Fin (- q)) = Math_abs (Fin q).
Proof.
  unfold Math_abs, Num.sgn.
  destruct (Qc_dec q 0) as [[H | H] | H].
  - assert (H' : 0 < - q).
    { unfold Qclt in *. rewrite QcFacts.this_opp. change (this 0) with 0%Q in *. lra. }
    apply QcFacts.compare_lt in H. apply QcFacts.compare_gt in H'.
    now rewrite H, H'.
  - assert (H' : - q < 0).
    { unfold Qclt in *. rewrite QcFacts.this_opp. change (this 0) with 0%Q in *. lra. }
    apply QcFacts.compare_gt in H. apply QcFacts.compare_lt in H'.
    rewrite H, H'. f_equal. ring.
  - subst. replace (- 0) with 0 by ring. reflexivity.
Qed.

Lemma abs_not_negative (q : Qc) : exists h, Math_abs (Fin q) = Fin h /\ 0 <= h.
Proof.
  unfold Math_abs, Num.sgn. destruct (q ?= 0) eqn:E.
  - apply QcFacts.compare_eq in E. subst. exists 0. split; [reflexivity |].
    unfold Qcle. lra.
  - apply -> QcFacts.compare_lt in E. exists (- q). split; [reflexivity |].
    unfold Qcle, Qclt in *. rewrite QcFacts.this_opp.
    change (this 0) with 0%Q in *. lra.
  - apply -> QcFacts.compare_gt in E. exists q. split; [reflexivity |].
    unfold Qcle, Qclt in *. lra.
Qed.

(** X17.  [calculateHoursBetween] measures a distance in hours: it does
    not depend on the order of its arguments, it is a finite number that
    is not below zero, and it is 0 between an instant and itself and
    whenever one of the two arguments is not a valid DateTime. *)
Theorem hours_between_is_a_distance (a b : DateTime) :
  calculateHoursBetween a b = calculateHoursBetween b a
  /\ (exists h, calculateHoursBetween a b = Fin h /\ 0 <= h)
  /\ (isValid a && isValid b = false -> calculateHoursBetween a b = Num.zero)
  /\ calculateHoursBetween a a = Num.zero.
Proof.
  split; [| split; [| split]].
  - destruct a as [x |], b as [y |]; try reflexivity.
    unfold calculateHoursBetween, diff_hours.
    rewrite <- abs_opp. do 2 f_equal. field. apply IdealLine.msPerHour_neq.
  - destruct a as [x |], b as [y |];
      try (exists 0; split; [reflexivity | unfold Qcle; lra]).
    apply abs_not_negative.
  - destruct a as [x |], b as [y |]; try reflexivity. discriminate.
  - destruct a as [x |]; [| reflexivity].
    unfold calculateHoursBetween, diff_hours.
    replace ((x - x) / msPerHour) with 0
      by (field; apply IdealLine.msPerHour_neq).
    reflexivity.
Qed.

End Hours.

(** ** The shape of the curve *)

Module CurveShape.
Import Client Terms.
Local Open Scope Qc_scope.

Section Lengths.
Variables (rate : number) (P : DateTime).

Lemma step_adds (st : Walk) (e : PlotEvent) :
  (S (List.length (wk_labels st)) <= List.length (wk_labels (plotStep rate P st e))
   <= 2 + List.length (wk_labels st))%nat.
Proof.
  unfold plotStep. cbv zeta.
  destruct (_ && negb _); [| destruct (_ && _)]; cbn [wk_labels];
    rewrite ?ArrayFacts.length_push; lia.
Qed.

Lemma walk_adds (l : list PlotEvent) (st : Walk) :
  (List.length l + List.length (wk_labels st)
   <= List.length (wk_labels (walk rate P l st))
   <= 2 * List.length l + List.length (wk_labels st))%nat.
Proof.
  revert st. induction l as [| e l IH]; intros st.
  - cbn. lia.
  - rewrite WalkFacts.walk_cons. specialize (IH (plotStep rate P st e)).
    pose proof (step_adds st e). cbn [List.length]. lia.
Qed.

Lemma now_adds (nowDT : DateTime) (st : Walk) :
  List.length (wk_labels st) = List.length (wk_points st) ->
  List.length (labels (plotNow rate P nowDT st)) =
    List.length (neededDataPoints (plotNow rate P nowDT st))
  /\ (List.length (wk_labels st)
      <= List.length (labels (plotNow rate P nowDT st))
      <= S (List.length (wk_labels st)))%nat.
Proof.
  intros H. unfold plotNow.
  destruct (negb (isValid nowDT)); [cbn [labels neededDataPoints]; lia |].
  cbv zeta. destruct (_ || _); [| destruct (_ && _)];
    cbn [labels neededDataPoints];
    rewrite ?ArrayFacts.length_push, ?ArrayFacts.length_set_last; lia.
Qed.

End Lengths.

(** A curve that is returned is empty, or the walk over the timeline
    followed by the point at the current time. *)
Lemma curve_returned (events : list Event) (w : World) (d : PlotData) :
  calculatePlotData events w = Ret d ->
  match sortedEvents w events with
  | [] => d = {| labels := []; neededDataPoints := [] |}
  | first :: rest =>
      exists P,
        d = plotNow (currentRate w) P (setZone w (getLocalNow w))
              (walk (currentRate w) P (first :: rest)
                 (plotStart (currentRate w) P (eventTimeDT first)))
  end.
Proof.
  unfold calculatePlotData. cbv zeta.
  destruct (sortedEvents w events) as [| first rest].
  - intros H. now inversion H.
  - destruct (projectedStart (currentRate w) first) as [P |]; [| discriminate].
    cbn [bind]. intros H. inversion H. exists P. reflexivity.
Qed.

(** A curve returned for a timeline that is not empty has points. *)
Lemma curve_not_empty (events : list Event) (w : World) (d : PlotData) :
  calculatePlotData events w = Ret d -> sortedEvents w events <> [] ->
  (List.length (labels d) =? 0)%nat = false.
Proof.
  intros H Hne. apply curve_returned in H.
  destruct (sortedEvents w events) as [| first rest]; [now elim Hne |].
  destruct H as (P & ->). apply Nat.eqb_neq.
  set (st0 := plotStart (currentRate w) P (eventTimeDT first)).
  set (st := walk (currentRate w) P (first :: rest) st0).
  assert (HL : List.length (wk_labels st) = List.length (wk_points st))
    by (apply WalkFacts.walk_lengths; reflexivity).
  destruct (@now_adds (currentRate w) P (setZone w (getLocalNow w)) st HL)
    as [_ Hnow].
  pose proof (walk_adds (currentRate w) P (first :: rest) st0) as Hwalk.
  fold st in Hwalk. cbn [List.length] in Hwalk. lia.
Qed.

(** X18.  Whenever [calculatePlotData] returns, its two arrays have one
    length, so every label has its point.  With no entry that passes the
    checks both are empty; with [n] such entries, [n] at least 1, the
    curve has between [n + 2] and [2 n + 3] points. *)
Theorem curve_arrays_are_parallel (events : list Event) (w : World) (d : PlotData) :
  calculatePlotData events w = Ret d ->
  let n := List.length (sortedEvents w events) in
  List.length (labels d) = List.length (neededDataPoints d)
  /\ (n = 0%nat -> labels d = [] /\ neededDataPoints d = [])
  /\ (n <> 0%nat ->
      (n + 2 <= List.length (labels d) <= 2 * n + 3)%nat).
Proof.
  intros H. apply curve_returned in H. cbv zeta.
  destruct (sortedEvents w events) as [| first rest].
  - subst d. cbn [List.length labels neededDataPoints].
    split; [reflexivity |]. split; [intros _; split; reflexivity |].
    intros Hn. now elim Hn.
  - destruct H as (P & ->).
    set (st0 := plotStart (currentRate w) P (eventTimeDT first)).
    set (st := walk (currentRate w) P (first :: rest) st0).
    assert (HL : List.length (wk_labels st) = List.length (wk_points st))
      by (apply WalkFacts.walk_lengths; reflexivity).
    destruct (@now_adds (currentRate w) P (setZone w (getLocalNow w)) st HL)
      as [Hpar Hnow].
    pose proof (walk_adds (currentRate w) P (first :: rest) st0) as Hwalk.
    fold st in Hwalk. change (List.length (wk_labels st0)) with 2%nat in Hwalk.
    split; [exact Hpar |]. split; [discriminate |]. intros _.
    cbn [List.length] in *. lia.
Qed.

(** X18 on the curve of one unit at instant 0, read sixteen hours later:
    one entry, five points. *)
Lemma curve_arrays_are_parallel_witness :
  let n := List.length (sortedEvents Examples.oneDosePage [Examples.dose 1 0]) in
  List.length (labels Examples.oneDoseCurve)
    = List.length (neededDataPoints Examples.oneDoseCurve)
  /\ (n = 0%nat ->
      labels Examples.oneDoseCurve = [] /\ neededDataPoints Examples.oneDoseCurve = [])
  /\ (n <> 0%nat ->
      (n + 2 <= List.length (labels Examples.oneDoseCurve) <= 2 * n + 3)%nat).
Proof.
  apply (@curve_arrays_are_parallel [Examples.dose 1 0] Examples.oneDosePage
           Examples.oneDoseCurve).
  apply PlotFacts.plot_is. vm_compute. reflexivity.
Defined.

(** X19.  What [plotDosageGraph] leaves in the chart container.  With no
    entry, or a rate that is 0 or below, the first message.  Otherwise,
    with no entry that passes the checks, the second message; and with
    such an entry the outcome turns on the projected start of the earliest
    one: when it is computed the curve is computed and drawn, and when its
    computation throws, [plotDosageGraph] throws and leaves the canvas it
    had just created empty.  So it is with a rate that is NaN, which is
    not 0 or below: the division by it gives NaN hours. *)
Theorem plot_draws_or_throws (events : list Event) (w : World) :
  let rate := currentRate w in
  let noData :=
    Message "No data to display or rate is zero. Enter data and set a rate." in
  let notEnough :=
    Message "Not enough data to plot the graph after processing." in
  (events = [] \/ Num.le rate Num.zero = true ->
   plotDosageGraph events w = Done (set_chart noData w))
  /\ (events <> [] -> Num.le rate Num.zero = false ->
      match sortedEvents w events with
      | [] => plotDosageGraph events w = Done (set_chart notEnough w)
      | first :: _ =>
          match projectedStart rate first with
          | Ret _ =>
              exists d,
                calculatePlotData events w = Ret d
                /\ plotDosageGraph events w = Done (set_chart (Plotted d) w)
          | Throw => plotDosageGraph events w = Threw (set_chart EmptyCanvas w)
          end
      end)
  /\ (Num.isNaN rate = true -> sortedEvents w events <> [] ->
      plotDosageGraph events w = Threw (set_chart EmptyCanvas w)).
Proof.
  cbv zeta.
  assert (Hmain : events <> [] -> Num.le (currentRate w) Num.zero = false ->
      match sortedEvents w events with
      | [] =>
          plotDosageGraph events w =
          Done (set_chart
                  (Message "Not enough data to plot the graph after processing.") w)
      | first :: _ =>
          match projectedStart (currentRate w) first with
          | Ret _ =>
              exists d,
                calculatePlotData events w = Ret d
                /\ plotDosageGraph events w = Done (set_chart (Plotted d) w)
          | Throw => plotDosageGraph events w = Threw (set_chart EmptyCanvas w)
          end
      end).
  { intros Hne Hle. unfold plotDosageGraph. rewrite Hle.
    destruct events as [| e events]; [now elim Hne |].
    cbn [List.length Nat.eqb orb].
    destruct (sortedEvents w (e :: events)) as [| first rest] eqn:Hs.
    - unfold calculatePlotData. rewrite Hs. reflexivity.
    - destruct (projectedStart (currentRate w) first) as [P |] eqn:HP.
      + destruct (calculatePlotData (e :: events) w) as [d |] eqn:Hd.
        * assert (Hlen : (List.length (labels d) =? 0)%nat = false).
          { apply (@curve_not_empty (e :: events) w d Hd). rewrite Hs.
            discriminate. }
          rewrite Hlen. cbn [andb]. exists d. now split.
        * unfold calculatePlotData in Hd. rewrite Hs in Hd. cbv zeta in Hd.
          rewrite HP in Hd. discriminate.
      + unfold calculatePlotData. rewrite Hs. cbv zeta. rewrite HP.
        reflexivity. }
  split; [| split].
  - intros H. unfold plotDosageGraph.
    destruct H as [-> | ->]; [reflexivity |]. now rewrite orb_true_r.
  - exact Hmain.
  - intros Hnan Hne.
    assert (Hev : events <> []).
    { intros ->. now apply Hne. }
    assert (Hle : Num.le (currentRate w) Num.zero = false).
    { destruct (currentRate w); try discriminate. reflexivity. }
    specialize (Hmain Hev Hle).
    destruct (sortedEvents w events) as [| first rest] eqn:Hs; [now elim Hne |].
    destruct (TimelineFacts.sortedEvents_sorted w events) as (Hwf & _).
    rewrite Hs in Hwf. inversion Hwf as [| ? ? ((t & Ht) & _) _]; subst.
    assert (HP : projectedStart (currentRate w) first = Throw).
    { unfold projectedStart. rewrite Ht.
      destruct (currentRate w); try discriminate.
      destruct (parsedAmount first); reflexivity. }
    now rewrite HP in Hmain.
Qed.

End CurveShape.

(** ** What the curve counts as taken *)

Module Taken.
Import Client Terms Examples.
Local Open Scope Qc_scope.

(** An entry that passes the checks is the dose [asDose] of it, and adds
    its amount to the total given. *)
Lemma passes_asDose (w : World) (e : Event) :
  passes w e = true ->
  checkEvent w e = Some (asDose e) /\ contribution e = dosageAmount e.
Proof.
  unfold passes, checkEvent, setZone, parseFloat, asDose.
  destruct (zoneValid w); [| discriminate].
  destruct (negb (isValid (fromISO (dosageTime e)))); [discriminate |].
  cbn [orb].
  destruct (Num.isNaN (dosageAmount e)) eqn:En; [discriminate |].
  cbn [orb]. destruct (Num.lt (dosageAmount e) Num.zero); [discriminate |].
  intros _. split; [reflexivity |].
  rewrite Given.contribution_parseable. unfold parseable, parseFloat.
  now rewrite En.
Qed.

Lemma checked_are_passing (w : World) (events : list Event) :
  dropNull (map (checkEvent w) events) = map asDose (filter (passes w) events).
Proof.
  induction events as [| e events IH]; [reflexivity |].
  cbn [map filter]. destruct (passes w e) eqn:E.
  - destruct (passes_asDose w e E) as [-> _]. cbn [dropNull map]. now rewrite IH.
  - unfold passes in E. destruct (checkEvent w e); [discriminate |]. exact IH.
Qed.

Lemma filter_all (A : Type) (keep : A -> bool) (l : list A) :
  Forall (fun x => keep x = true) l -> filter keep l = l.
Proof.
  induction 1 as [| x l Hx _ IH]; [reflexivity |].
  cbn [filter]. now rewrite Hx, IH.
Qed.

Lemma filter_passing (A : Type) (keep : A -> bool) (l : list A) :
  Forall (fun x => keep x = true) (filter keep l).
Proof. apply Forall_forall. intros x Hx. now apply filter_In in Hx. Qed.

Section Sorted.
Variables (A : Type) (compare : A -> A -> number) (R : A -> A -> Prop).
Hypothesis in_place : forall a b, R a b -> Num.gt (compare a b) Num.zero = false.

(** Sorting changes nothing in an array that is in order. *)
Lemma sort_sorted (l : list A) : StronglySorted R l -> sort compare l = l.
Proof.
  induction 1 as [| x l Hs IH Hall]; [reflexivity |].
  cbn [sort]. rewrite IH. destruct l as [| y l]; [reflexivity |].
  cbn [insert_sorted]. inversion Hall as [| ? ? Hxy _]; subst.
  now rewrite (in_place Hxy).
Qed.

End Sorted.

Lemma stronglySorted_map (A B : Type) (g : A -> B) (R : B -> B -> Prop)
    (l : list A) :
  StronglySorted (fun a b => R (g a) (g b)) l -> StronglySorted R (map g l).
Proof.
  induction 1 as [| x l Hs IH Hall]; cbn [map]; constructor; [exact IH |].
  apply Forall_forall. intros b Hb. apply in_map_iff in Hb.
  destruct Hb as (a & <- & Ha). rewrite Forall_forall in Hall. now apply Hall.
Qed.

Lemma notAfter_in_place (a b : PlotEvent) :
  notAfter a b -> Num.gt (byMillis a b) Num.zero = false.
Proof.
  unfold notAfter, byMillis.
  destruct (eventTimeDT a) as [x |], (eventTimeDT b) as [y |]; try discriminate.
  cbn [toMillis Num.sub Num.neg Num.add].
  unfold Num.le, Num.gt, Num.lt, Num.zero, Num.cmp.
  destruct (x ?= y) eqn:E; try discriminate; intros _;
    destruct (0 ?= x + - y) eqn:E'; try reflexivity;
    apply -> QcFacts.compare_lt in E'; exfalso.
  - apply QcFacts.compare_eq in E. subst. unfold Qclt in E'.
    rewrite QcFacts.this_plus, QcFacts.this_opp in E'.
    change (this 0) with 0%Q in E'. lra.
  - apply -> QcFacts.compare_lt in E. unfold Qclt in *.
    rewrite QcFacts.this_plus, QcFacts.this_opp in E'.
    change (this 0) with 0%Q in E'. lra.
Qed.

(** When the entries that pass the checks stand in the list in order of
    time, they are the timeline, in the order of the list. *)
Lemma timeline_of_ordered (w : World) (events : list Event) :
  StronglySorted notLater (filter (passes w) events) ->
  sortedEvents w events = map asDose (filter (passes w) events).
Proof.
  intros Hs. unfold sortedEvents. rewrite checked_are_passing.
  apply sort_sorted with (R := notAfter); [apply notAfter_in_place |].
  now apply stronglySorted_map.
Qed.

(** The loop of the curve and the reduce of the statistics add the same
    amounts in the same order over entries that all pass the checks. *)
Lemma taken_in_order (w : World) (events : list Event) :
  Forall (fun e => passes w e = true) events ->
  forall acc : number,
    fold_left (fun taken e => Num.add taken (parsedAmount e))
      (map asDose events) acc =
    fold_left
      (fun sum e =>
         Num.add sum (Num.or_else (parseFloat (dosageAmount e)) Num.zero))
      events acc.
Proof.
  induction 1 as [| e events He _ IH]; intros acc; [reflexivity |].
  cbn [map fold_left]. rewrite IH. do 2 f_equal.
  destruct (passes_asDose w e He) as [_ Hc]. symmetry. exact Hc.
Qed.

(** X20.  When the entries that pass the checks of [calculatePlotData]
    stand in the list in order of time, as the handlers keep them, the
    amount the curve has counted as taken once it has walked the timeline
    is the total given of those entries, added in the same order: the
    total the statistics show when every entry passes.  The two differ
    otherwise, for the statistics count every amount that parses: with one
    unit followed by an entry of minus one unit they show 0 as given while
    the curve has counted 1. *)
Theorem curve_counts_the_entries_it_draws (w : World) (events : list Event) :
  StronglySorted notLater (filter (passes w) events) ->
  takenThrough (sortedEvents w events) = totalGiven (filter (passes w) events)
  /\ (Forall (fun e => passes w e = true) events ->
      takenThrough (sortedEvents w events) = totalGiven events)
  /\ (let events' := [dose 1 0; dose (-1) hour] in
      let w' := page oneEveryEight events' (2 * hour) in
      totalGiven events' = Num.of_Z 0
      /\ takenThrough (sortedEvents w' events') = Num.of_Z 1).
Proof.
  intros Hs.
  assert (H : takenThrough (sortedEvents w events)
              = totalGiven (filter (passes w) events)).
  { rewrite (timeline_of_ordered w events Hs). unfold takenThrough, totalGiven.
    apply (@taken_in_order w), filter_passing. }
  split; [exact H |]. split.
  - intros Hall. rewrite H. now rewrite (filter_all _ Hall).
  - cbv zeta. split; apply NumFacts.number_eqb_eq; vm_compute; reflexivity.
Qed.

(** X20 for one unit at instant 0 and one unit an hour later. *)
Lemma curve_counts_the_entries_it_draws_witness :
  takenThrough (sortedEvents twoDosesPage twoDoses)
  = totalGiven (filter (passes twoDosesPage) twoDoses)
  /\ (Forall (fun e => passes twoDosesPage e = true) twoDoses ->
      takenThrough (sortedEvents twoDosesPage twoDoses) = totalGiven twoDoses)
  /\ (let events' := [dose 1 0; dose (-1) hour] in
      let w' := page oneEveryEight events' (2 * hour) in
      totalGiven events' = Num.of_Z 0
      /\ takenThrough (sortedEvents w' events') = Num.of_Z 1).
Proof.
  apply (@curve_counts_the_entries_it_draws twoDosesPage twoDoses).
  repeat constructor; vm_compute; reflexivity.
Defined.

End Taken.

(** ** The rate that is saved *)

Module SavedRate.
Import Client Handlers Terms.
Local Open Scope Qc_scope.

Lemma stats_stored (events : list Event) (w : World) :
  storedRate (world_of (updateStatisticsDisplay events w)) = storedRate w
  /\ rateText (world_of (updateStatisticsDisplay events w)) = rateText w.
Proof.
  unfold updateStatisticsDisplay.
  repeat match goal with
  | |- context [if ?b then _ else _] => destruct b
  | |- context [match ?x with _ => _ end] => destruct x
  end; split; reflexivity.
Qed.

Lemma plot_stored (events : list Event) (w : World) :
  storedRate (world_of (plotDosageGraph events w)) = storedRate w
  /\ rateText (world_of (plotDosageGraph events w)) = rateText w.
Proof.
  unfold plotDosageGraph.
  repeat match goal with
  | |- context [if ?b then _ else _] => destruct b
  | |- context [match ?x with _ => _ end] => destruct x
  end; split; reflexivity.
Qed.

Lemma refresh_stored (w : World) :
  let w' := world_of (and_then (updateStatisticsDisplay (eventsData w) w)
                        (fun w => plotDosageGraph (eventsData w) w)) in
  storedRate w' = storedRate w /\ rateText w' = rateText w.
Proof.
  cbv zeta. pose proof (stats_stored (eventsData w) w) as [H1 H2].
  destruct (updateStatisticsDisplay (eventsData w) w) as [w1 | w1]; simpl in *.
  - destruct (plot_stored (eventsData w1) w1) as [-> ->]. now split.
  - now split.
Qed.

(** X21.  After every [updateRateDisplay] the rate saved under [RATE_KEY]
    is the current rate, also when one of the refresh calls throws, and the
    entries are untouched.  The page shows 'N/A' for the rate exactly when
    an input did not parse or the hours are 0, and the rate is then 0.  A
    page loaded afterwards starts from the saved rate, which is the current
    rate unless that is NaN (infinity over infinity), where it starts from
    0. *)
Theorem saved_rate_is_current_rate (pills hours : number) (w : World) :
  let w' := world_of (updateRateDisplay pills hours w) in
  let fallback :=
    Num.isNaN pills || Num.isNaN hours || Num.strict_eq hours Num.zero in
  storedRate w' = currentRate w'
  /\ eventsData w' = eventsData w
  /\ (fallback = true -> rateText w' = NA /\ currentRate w' = Num.zero)
  /\ (fallback = false -> rateText w' = Fixed (Num.div pills hours) 3)
  /\ initialRate (storedRate w') =
       (if Num.isNaN (currentRate w') then Num.zero else currentRate w').
Proof.
  cbv zeta.
  assert (H : storedRate (world_of (updateRateDisplay pills hours w))
              = currentRate (world_of (updateRateDisplay pills hours w))
              /\ rateText (world_of (updateRateDisplay pills hours w))
                 = if Num.isNaN pills || Num.isNaN hours
                      || Num.strict_eq hours Num.zero
                   then NA else Fixed (Num.div pills hours) 3).
  { rewrite Rate.rate_after. unfold updateRateDisplay.
    destruct (Num.isNaN pills), (Num.isNaN hours),
      (Num.strict_eq hours Num.zero); cbn [negb andb orb]; cbv zeta;
      (destruct (_ || _);
       [match goal with
        | |- context [and_then (updateStatisticsDisplay (eventsData ?w1) ?w1) _] =>
            destruct (refresh_stored w1) as [-> ->]
        end |]; split; reflexivity). }
  destruct H as [Hs Ht].
  split; [exact Hs |]. split; [apply EventList.rate_keeps_events |].
  split; [| split].
  - intros Hf. rewrite Ht, Hf. split; [reflexivity |].
    rewrite Rate.rate_after.
    destruct (Num.isNaN pills), (Num.isNaN hours),
      (Num.strict_eq hours Num.zero); simpl in *; congruence.
  - intros Hf. now rewrite Ht, Hf.
  - rewrite Hs. unfold initialRate, parseFloat. apply NumFacts.or_else_zero.
Qed.

End SavedRate.

(** ** The statistics and the end of the curve *)

Module Agreement.
Import Client Terms Examples.
Local Open Scope Qc_scope.

Lemma after_at_ms (a b : Z) : after (at_ms a) (at_ms b) = true <-> (b < a)%Z.
Proof.
  unfold after, Num.gt, Num.lt, at_ms, fromISO, toMillis, Num.cmp.
  rewrite Zlt_Qlt.
  destruct (Q2Qc (inject_Z b) ?= Q2Qc (inject_Z a)) eqn:E.
  - apply QcFacts.compare_eq in E. apply (f_equal this) in E.
    split; [discriminate |]. intros H. exfalso.
    rewrite <- (QcFacts.this_Q2Qc (inject_Z a)),
      <- (QcFacts.this_Q2Qc (inject_Z b)) in H.
    rewrite E in H. lra.
  - apply -> QcFacts.compare_lt in E. unfold Qclt in E.
    rewrite !QcFacts.this_Q2Qc in E. split; [intros _; exact E | reflexivity].
  - apply -> QcFacts.compare_gt in E. unfold Qclt in E.
    rewrite !QcFacts.this_Q2Qc in E.
    split; [discriminate | intros H; exfalso; lra].
Qed.

Lemma equals_same (t : Z) : equals (at_ms t) (at_ms t) = true.
Proof.
  unfold equals, at_ms, fromISO, Qc_eq_bool.
  destruct (Qc_eq_dec _ _); congruence.
Qed.

Lemma last_elt_set_last (A : Type) (l : list A) (x : A) :
  l <> [] -> last_elt (set_last l x) = Some x.
Proof.
  intros H. unfold set_last. destruct l as [| a l]; [now elim H |].
  apply (ArrayFacts.last_elt_push (removelast (a :: l)) x).
Qed.

(** The point at the current time, when the current time is not before
    the last label: the curve ends at the current time with the ideal
    intake at it less everything taken. *)
Lemma now_is_the_end (rate : number) (P : DateTime) (st : Walk) (tl now : Z) :
  List.length (wk_labels st) = List.length (wk_points st) ->
  last_elt (wk_labels st) = Some (at_ms tl) -> (tl <= now)%Z ->
  let d := plotNow rate P (at_ms now) st in
  last_elt (labels d) = Some (at_ms now)
  /\ last_elt (neededDataPoints d) =
       Some (Num.sub (idealTotalIntake rate P (at_ms now))
               (cumulativeDosageTaken st)).
Proof.
  intros HL Hlast Hle. cbv zeta. unfold plotNow.
  change (negb (isValid (at_ms now))) with false. cbv iota zeta.
  rewrite Hlast. unfold lastIs. rewrite Hlast.
  assert (Hne : wk_labels st <> []) by (intros E; rewrite E in Hlast; discriminate).
  assert (Hne' : wk_points st <> []).
  { intros E. rewrite E in HL. destruct (wk_labels st); [now elim Hne | discriminate]. }
  assert (Hlen : (List.length (wk_labels st) =? 0)%nat = false)
    by (destruct (wk_labels st); [now elim Hne | reflexivity]).
  assert (Hpos : (0 <? List.length (wk_labels st))%nat = true)
    by (destruct (wk_labels st); [now elim Hne | reflexivity]).
  rewrite Hlen, Hpos. cbn [orb andb].
  destruct (Z.eq_dec tl now) as [-> | Hneq].
  - replace (after (at_ms now) (at_ms now)) with false.
    + rewrite equals_same. cbn [labels neededDataPoints].
      split; [exact Hlast |]. now apply last_elt_set_last.
    + symmetry. destruct (after (at_ms now) (at_ms now)) eqn:E; [| reflexivity].
      apply after_at_ms in E. lia.
  - replace (after (at_ms now) (at_ms tl)) with true
      by (symmetry; apply after_at_ms; lia).
    cbn [labels neededDataPoints].
    split; apply ArrayFacts.last_elt_push.
Qed.

(** An entry that passes the checks was checked in a valid zone and has a
    time that parses. *)
Lemma passes_timed (w : World) (e : Event) :
  passes w e = true -> zoneValid w = true /\ exists t, dosageTime e = Some t.
Proof.
  unfold passes, checkEvent, setZone.
  destruct (zoneValid w); [| discriminate].
  destruct (dosageTime e) as [t |]; [| discriminate].
  intros _. split; [reflexivity | now exists t].
Qed.

(** X22.  The needed amount of the statistics and the end of the curve
    are read off one line.  For a list of entries in ascending order of
    time that all pass the checks of the curve, a clock that is not before
    any of them, and the projected start [P] computed from the first: the
    curve is computed and ends at the current time, where its need is the
    ideal intake from [P] to the current time less the total given; and
    the needed amount the statistics show is the ideal intake over the
    hours from [P] to the first entry and from the first entry to the
    current time, less the same total given, raised to 0.  The two start
    from the same instant and subtract the same total; they differ in how
    the hours are added up, and in the floor at 0. *)
Theorem needed_and_curve_end_share_the_line (events : list Event) (w : World)
    (e0 : Event) (more : list Event) (P : DateTime) :
  events = e0 :: more ->
  Forall (fun e => passes w e = true) events ->
  StronglySorted notLater events ->
  Forall (fun e => Num.le (timeOf e) (toMillis (at_ms (clock w))) = true) events ->
  projectedStart (currentRate w) (asDose e0) = Ret P ->
  let rate := currentRate w in
  let firstDT := fromISO (dosageTime e0) in
  let nowDT := at_ms (clock w) in
  exists d,
    calculatePlotData events w = Ret d
    /\ last_elt (labels d) = Some nowDT
    /\ last_elt (neededDataPoints d) =
       Some (Num.sub (Num.mul rate (calculateHoursBetween P nowDT))
               (totalGiven events))
    /\ el_needed (stats (world_of (updateStatisticsDisplay events w))) =
       Fixed (Math_max Num.zero
                (Num.sub
                   (Num.mul rate
                      (Num.add (calculateHoursBetween P firstDT)
                         (calculateHoursBetween firstDT nowDT)))
                   (totalGiven events))) 1.
Proof.
  intros He Hpass Hs Hnow HP rate firstDT nowDT. subst events.
  assert (Hz : zoneValid w = true).
  { inversion Hpass as [| ? ? H0 _]; subst. now apply passes_timed in H0. }
  assert (Htl : sortedEvents w (e0 :: more) = map asDose (e0 :: more)).
  { rewrite Taken.timeline_of_ordered; rewrite (Taken.filter_all _ Hpass);
      [reflexivity | exact Hs]. }
  cbn [map] in Htl.
  set (first := asDose e0) in *. set (rest := map asDose more) in *.
  rewrite (PlotFacts.calculatePlotData_unfold (e0 :: more) w Htl HP Hz).
  fold rate nowDT.
  set (st := walk rate P (first :: rest) (plotStart rate P (eventTimeDT first))).
  assert (HL : List.length (wk_labels st) = List.length (wk_points st))
    by (apply WalkFacts.walk_lengths; reflexivity).
  (* the last dose is not after the clock *)
  assert (Hin : In (last rest first) (map asDose (e0 :: more))).
  { cbn [map]. fold first rest.
    destruct (@exists_last _ (first :: rest)) as (l' & x & E); [discriminate |].
    replace (last rest first) with (last (first :: rest) first)
      by (destruct rest; reflexivity).
    rewrite E, last_last. apply in_or_app. right. now left. }
  apply in_map_iff in Hin. destruct Hin as (el & Hel & Hinl).
  assert (Htle : exists tl, eventTimeDT (last rest first) = at_ms tl
                            /\ (tl <= clock w)%Z).
  { rewrite Forall_forall in Hpass, Hnow.
    destruct (passes_timed w el (Hpass el Hinl)) as (_ & tl & Htl').
    pose proof (Hnow el Hinl) as Hle. unfold timeOf in Hle. rewrite Htl' in Hle.
    apply TimelineFacts.le_at_ms in Hle.
    exists tl. rewrite <- Hel. unfold asDose. cbn [eventTimeDT]. rewrite Htl'.
    split; [reflexivity | exact Hle]. }
  destruct Htle as (tl & Htl' & Hle).
  assert (Hlast : last_elt (wk_labels st) = Some (at_ms tl)).
  { unfold st. rewrite FinalPoint.walk_ends_at_last. now rewrite Htl'. }
  destruct (@now_is_the_end rate P st tl (clock w) HL Hlast Hle)
    as [Hlab Hpt].
  assert (Htaken : cumulativeDosageTaken st = totalGiven (e0 :: more)).
  { unfold st. rewrite WalkFacts.walk_taken.
    exact (@Taken.taken_in_order w (e0 :: more) Hpass Num.zero). }
  eexists. split; [reflexivity |]. split; [exact Hlab |]. split.
  - fold nowDT in Hpt. rewrite Hpt, Htaken. reflexivity.
  - assert (Hv : isValid (fromISO (dosageTime e0)) = true).
    { inversion Hpass as [| ? ? H0 _]; subst.
      destruct (passes_timed w e0 H0) as (_ & t0 & Ht0). now rewrite Ht0. }
    destruct (@StatsFacts.stats_shown (e0 :: more) w e0 more P eq_refl Hv HP)
      as (Hn & _).
    rewrite Hn. unfold getLocalNow, setZone. rewrite Hz. reflexivity.
Qed.

(** X22 for one unit at instant 0 and one unit an hour later, at one unit
    per eight hours, read sixteen hours after instant 0. *)
Lemma needed_and_curve_end_share_the_line_witness :
  let P := at_ms (-8 * hour) in
  let nowDT := at_ms (16 * hour) in
  exists d,
    calculatePlotData twoDoses twoDosesPage = Ret d
    /\ last_elt (labels d) = Some nowDT
    /\ last_elt (neededDataPoints d) =
       Some (Num.sub (Num.mul oneEveryEight (calculateHoursBetween P nowDT))
               (totalGiven twoDoses))
    /\ el_needed (stats (world_of (updateStatisticsDisplay twoDoses twoDosesPage))) =
       Fixed (Math_max Num.zero
                (Num.sub
                   (Num.mul oneEveryEight
                      (Num.add (calculateHoursBetween P (at_ms 0))
                         (calculateHoursBetween (at_ms 0) nowDT)))
                   (totalGiven twoDoses))) 1.
Proof.
  apply (@needed_and_curve_end_share_the_line twoDoses twoDosesPage
           (dose 1 0) [dose 1 hour] (at_ms (-8 * hour))).
  - reflexivity.
  - repeat constructor.
  - repeat constructor; vm_compute; reflexivity.
  - repeat constructor; vm_compute; reflexivity.
  - apply (f_equal (@Ret DateTime)), LuxonFacts.datetime_eqb_eq.
    vm_compute. reflexivity.
Defined.

End Agreement.

(** ** When the labels of the curve are in order *)

Module InOrder.
Import Client Terms Examples.
Local Open Scope Qc_scope.

(** X23.  The labels of a curve can go back in time at one place only,
    between the first and the second.  Whenever the curve is computed for
    a timeline that is not empty, its labels are the projected start [P],
    then the millisecond before the first dose, and from that second label
    on they never go back, whatever the order of the entries in the list.
    So the labels as a whole are in order exactly when [P] is a valid
    instant that is not later than the millisecond before the first
    dose. *)
Theorem labels_go_back_only_at_the_start (events : list Event) (w : World)
    (first : PlotEvent) (rest : list PlotEvent) (P : DateTime) :
  sortedEvents w events = first :: rest ->
  projectedStart (currentRate w) first = Ret P ->
  let second := minus_millis (eventTimeDT first) 1 in
  exists d more,
    calculatePlotData events w = Ret d
    /\ labels d = P :: second :: more
    /\ chronological (second :: more) = true
    /\ chronological (labels d) = Num.le (toMillis P) (toMillis second)
    /\ (isValid P = false \/ after P second = true ->
        chronological (labels d) = false).
Proof.
  intros Hs HP second.
  destruct (Chronology.curve_chronological events w Hs HP)
    as (d & more & Hd & Hl & Hc & _).
  fold second in Hl, Hc.
  assert (Heq : chronological (labels d) = Num.le (toMillis P) (toMillis second)).
  { rewrite Hl, Chronology.chronological_cons, Hc. apply andb_true_r. }
  exists d, more. split; [exact Hd |]. split; [exact Hl |].
  split; [exact Hc |]. split; [exact Heq |].
  intros [Hinv | Hafter]; rewrite Heq.
  - destruct P; [discriminate | reflexivity].
  - destruct (FinalPoint.after_valid _ _ Hafter) as (x & y & -> & -> & Hlt).
    unfold Num.le, Num.cmp, toMillis.
    destruct (x ?= y) eqn:E; try reflexivity.
    + apply QcFacts.compare_eq in E. subst. unfold Qclt in Hlt. lra.
    + apply -> QcFacts.compare_lt in E. unfold Qclt in *. lra.
Qed.

(** X23 for one unit at instant 0, which lasts eight hours at one unit per
    eight hours: the projected start is eight hours before the dose. *)
Lemma labels_go_back_only_at_the_start_witness :
  let first := {| eventTimeDT := at_ms 0; parsedAmount := Num.of_Z 1 |} in
  let P := at_ms (-8 * hour) in
  let second := minus_millis (at_ms 0) 1 in
  exists d more,
    calculatePlotData [dose 1 0] oneDosePage = Ret d
    /\ labels d = P :: second :: more
    /\ chronological (second :: more) = true
    /\ chronological (labels d) = Num.le (toMillis P) (toMillis second)
    /\ (isValid P = false \/ after P second = true ->
        chronological (labels d) = false).
Proof.
  intros first P second.
  apply (@labels_go_back_only_at_the_start [dose 1 0] oneDosePage first [] P).
  - reflexivity.
  - apply (f_equal (@Ret DateTime)), LuxonFacts.datetime_eqb_eq.
    vm_compute. reflexivity.
Defined.

End InOrder.

(** ** Statistics without an anchor *)

Module Anchor.
Import Client Handlers Terms Examples.
Local Open Scope Qc_scope.

(** With a first entry whose time parses and whose amount over the rate
    is NaN, the projected start cannot be computed. *)
Lemma no_anchor_throws (e0 : Event) (more : list Event) (w : World) :
  isValid (fromISO (dosageTime e0)) = true ->
  Num.isNaN (Num.div (dosageAmount e0) (currentRate w)) = true ->
  updateStatisticsDisplay (e0 :: more) w = Threw w.
Proof.
  intros Hv Hn. unfold updateStatisticsDisplay, parseFloat.
  cbn [List.length Nat.eqb andb]. rewrite Hv. cbn [negb].
  destruct (Num.div (dosageAmount e0) (currentRate w)); try discriminate.
  destruct (fromISO (dosageTime e0)); [reflexivity | discriminate].
Qed.

Lemma nan_amount_quotient (amount rate : number) :
  Num.isNaN amount = true -> Num.isNaN (Num.div amount rate) = true.
Proof. destruct amount; try discriminate. reflexivity. Qed.

(** X24.  [updateStatisticsDisplay] starts from the first entry of the
    list and writes nothing when that entry cannot anchor the projection.
    When its time does not parse the call returns.  When its time parses
    but its amount divided by the rate is NaN, the call throws at the
    computation of the projected start: so it is for an amount that is NaN
    (an entry loaded from a blank amount cell) at every rate, and for an
    amount of 0 at the rate 0.  In both cases every statistic keeps what it
    showed. *)
Theorem statistics_need_an_anchor (e0 : Event) (more : list Event) (w : World) :
  (isValid (fromISO (dosageTime e0)) = false ->
   updateStatisticsDisplay (e0 :: more) w = Done w)
  /\ (isValid (fromISO (dosageTime e0)) = true ->
      Num.isNaN (Num.div (dosageAmount e0) (currentRate w)) = true ->
      updateStatisticsDisplay (e0 :: more) w = Threw w)
  /\ (Num.isNaN (dosageAmount e0) = true ->
      Num.isNaN (Num.div (dosageAmount e0) (currentRate w)) = true)
  /\ (dosageAmount e0 = Num.zero -> currentRate w = Num.zero ->
      Num.isNaN (Num.div (dosageAmount e0) (currentRate w)) = true).
Proof.
  split; [| split; [| split]].
  - intros Hv. unfold updateStatisticsDisplay.
    cbn [List.length Nat.eqb andb]. now rewrite Hv.
  - apply no_anchor_throws.
  - apply nan_amount_quotient.
  - intros -> ->. reflexivity.
Qed.

(** X25.  A blank amount in the earliest entry stops the page load: when
    the entries arrive and the earliest of them has no amount that parses,
    [initializeApp] loads the list and then throws at the refresh of the
    statistics, before the chart is drawn.  The chart and the statistics
    are left as the rate computation left them. *)
Theorem blank_first_amount_stops_the_load (pills hours : number)
    (data : list SheetEvent) (w : World) (e0 : Event) (more : list Event) :
  eventsData w = [] ->
  loadedEvents data = e0 :: more ->
  Num.isNaN (dosageAmount e0) = true ->
  let w1 := world_of (updateRateDisplay pills hours w) in
  initializeApp pills hours true data w =
  Threw (set_eventsData (loadedEvents data) w1).
Proof.
  intros He Hl Hn w1. unfold initializeApp.
  rewrite (EventList.rate_completes_without_events pills hours w He).
  cbn [and_then]. cbv zeta. fold w1. unfold getEventsFromSheet.
  assert (Hd : (0 <? List.length data)%nat = true).
  { destruct data; [discriminate | reflexivity]. }
  rewrite Hd. cbn [eventsData set_eventsData]. rewrite Hl.
  assert (Hv : isValid (fromISO (dosageTime e0)) = true).
  { assert (Ht : Forall timed (loadedEvents data)).
    { apply (Permutation_Forall (TimelineFacts.sort_perm byTime _)).
      apply EventList.loaded_timed. }
    rewrite Hl in Ht. inversion Ht as [| ? ? (t & Ht0) _]; subst.
    now rewrite Ht0. }
  rewrite no_anchor_throws; [reflexivity | exact Hv |].
  now apply nan_amount_quotient.
Qed.

(** X25 on a reply whose only entry, at instant 0, has a blank amount. *)
Lemma blank_first_amount_stops_the_load_witness :
  let data := [{| date := Some 0%Z; value := Null |}] in
  let w1 := world_of (updateRateDisplay (Num.of_Z 1) (Num.of_Z 8) (freshPage 0)) in
  initializeApp (Num.of_Z 1) (Num.of_Z 8) true data (freshPage 0) =
  Threw (set_eventsData (loadedEvents data) w1).
Proof.
  apply (@blank_first_amount_stops_the_load (Num.of_Z 1) (Num.of_Z 8)
           [{| date := Some 0%Z; value := Null |}] (freshPage 0)
           {| dosageAmount := NaN; dosageTime := Some 0%Z |} []).
  - reflexivity.
  - reflexivity.
  - reflexivity.
Defined.

End Anchor.

(** ** The input fields and what is saved of them *)

Module Saved.
Import Client Forms Terms.
Local Open Scope string_scope.

Lemma load_saved (key value : string) (st : Storage) :
  loadFromLocalStorage key (saveToLocalStorage key value st) = Some value.
Proof.
  unfold loadFromLocalStorage, saveToLocalStorage. now rewrite String.eqb_refl.
Qed.

Lemma load_other (key key' value : string) (st : Storage) :
  key' <> key ->
  loadFromLocalStorage key' (saveToLocalStorage key value st) =
  loadFromLocalStorage key' st.
Proof.
  intros H. unfold loadFromLocalStorage, saveToLocalStorage.
  destruct (String.eqb key' key) eqn:E; [| reflexivity].
  apply String.eqb_eq in E. contradiction.
Qed.

Lemma value_set (k : InputKey) (v : string) (f : Form) :
  valueOf k (setValue k v f) = v.
Proof. now destruct k. Qed.

(** A saved value is what [initInputField] shows. *)
Lemma saved_value_shown (k : InputKey) (defaultValue v : string) (f : Form) :
  loadFromLocalStorage (keyOf k) (storage f) = Some v ->
  valueOf k (initInputField k defaultValue f) = v.
Proof.
  intros E. unfold initInputField. rewrite E. apply value_set.
Qed.

(** X26.  [initInputField] makes the field and the storage agree without
    ever overwriting what was saved: a saved value is shown and the storage
    is left alone; with nothing saved the default is shown and saved.
    Afterwards the value saved under the key is the value of the field, no
    other key has changed, and a second call changes nothing. *)
Theorem initInputField_restores_or_defaults (k : InputKey) (defaultValue : string)
    (f : Form) :
  let f' := initInputField k defaultValue f in
  loadFromLocalStorage (keyOf k) (storage f') = Some (valueOf k f')
  /\ (forall v, loadFromLocalStorage (keyOf k) (storage f) = Some v ->
      valueOf k f' = v /\ storage f' = storage f)
  /\ (loadFromLocalStorage (keyOf k) (storage f) = None ->
      valueOf k f' = defaultValue)
  /\ (forall key, key <> keyOf k ->
      loadFromLocalStorage key (storage f') = loadFromLocalStorage key (storage f))
  /\ page f' = page f
  /\ initInputField k defaultValue f' = f'.
Proof.
  cbv zeta. unfold initInputField.
  destruct (loadFromLocalStorage (keyOf k) (storage f)) as [v |] eqn:E.
  - assert (Hs : storage (setValue k v f) = storage f) by now destruct k.
    rewrite Hs, E, value_set.
    split; [reflexivity |]. split; [intros v' H; inversion H; now subst |].
    split; [discriminate |]. split; [reflexivity |].
    split; [now destruct k |].
    destruct k, f; reflexivity.
  - assert (Hs : storage (setValue k defaultValue f) = storage f) by now destruct k.
    cbn [storage set_storage]. rewrite Hs, load_saved.
    split; [now destruct k |]. split; [discriminate |].
    split; [intros _; now destruct k |].
    split; [intros key Hk; now apply load_other |].
    split; [now destruct k |].
    destruct k, f; reflexivity.
Qed.

(** The rate after a change of a field. *)
Lemma rate_from_fields (f : Form) :
  currentRate (world_of (updateRateFromFields f)) =
  let pills := SheetApp.parseFloat (pillsValue f) in
  let hours := SheetApp.parseFloat (hourValue f) in
  if negb (Num.isNaN pills) && negb (Num.isNaN hours)
     && negb (Num.strict_eq hours Num.zero)
  then Num.div pills hours
  else Num.zero.
Proof. unfold updateRateFromFields. apply Rate.rate_after. Qed.

(** X27.  What is typed into a field survives a reload.  After
    [handleInputChange] the value saved under the key of the field is the
    text of the field, the fields are as they were, and the rate is the one
    computed from the text of the two fields; a page that starts later from
    that storage gets the text back from [initInputField], whatever the
    default.  And on a first load, with nothing saved, the two fields get
    the defaults and the rate is one unit per eight hours. *)
Theorem typed_value_survives_reload (k : InputKey) (f : Form) :
  let f1 := handleInputChange k f in
  loadFromLocalStorage (keyOf k) (storage f1) = Some (valueOf k f)
  /\ pillsValue f1 = pillsValue f /\ hourValue f1 = hourValue f
  /\ currentRate (page f1) = currentRate (world_of (updateRateFromFields f))
  /\ (forall g defaultValue, storage g = storage f1 ->
      valueOf k (initInputField k defaultValue g) = valueOf k f)
  /\ (loadFromLocalStorage PILLS_KEY (storage f) = None ->
      loadFromLocalStorage HOUR_KEY (storage f) = None ->
      let f0 := initInputField Hour DEFAULT_HOUR
                  (initInputField Pills DEFAULT_PILLS f) in
      pillsValue f0 = DEFAULT_PILLS /\ hourValue f0 = DEFAULT_HOUR
      /\ currentRate (world_of (updateRateFromFields f0)) = Examples.oneEveryEight).
Proof.
  cbv zeta. unfold handleInputChange. cbn [storage set_page set_storage].
  split; [apply load_saved |]. split; [reflexivity |]. split; [reflexivity |].
  split.
  - cbn [page set_page]. rewrite !rate_from_fields. reflexivity.
  - split.
    + intros g defaultValue Hg. apply saved_value_shown.
      rewrite Hg. apply load_saved.
    + intros Hp Hh.
      assert (H1 : initInputField Pills DEFAULT_PILLS f =
                   set_storage
                     (saveToLocalStorage PILLS_KEY DEFAULT_PILLS (storage f))
                     (setValue Pills DEFAULT_PILLS f)).
      { unfold initInputField. cbn [keyOf]. now rewrite Hp. }
      rewrite H1. unfold initInputField.
      cbn [keyOf storage set_storage setValue].
      rewrite load_other by discriminate. rewrite Hh.
      cbn [setValue set_storage pillsValue hourValue].
      split; [reflexivity |]. split; [reflexivity |].
      rewrite rate_from_fields. cbn [pillsValue hourValue].
      apply NumFacts.number_eqb_eq. vm_compute. reflexivity.
Qed.

End Saved.

(** ** Two adds in a row, and the quick add *)

Module Composition.
Import SheetApp Handlers Terms.
Local Open Scope nat_scope.

(** X28.  Entries are read back in the order they were added: after two
    accepted requests in a row, [handleGetData] returns the items of the
    rows that were there, then the first entry, then the second. *)
Theorem entries_are_read_in_the_order_added (d1 f1 d2 f2 : string) (sheet : Sheet) :
  acceptable d1 f1 = true -> acceptable d2 f2 = true ->
  let ss1 := snd (handleAddData (Some d1) (Some f1) (Some sheet)) in
  let ss2 := snd (handleAddData (Some d2) (Some f2) ss1) in
  exists earlier,
    handleGetData ss2 =
    (GetSuccess
       (earlier ++
        [{| itemDate := VString d1; itemValue := Some (parseFloat f1) |};
         {| itemDate := VString d2; itemValue := Some (parseFloat f2) |}])%list,
     ss2)
    /\ List.length earlier = getLastRow (_internalEnsureHeaders sheet) - 1.
Proof.
  intros H1 H2 ss1 ss2. unfold ss2, ss1.
  rewrite (SheetStore.add_accepted d1 f1 sheet H1). cbn [snd].
  set (r1 := (VString d1, VNumber (parseFloat f1))).
  set (before := _internalEnsureHeaders sheet).
  set (s1 := appendRow r1 before).
  rewrite (SheetStore.add_accepted d2 f2 s1 H2). cbn [snd].
  set (r2 := (VString d2, VNumber (parseFloat f2))).
  assert (Hh1 : _internalEnsureHeaders s1 = s1).
  { unfold s1, before. destruct (SheetStore.ensure_head sheet) as (entries & ->).
    destruct (SheetStore.appendRow_header r1 entries) as (entries' & ->).
    apply SheetRemoval.header_kept. }
  rewrite Hh1. set (s2 := appendRow r2 s1).
  assert (Hh2 : _internalEnsureHeaders s2 = s2).
  { unfold s2. rewrite <- Hh1. destruct (SheetStore.ensure_head s1) as (entries & ->).
    destruct (SheetStore.appendRow_header r2 entries) as (entries' & ->).
    apply SheetRemoval.header_kept. }
  assert (Hpos : 1 <= getLastRow before).
  { unfold before. destruct (SheetStore.ensure_head sheet) as (entries & ->).
    apply SheetStore.header_lastRow. }
  assert (HL1 : getLastRow s1 = S (getLastRow before))
    by apply SheetStore.getLastRow_appendRow, SheetStore.entry_has_content.
  assert (HL2 : getLastRow s2 = S (S (getLastRow before))).
  { unfold s2. rewrite SheetStore.getLastRow_appendRow, HL1; [reflexivity |].
    apply SheetStore.entry_has_content. }
  assert (Hn2 : nth_error s2 (S (getLastRow before)) = Some r2).
  { unfold s2. rewrite <- HL1. apply SheetStore.nth_error_appendRow_new. }
  assert (Hn1 : nth_error s2 (getLastRow before) = Some r1).
  { unfold s2. apply SheetStore.nth_error_appendRow_kept.
    - apply SheetStore.nth_error_appendRow_new.
    - apply SheetStore.entry_has_content. }
  unfold handleGetData. rewrite HL2.
  replace (S (S (getLastRow before)) <=? 1) with false
    by (symmetry; apply Nat.leb_gt; lia).
  cbv zeta. rewrite Hh2, HL2.
  replace (S (S (getLastRow before)) - 1) with (S (S (getLastRow before - 1))) by lia.
  rewrite SheetStore.read_rows_end with (row := r2)
    by (replace (S (S (getLastRow before - 1))) with (S (getLastRow before)) by lia;
        exact Hn2).
  rewrite SheetStore.read_rows_end with (row := r1)
    by (replace (S (getLastRow before - 1)) with (getLastRow before) by lia;
        exact Hn1).
  exists (map toItem (firstn (getLastRow before - 1) (skipn 1 s2))).
  split.
  - unfold push. rewrite <- app_assoc. reflexivity.
  - rewrite length_map, length_firstn, length_skipn.
    assert (Hlen : S (S (getLastRow before)) <= List.length s2).
    { rewrite <- HL2. apply SheetRemoval.getLastRow_le_length. }
    lia.
Qed.

(** X28 for two entries added to a sheet of four. *)
Lemma entries_are_read_in_the_order_added_witness :
  let ss1 :=
    snd (handleAddData (Some Examples.mayFirst) (Some Examples.oneAndHalf)
           (Some Examples.fourEntries)) in
  let ss2 :=
    snd (handleAddData (Some Examples.maySecond) (Some Examples.oneAndHalf) ss1) in
  exists earlier,
    handleGetData ss2 =
    (GetSuccess
       (earlier ++
        [{| itemDate := VString Examples.mayFirst;
            itemValue := Some (parseFloat Examples.oneAndHalf) |};
         {| itemDate := VString Examples.maySecond;
            itemValue := Some (parseFloat Examples.oneAndHalf) |}])%list,
     ss2)
    /\ List.length earlier
       = getLastRow (_internalEnsureHeaders Examples.fourEntries) - 1.
Proof.
  apply (@entries_are_read_in_the_order_added Examples.mayFirst
           Examples.oneAndHalf Examples.maySecond Examples.oneAndHalf
           Examples.fourEntries); reflexivity.
Defined.


End Composition.
